(** * ppcls/utils/model_zoo.py: download, unpack and merge of pretrained models

  A shallow embedding of [ppcls/utils/model_zoo.py] and the properties of
  its four functions [_get_url], [_move_and_merge_tree], [_download],
  [_decompress] and of the entry point [get].

  The program talks to three things outside itself: the file system, an
  HTTP server and the tar/zip decoders.  The file system is a tree of
  named entries addressed by path strings, the server is a function from
  the URL and the number of earlier requests to a response, and each
  decoder is a function from the bytes of an archive to its members.
  Names are opaque: there are no links and no "." or ".." entries, and a
  relative path is resolved from the root of the tree.  Three limits of
  the model bear on what is stated below: a separator at the end of a path
  is passed over, also after the name of a regular file, where the system
  calls refuse it; every request is answered, and a [content-length]
  header is a numeral when it is sent; and a directory lists its entries
  in the order they were made. *)

From Stdlib Require Import String Ascii List ZArith Lia Bool Permutation.
Import ListNotations.
Open Scope list_scope.
Open Scope string_scope.

Set Implicit Arguments.

(** ** Strings: the few methods of Python's [str] the module uses *)

Module Str.

Definition slash : ascii := "/"%char.

Definition is_slash (c : ascii) : bool := Ascii.eqb c slash.

Definition is_empty (s : string) : bool :=
  match s with EmptyString => true | String _ _ => false end.

(** [s.startswith(pre)] *)
Fixpoint startswith (pre s : string) : bool :=
  match pre, s with
  | EmptyString, _ => true
  | String a pre', String b s' => Ascii.eqb a b && startswith pre' s'
  | String _ _, EmptyString => false
  end.

(** [s.endswith("/")] *)
Fixpoint ends_with_slash (s : string) : bool :=
  match s with
  | EmptyString => false
  | String c EmptyString => is_slash c
  | String _ s' => ends_with_slash s'
  end.

(** [s.find(sub)]: the lowest index at which [sub] occurs in [s], or -1. *)
Fixpoint find_from (i : Z) (sub s : string) : Z :=
  if startswith sub s then i
  else match s with
       | EmptyString => (-1)%Z
       | String _ s' => find_from (i + 1) sub s'
       end.

Definition find (s sub : string) : Z := find_from 0 sub s.

(** [sub in s], as a proposition: [s] is [a ++ sub ++ b]. *)
Definition occurs (sub s : string) : Prop :=
  exists a b, s = a ++ sub ++ b.

(** ['/' in s] *)
Fixpoint has_slash (s : string) : bool :=
  match s with
  | EmptyString => false
  | String c s' => is_slash c || has_slash s'
  end.

(** [s == '/' * len(s)] *)
Fixpoint all_slashes (s : string) : bool :=
  match s with
  | EmptyString => true
  | String c s' => is_slash c && all_slashes s'
  end.

(** [s.rstrip('/')] *)
Fixpoint rstrip_slash (s : string) : string :=
  match s with
  | EmptyString => EmptyString
  | String c s' =>
      match rstrip_slash s' with
      | EmptyString => if is_slash c then EmptyString else String c EmptyString
      | r => String c r
      end
  end.

(** [(s[:i], s[i:])] for [i = s.rfind('/') + 1]: the second part is the
    longest suffix of [s] without a separator. *)
Fixpoint cut_last_slash (s : string) : string * string :=
  match s with
  | EmptyString => (EmptyString, EmptyString)
  | String c s' =>
      let '(h, t) := cut_last_slash s' in
      match h with
      | EmptyString =>
          if is_slash c then (String c EmptyString, t)
          else (EmptyString, String c t)
      | _ => (String c h, t)
      end
  end.

End Str.

(** ** Paths: [posixpath] *)

Module Path.
Import Str.

(** [os.path.split(p)]: head and tail around the last separator; trailing
    separators are stripped from the head unless it is the root. *)
Definition split (p : string) : string * string :=
  let '(h, t) := cut_last_slash p in
  (if negb (is_empty h) && negb (all_slashes h) then rstrip_slash h else h, t).

(** [os.path.join(a, b)] *)
Definition join (a b : string) : string :=
  if startswith "/" b then b
  else if is_empty a || ends_with_slash a then a ++ b
  else a ++ "/" ++ b.

(** [shutil._basename(p)]: the last component, ignoring trailing
    separators. *)
Definition basename (p : string) : string :=
  snd (cut_last_slash (rstrip_slash p)).

(** A piece between two separators counts when it is not empty. *)
Definition piece (acc : string) : list string :=
  if is_empty acc then [] else [acc].

(** The components of a path: the non-empty pieces between separators.
    [acc] is the piece being read. *)
Fixpoint components_from (acc s : string) : list string :=
  match s with
  | EmptyString => piece acc
  | String c s' =>
      if is_slash c then (piece acc ++ components_from EmptyString s')%list
      else components_from (acc ++ String c EmptyString) s'
  end.

Definition components (p : string) : list string :=
  components_from EmptyString p.

(** A name a directory entry can have: not empty, no separator. *)
Definition valid_name (x : string) : bool :=
  negb (is_empty x) && negb (has_slash x).

(** [is_prefix p q]: the components [p] are an initial part of [q], that
    is, [q] names [p] itself or something below it. *)
Fixpoint is_prefix (p q : list string) : bool :=
  match p, q with
  | [], _ => true
  | x :: p', y :: q' => String.eqb x y && is_prefix p' q'
  | _ :: _, [] => false
  end.

(** [same p q]: the two lists of components are equal. *)
Fixpoint same (p q : list string) : bool :=
  match p, q with
  | [], [] => true
  | x :: p', y :: q' => String.eqb x y && same p' q'
  | _, _ => false
  end.

(** [inside p q]: [q] names something strictly below [p]. *)
Definition inside (p q : list string) : bool :=
  is_prefix p q && negb (same p q).

End Path.

(** ** The file system: a tree of named entries *)

(** A regular file with its bytes, or a directory with its entries in the
    order [os.listdir] reports them. *)
#[warnings="-register-all"]
Inductive node : Type :=
| File (data : string)
| Dir (entries : list (string * node)).

Module Tree.

(** The entry called [x]. *)
Fixpoint entry_get (x : string) (es : list (string * node)) : option node :=
  match es with
  | [] => None
  | (y, c) :: es' => if String.eqb x y then Some c else entry_get x es'
  end.

(** Replace the entry called [x], or add it after the others. *)
Fixpoint entry_put (x : string) (c : node) (es : list (string * node))
  : list (string * node) :=
  match es with
  | [] => [(x, c)]
  | (y, c0) :: es' =>
      if String.eqb x y then (y, c) :: es' else (y, c0) :: entry_put x c es'
  end.

(** Drop every entry called [x]. *)
Fixpoint entry_del (x : string) (es : list (string * node))
  : list (string * node) :=
  match es with
  | [] => []
  | (y, c) :: es' =>
      if String.eqb x y then entry_del x es' else (y, c) :: entry_del x es'
  end.

(** The node the components [p] lead to, from [n]. *)
Fixpoint get (n : node) (p : list string) : option node :=
  match p with
  | [] => Some n
  | x :: p' =>
      match n with
      | File _ => None
      | Dir es =>
          match entry_get x es with
          | Some c => get c p'
          | None => None
          end
      end
  end.

(** Put [new] at [p].  The directory that receives the last component has
    to exist, unless [mk] asks for the missing directories on the way to be
    made; a regular file on the way is an error. *)
Fixpoint put (mk : bool) (n : node) (p : list string) (new : node)
  : option node :=
  match p with
  | [] => Some new
  | x :: p' =>
      match n with
      | File _ => None
      | Dir es =>
          match entry_get x es with
          | Some c =>
              match put mk c p' new with
              | Some c' => Some (Dir (entry_put x c' es))
              | None => None
              end
          | None =>
              if match p' with [] => true | _ :: _ => mk end then
                match put mk (Dir []) p' new with
                | Some c' => Some (Dir (entry_put x c' es))
                | None => None
                end
              else None
          end
      end
  end.

(** Unlink what [p] names, with everything below it. *)
Fixpoint del (n : node) (p : list string) : node :=
  match p with
  | [] => n
  | x :: p' =>
      match n with
      | File _ => n
      | Dir es =>
          match p' with
          | [] => Dir (entry_del x es)
          | _ :: _ =>
              match entry_get x es with
              | Some c => Dir (entry_put x (del c p') es)
              | None => n
              end
          end
      end
  end.

(** The number of nodes of a tree. *)
Fixpoint size (n : node) : nat :=
  match n with
  | File _ => 1
  | Dir es =>
      S ((fix sizes (l : list (string * node)) : nat :=
            match l with
            | [] => 0
            | (_, c) :: l' => size c + sizes l'
            end) es)
  end.

(** No entry of [es] is called [x]. *)
Fixpoint fresh (x : string) (es : list (string * node)) : bool :=
  match es with
  | [] => true
  | (y, _) :: es' => negb (String.eqb x y) && fresh x es'
  end.

(** Every entry has a valid name and no directory has two entries of one
    name. *)
Fixpoint wf (n : node) : bool :=
  match n with
  | File _ => true
  | Dir es =>
      (fix wfs (l : list (string * node)) : bool :=
         match l with
         | [] => true
         | (x, c) :: l' => Path.valid_name x && fresh x l' && wf c && wfs l'
         end) es
  end.

(** Is the node a directory? *)
Definition is_dir (n : node) : bool :=
  match n with Dir _ => true | File _ => false end.

(** Two look-ups find the same kind of thing: nothing, a regular file of
    the same bytes, or a directory. *)
Definition alike (a b : option node) : Prop :=
  match a, b with
  | None, None => True
  | Some (File x), Some (File y) => x = y
  | Some (Dir _), Some (Dir _) => True
  | _, _ => False
  end.

End Tree.

(** ** Exceptions and the monad of the program *)

(** The exceptions the module raises or lets through: its own [UrlError]
    and [RetryError], the [TypeError] of [_decompress], [shutil.Error], the
    [OSError] family of the file system calls, and the decoders' error on
    bytes that are no archive. *)
Inductive exn : Type :=
| UrlError (url : string) (code : Z)
| RetryError (url : string) (times : Z)
| TypeError (fname : string)
| ShutilError
| OSError
| ReadError.

(** How a call ends: with a value, with an exception, or not within the
    steps it was given. *)
Inductive outcome (A : Type) : Type :=
| Ok (a : A)
| Raise (e : exn)
| Diverge.

Arguments Ok {A} a.
Arguments Raise {A} e.
Arguments Diverge {A}.

(** A computation over a state [S]: the state is threaded through, also
    when an exception leaves the computation. *)
Definition M (S A : Type) : Type := S -> S * outcome A.

Definition ret {S A : Type} (a : A) : M S A := fun s => (s, Ok a).

Definition raise {S A : Type} (e : exn) : M S A := fun s => (s, Raise e).

Definition bind {S A B : Type} (m : M S A) (k : A -> M S B) : M S B :=
  fun s =>
    match m s with
    | (s', Ok a) => k a s'
    | (s', Raise e) => (s', Raise e)
    | (s', Diverge) => (s', Diverge)
    end.

Notation "x <- m ;; k" := (bind m (fun x => k))
  (at level 61, m at next level, right associativity).
Notation "m ;;; k" := (bind m (fun _ => k))
  (at level 61, right associativity).

(** [for x in xs: body(x)] *)
Fixpoint for_each {S A : Type} (xs : list A) (body : A -> M S unit)
  : M S unit :=
  match xs with
  | [] => ret tt
  | x :: xs' => body x ;;; for_each xs' body
  end.

(** ** [os], [os.path] and [shutil] on the tree *)

Module Os.
Import Path Tree.

(** What the path [p] names; the empty path names nothing, and empty
    pieces, such as a separator at the end leaves, are passed over. *)
Definition resolve (fs : node) (p : string) : option node :=
  if Str.is_empty p then None else get fs (components p).

(** [os.path.exists(p)] *)
Definition exists_ (fs : node) (p : string) : bool :=
  match resolve fs p with Some _ => true | None => false end.

(** [os.path.isfile(p)] *)
Definition isfile (fs : node) (p : string) : bool :=
  match resolve fs p with Some (File _) => true | _ => false end.

(** [os.path.isdir(p)] *)
Definition isdir (fs : node) (p : string) : bool :=
  match resolve fs p with Some (Dir _) => true | _ => false end.

(** The bytes of the regular file [p]. *)
Definition read (fs : node) (p : string) : option string :=
  match resolve fs p with Some (File d) => Some d | _ => None end.

(** [os.listdir(p)] *)
Definition listdir (p : string) : M node (list string) :=
  fun fs =>
    match resolve fs p with
    | Some (Dir es) => (fs, Ok (map fst es))
    | _ => (fs, Raise OSError)
    end.

(** [os.makedirs(p)]: make the directory and the missing ones above it;
    it is an error that [p] exists or that a regular file is on the way. *)
Definition makedirs (p : string) : M node unit :=
  fun fs =>
    match components p with
    | [] => (fs, Raise OSError)
    | d =>
        match get fs d with
        | Some _ => (fs, Raise OSError)
        | None =>
            match put true fs d (Dir []) with
            | Some fs' => (fs', Ok tt)
            | None => (fs, Raise OSError)
            end
        end
    end.

(** [shutil.rmtree(p)]: [p] has to be a directory, not the root. *)
Definition rmtree (p : string) : M node unit :=
  fun fs =>
    match components p, resolve fs p with
    | _ :: _, Some (Dir _) => (del fs (components p), Ok tt)
    | _, _ => (fs, Raise OSError)
    end.

(** [os.remove(p)]: [p] has to be a regular file. *)
Definition remove (p : string) : M node unit :=
  fun fs =>
    match components p, resolve fs p with
    | _ :: _, Some (File _) => (del fs (components p), Ok tt)
    | _, _ => (fs, Raise OSError)
    end.

(** [with open(p, 'wb') as f: f.write(data)]: create or truncate the
    regular file [p] in an existing directory and write [data]. *)
Definition write_file (p data : string) : M node unit :=
  fun fs =>
    match components p, get fs (components p) with
    | [], _ => (fs, Raise OSError)
    | _, Some (Dir _) => (fs, Raise OSError)
    | d, _ =>
        match put false fs d (File data) with
        | Some fs' => (fs', Ok tt)
        | None => (fs, Raise OSError)
        end
    end.

(** [os.rename(src, real_dst)] with the fallback of [shutil.move] when it
    fails: copy and unlink.  [n] is the node at [src].
    - renaming a path onto itself does nothing;
    - a directory does not move into itself ([shutil.Error]) and does not
      replace a regular file; the directories missing above its new place
      are made by the fallback's [copytree];
    - a regular file replaces a regular file and needs the directory of
      its new place to exist. *)
Definition rename (n : node) (src real_dst : string) : M node unit :=
  fun fs =>
    let s := components src in
    let d := components real_dst in
    match d with
    | [] => (fs, Raise OSError)
    | _ :: _ =>
        if same s d then (fs, Ok tt)
        else
          match n, get fs d with
          | Dir _, Some _ =>
              if is_prefix s d then (fs, Raise ShutilError)
              else (fs, Raise OSError)
          | Dir _, None =>
              if is_prefix s d then (fs, Raise ShutilError)
              else
                match put true (del fs s) d n with
                | Some fs' => (fs', Ok tt)
                | None => (fs, Raise OSError)
                end
          | File _, Some (Dir _) => (fs, Raise OSError)
          | File _, _ =>
              match put false (del fs s) d n with
              | Some fs' => (fs', Ok tt)
              | None => (fs, Raise OSError)
              end
          end
    end.

(** [shutil._samefile(src, dst)] *)
Definition samefile (fs : node) (src dst : string) : bool :=
  exists_ fs src && exists_ fs dst && same (components src) (components dst).

(** [shutil.move(src, dst)]: into [dst] when [dst] is a directory (an
    error if the name is taken there), onto [dst] otherwise. *)
Definition move (src dst : string) : M node unit :=
  fun fs =>
    if isdir fs dst then
      if samefile fs src dst then (fs, Ok tt)
      else
        let real_dst := join dst (basename src) in
        if exists_ fs real_dst then (fs, Raise ShutilError)
        else
          match resolve fs src with
          | Some n => rename n src real_dst fs
          | None => (fs, Raise OSError)
          end
    else
      match resolve fs src with
      | Some n => rename n src dst fs
      | None => (fs, Raise OSError)
      end.

End Os.

(** ** The program *)

(** [DOWNLOAD_RETRY_LIMIT = 3] *)
Definition DOWNLOAD_RETRY_LIMIT : Z := 3.

(** [_get_url(architecture)] *)
Definition _get_url (architecture : string) : string :=
  let prefix := "https://paddle-imagenet-models-name.bj.bcebos.com/" in
  let fname := architecture ++ "_pretrained.tar" in
  prefix ++ fname.

(** The body of the loop of [_move_and_merge_tree] for the entry [fp] of
    [src]; [merge] is the recursive call. *)
Definition merge_entry (merge : string -> string -> M node unit)
    (src dst fp : string) : M node unit :=
  let src_fp := Path.join src fp in
  let dst_fp := Path.join dst fp in
  fun fs =>
    if Os.isdir fs src_fp then
      if Os.isdir fs dst_fp
      then merge src_fp dst_fp fs
      else Os.move src_fp dst_fp fs
    else if Os.isfile fs src_fp && negb (Os.isfile fs dst_fp)
    then Os.move src_fp dst_fp fs
    else (fs, Ok tt).

(** [_move_and_merge_tree(src, dst)], with the depth of the recursion
    bounded by [fuel]. *)
Fixpoint move_and_merge_tree (fuel : nat) (src dst : string) : M node unit :=
  fun fs =>
    match fuel with
    | O => (fs, Diverge)
    | S fuel' =>
        if negb (Os.exists_ fs dst) then Os.move src dst fs
        else if Os.isfile fs src then Os.move src dst fs
        else
          (names <- Os.listdir src ;;
           for_each names
             (merge_entry (move_and_merge_tree fuel') src dst)) fs
    end.

(** Every level of the recursion goes one directory down, so the number of
    nodes of the tree bounds its depth. *)
Definition _move_and_merge_tree (src dst : string) : M node unit :=
  fun fs => move_and_merge_tree (S (Tree.size fs)) src dst fs.

(** ** The network, the decoders and the world *)

(** What [requests.get(url, stream=True)] gives back: the status, the
    [content-length] header (a decimal numeral, when the server sends one)
    and the chunks [iter_content] yields. *)
Record response : Type := {
  status_code : Z;
  content_length : option Z;
  chunks : list string
}.

(** The two archive readers: [tarfile] and [zipfile]. *)
Inductive archive : Type := Tar | Zip.

(** The world the program runs in: the file system, the URLs requested so
    far (newest first) and the archives opened so far with the reader that
    opened them (newest first). *)
Record world : Type := {
  fs : node;
  requests : list string;
  opened : list (archive * string)
}.

Definition with_fs (w : world) (t : node) : world :=
  {| fs := t; requests := requests w; opened := opened w |}.

(** Run a file system call in the world. *)
Definition lift {A : Type} (m : M node A) : M world A :=
  fun w => let '(t, r) := m (fs w) in (with_fs w t, r).

(** [total=(int(total_size) + 1023) // 1024]: the length of the progress
    bar, in chunks. *)
Definition progress_total (total_size : Z) : Z := ((total_size + 1023) / 1024)%Z.

(** What the two loops over [iter_content] write: every chunk when the
    length is known, the non-empty chunks otherwise. *)
Definition written (req : response) : string :=
  match content_length req with
  | Some _ => String.concat "" (chunks req)
  | None =>
      String.concat "" (filter (fun c => negb (Str.is_empty c)) (chunks req))
  end.

Section Program.

(** The server: the response to the [n]-th request (from 0) for [url]. *)
Variable server : string -> nat -> response.

(** The decoders: the top-level members of an archive from its bytes, or
    nothing when the bytes are no archive of that kind. *)
Variable members : archive -> string -> option (list (string * node)).

(** [requests.get(url, stream=True)] *)
Definition http_get (url : string) : M world response :=
  fun w =>
    ({| fs := fs w; requests := url :: requests w; opened := opened w |},
     Ok (server url (length (requests w)))).

(** One attempt up to the end of the [with open(tmp_fullname, 'wb')]
    block: the request, the check of the status, and the body streamed to
    [tmp_fullname]. *)
Definition fetch_to_tmp (url tmp_fullname : string) : M world unit :=
  req <- http_get url ;;
  if negb (status_code req =? 200)%Z
  then raise (UrlError url (status_code req))
  else lift (Os.write_file tmp_fullname (written req)).

(** The [while not os.path.exists(fullname)] loop of [_download]. *)
Fixpoint download_loop (fuel : nat) (url fullname : string) (retry_cnt : Z)
  : M world unit :=
  fun w =>
    match fuel with
    | O => (w, Diverge)
    | S fuel' =>
        if Os.exists_ (fs w) fullname then (w, Ok tt)
        else if (retry_cnt <? DOWNLOAD_RETRY_LIMIT)%Z then
          (let retry_cnt := (retry_cnt + 1)%Z in
           let tmp_fullname := fullname ++ "_tmp" in
           fetch_to_tmp url tmp_fullname ;;;
           lift (Os.move tmp_fullname fullname) ;;;
           download_loop fuel' url fullname retry_cnt) w
        else (w, Raise (RetryError url DOWNLOAD_RETRY_LIMIT))
    end.

(** [_download(url, path)].  The counter grows in every round of the loop
    and the round at the limit raises, so one round more than the limit is
    all the loop can make. *)
Definition _download (url path : string) : M world string :=
  (fun w =>
     if negb (Os.exists_ (fs w) path) then lift (Os.makedirs path) w
     else (w, Ok tt)) ;;;
  let fname := snd (Path.split url) in
  let fullname := Path.join path fname in
  let retry_cnt := 0%Z in
  download_loop (S (Z.to_nat DOWNLOAD_RETRY_LIMIT)) url fullname retry_cnt ;;;
  ret fullname.

(** [tarfile.open(fname).extractall(path)] and
    [zipfile.ZipFile(fname).extractall(path)]: open the regular file, decode
    it, and write the members below [path], which is made when it is
    missing; an archive without members writes nothing. *)
Definition extractall (kind : archive) (fname path : string) : M world unit :=
  fun w =>
    let w1 := {| fs := fs w; requests := requests w;
                 opened := (kind, fname) :: opened w |} in
    match Os.read (fs w) fname with
    | None => (w1, Raise OSError)
    | Some bytes =>
        match members kind bytes with
        | None => (w1, Raise ReadError)
        | Some [] => (w1, Ok tt)
        | Some ms =>
            let d := Path.components path in
            match d, Tree.get (fs w) d with
            | [], _ => (w1, Raise OSError)
            | _, Some (File _) => (w1, Raise OSError)
            | _, Some (Dir es) =>
                let es' :=
                  fold_left (fun acc m => Tree.entry_put (fst m) (snd m) acc)
                    ms es in
                match Tree.put false (fs w) d (Dir es') with
                | Some t => (with_fs w1 t, Ok tt)
                | None => (w1, Raise OSError)
                end
            | _, None =>
                match Tree.put true (fs w) d (Dir ms) with
                | Some t => (with_fs w1 t, Ok tt)
                | None => (w1, Raise OSError)
                end
            end
        end
    end.

(** [_decompress(fname)] *)
Definition _decompress (fname : string) : M world unit :=
  let fpath := fst (Path.split fname) in
  let fpath_tmp := Path.join fpath "tmp" in
  (fun w =>
     if Os.isdir (fs w) fpath_tmp
     then (lift (Os.rmtree fpath_tmp) ;;; lift (Os.makedirs fpath_tmp)) w
     else (w, Ok tt)) ;;;
  (if (Str.find fname "tar" >=? 0)%Z then extractall Tar fname fpath_tmp
   else if (Str.find fname "zip" >=? 0)%Z then extractall Zip fname fpath_tmp
   else raise (TypeError fname)) ;;;
  (names <- lift (Os.listdir fpath_tmp) ;;
   for_each names (fun f =>
     let src_dir := Path.join fpath_tmp f in
     let dst_dir := Path.join fpath f in
     lift (_move_and_merge_tree src_dir dst_dir))) ;;;
  lift (Os.rmtree fpath_tmp) ;;;
  lift (Os.remove fname).

(** [get(architecture, path, decompress)] *)
Definition get (architecture path : string) (decompress : bool)
  : M world unit :=
  let url := _get_url architecture in
  fname <- _download url path ;;
  if decompress then _decompress fname else ret tt.

End Program.

(** ** Two properties of computations *)

(** [m] asks the server nothing and opens no archive. *)
Definition quiet {A : Type} (m : M world A) : Prop :=
  forall w w' r, m w = (w', r) ->
    requests w' = requests w /\ opened w' = opened w.

(** [m] raises nothing but the errors of the file system calls and of the
    decoders. *)
Definition io_only {S A : Type} (m : M S A) : Prop :=
  forall s s' e, m s = (s', Raise e) ->
    e = OSError \/ e = ShutilError \/ e = ReadError.

(** ** Sample data for the examples *)

(** A world with the tree [t], before any request. *)
Definition world_of (t : node) : world :=
  {| fs := t; requests := []; opened := [] |}.

(** A server that answers every request alike. *)
Definition server_const (status : Z) (len : option Z) (body : list string)
  : string -> nat -> response :=
  fun _ _ => {| status_code := status; content_length := len; chunks := body |}.

(** Decoders that find the same two members in every archive. *)
Definition two_members : archive -> string -> option (list (string * node)) :=
  fun _ _ => Some [("weights.bin", File "W"); ("config.json", File "C")].

(** [/tmp/models], empty. *)
Definition fs_models : node := Dir [("tmp", Dir [("models", Dir [])])].

(** [/tmp/models] with what an interrupted download of the ResNet50
    archive has left behind. *)
Definition fs_stale : node :=
  Dir [("tmp", Dir [("models",
         Dir [("ResNet50_pretrained.tar_tmp", File "stale")])])].

(** [/d] with a file that is no archive by its name, and a staging
    directory a run before has left. *)
Definition fs_leftover : node :=
  Dir [("d", Dir [("model.bin", File "B");
                  ("tmp", Dir [("old.txt", File "o")])])].



(** A source and a destination directory, each with its own [a.txt]. *)
Definition fs_ab (src_data dst_data : string) : node :=
  Dir [("src", Dir [("a.txt", File src_data)]);
       ("dst", Dir [("a.txt", File dst_data)])].

(** A source directory with [a.txt], and no destination. *)
Definition fs_a (src_data : string) : node :=
  Dir [("src", Dir [("a.txt", File src_data)])].

(** The trees of the recursive merge: [sub/x.txt] and [sub/y.txt] in the
    source, [sub/x.txt] in the destination. *)
Definition fs_sub (sx sy dx : string) : node :=
  Dir [("src", Dir [("sub", Dir [("x.txt", File sx); ("y.txt", File sy)])]);
       ("dst", Dir [("sub", Dir [("x.txt", File dx)])])].

(** A destination inside the source: [/s/d] in [/s], each with its
    [a.txt], and [/s/d/d] below. *)
Definition fs_nested : node :=
  Dir [("s", Dir [("a.txt", File "sa");
                  ("d", Dir [("a.txt", File "da"); ("d", Dir [])])])].

(** ** More notions and sample data *)
(** The reader [_decompress] takes for a name with "tar" or "zip" in it:
    [tarfile] when "tar" is found, [zipfile] otherwise. *)
Definition reader_of (fname : string) : archive :=
  if (Str.find fname "tar" >=? 0)%Z then Tar else Zip.


(** Decoders that find no member in any archive. *)
Definition no_members : archive -> string -> option (list (string * node)) :=
  fun _ _ => Some [].

(** [/d] with the archive [model.tar]. *)
Definition fs_archive : node :=
  Dir [("d", Dir [("model.tar", File "B")])].

(** [/d] with the archive [model.tar] and a staging directory a run before
    has left. *)
Definition fs_archive_leftover : node :=
  Dir [("d", Dir [("model.tar", File "B");
                  ("tmp", Dir [("old.txt", File "o")])])].

(** Two regular files side by side. *)
Definition fs_two_files : node :=
  Dir [("a.txt", File "new"); ("b.txt", File "old")].

(** A regular file beside a directory, and the same with the name of the
    file taken in the directory. *)
Definition fs_file_dir : node :=
  Dir [("a.txt", File "new"); ("d", Dir [])].

Definition fs_file_dir_taken : node :=
  Dir [("a.txt", File "new"); ("d", Dir [("a.txt", File "old")])].

(** [/tmp/models] as a regular file. *)
Definition fs_models_file : node :=
  Dir [("tmp", Dir [("models", File "x")])].

(** [b] is [a] but for what is inside the directory [p]: at every other
    path the two have the same kind of thing. *)
Definition same_outside (p : list string) (a b : node) : Prop :=
  forall q, Path.inside p q = false -> Tree.alike (Tree.get a q) (Tree.get b q).

(** [/d] with the archive [model.tar], beside [/other] with a file. *)
Definition fs_beside : node :=
  Dir [("d", Dir [("model.tar", File "B")]);
       ("other", Dir [("keep.txt", File "k")])].

(** * Properties *)

(** ** Strings *)

Section StringFacts.
Import Str.

Lemma append_empty_r (s : string) : s ++ "" = s.
Proof. induction s as [|c s IH]; simpl; [reflexivity | now rewrite IH]. Qed.

Lemma append_assoc (a b c : string) : (a ++ b) ++ c = a ++ b ++ c.
Proof. induction a as [|x a IH]; simpl; [reflexivity | now rewrite IH]. Qed.

Lemma startswith_iff (pre s : string) :
  startswith pre s = true <-> exists b, s = pre ++ b.
Proof.
  revert s; induction pre as [|a pre IH]; intros s; simpl.
  - split; [intros _; now exists s | reflexivity].
  - destruct s as [|b s].
    + split; [discriminate | intros [x Hx]; discriminate].
    + rewrite andb_true_iff, Ascii.eqb_eq, IH. split.
      * intros [-> [x ->]]. now exists x.
      * intros [x Hx]. injection Hx as -> ->. split; [reflexivity | now exists x].
Qed.

Lemma find_from_range (sub s : string) (i : Z) :
  find_from i sub s = (-1)%Z \/ (i <= find_from i sub s)%Z.
Proof.
  revert i; induction s as [|c s IH]; intros i; simpl.
  - destruct (startswith sub ""); [right; lia | now left].
  - destruct (startswith sub (String c s)); [right; lia|].
    destruct (IH (i + 1)%Z) as [H | H]; [now left | right; lia].
Qed.

Lemma find_from_found (sub s : string) (i : Z) :
  (0 <= i)%Z ->
  (0 <= find_from i sub s)%Z <-> occurs sub s.
Proof.
  revert i; induction s as [|c s IH]; intros i Hi; simpl.
  - destruct (startswith sub "") eqn:E.
    + split; [intros _ | lia].
      apply startswith_iff in E. destruct E as [b Hb]. now exists "", b.
    + split; [lia|]. intros [a [b H]].
      destruct a; [|discriminate]. simpl in H.
      assert (startswith sub "" = true) by (apply startswith_iff; now exists b).
      congruence.
  - destruct (startswith sub (String c s)) eqn:E.
    + split; [intros _ | lia].
      apply startswith_iff in E. destruct E as [b Hb]. now exists "", b.
    + rewrite (IH (i + 1)%Z) by lia. split.
      * intros [a [b ->]]. now exists (String c a), b.
      * intros [a [b H]]. destruct a as [|x a]; simpl in H.
        -- assert (startswith sub (String c s) = true)
             by (apply startswith_iff; now exists b).
           congruence.
        -- injection H as _ ->. now exists a, b.
Qed.

(** [s.find(sub) >= 0] says that [sub] occurs in [s]. *)
Lemma find_ge_0_iff (s sub : string) :
  (find s sub >=? 0)%Z = true <-> occurs sub s.
Proof.
  unfold find. rewrite Z.geb_le. apply find_from_found. lia.
Qed.


Lemma occurs_append_l (sub s t : string) : occurs sub s -> occurs sub (t ++ s).
Proof.
  intros [a [b ->]]. exists (t ++ a), b. now rewrite !append_assoc.
Qed.

Lemma cut_last_slash_spec (s : string) :
  fst (cut_last_slash s) ++ snd (cut_last_slash s) = s
  /\ has_slash (snd (cut_last_slash s)) = false
  /\ (is_empty (fst (cut_last_slash s))
      || ends_with_slash (fst (cut_last_slash s))) = true.
Proof.
  induction s as [|c s IH]; simpl; [auto|].
  destruct (cut_last_slash s) as [h t]; simpl in *.
  destruct IH as [Hs [Ht Hh]].
  destruct h as [|x h].
  - simpl in Hs. subst t. destruct (is_slash c) eqn:Ec; simpl.
    + rewrite Ec. auto.
    + rewrite Ec. simpl. auto.
  - simpl. split; [now rewrite <- Hs|]. split; [assumption|].
    simpl in Hh. exact Hh.
Qed.

Lemma has_slash_startswith (s : string) :
  has_slash s = false -> startswith "/" s = false.
Proof.
  destruct s as [|c s]; [reflexivity|].
  cbn [has_slash startswith]. intros H.
  apply orb_false_iff in H. destruct H as [H _].
  unfold is_slash, slash in H. rewrite Ascii.eqb_sym in H. now rewrite H.
Qed.

Lemma has_slash_append (a b : string) :
  has_slash (a ++ b) = has_slash a || has_slash b.
Proof.
  induction a as [|c a IH]; simpl; [reflexivity|].
  now rewrite IH, orb_assoc.
Qed.

Lemma ends_with_slash_inv (a : string) :
  ends_with_slash a = true -> exists a', a = a' ++ "/".
Proof.
  induction a as [|c a IH]; simpl; [discriminate|].
  destruct a as [|d a].
  - intros H. apply Ascii.eqb_eq in H. subst c. now exists "".
  - intros H. destruct (IH H) as [a' Ha']. exists (String c a').
    simpl. now rewrite <- Ha'.
Qed.

End StringFacts.

(** ** Paths *)

Section PathFacts.
Import Str Path.

Lemma components_from_cons (acc : string) (c : ascii) (s : string) :
  components_from acc (String c s)
  = if is_slash c then (piece acc ++ components_from "" s)%list
    else components_from (acc ++ String c "") s.
Proof. reflexivity. Qed.

Lemma components_from_slash (acc s t : string) :
  components_from acc (s ++ String slash t)
  = (components_from acc s ++ components t)%list.
Proof.
  revert acc; induction s as [|c s IH]; intros acc.
  - reflexivity.
  - cbn [append components_from]. destruct (is_slash c).
    + now rewrite IH, app_assoc.
    + apply IH.
Qed.

Lemma components_from_plain (acc t : string) :
  has_slash t = false -> components_from acc t = piece (acc ++ t).
Proof.
  revert acc; induction t as [|c t IH]; intros acc H.
  - now rewrite append_empty_r.
  - cbn [has_slash] in H. apply orb_false_iff in H. destruct H as [Hc Ht].
    cbn [components_from]. rewrite Hc, IH by assumption.
    now rewrite append_assoc.
Qed.

Lemma components_plain (t : string) :
  has_slash t = false -> components t = piece t.
Proof. apply components_from_plain. Qed.

Lemma components_name (x : string) :
  valid_name x = true -> components x = [x].
Proof.
  unfold valid_name. intros H. apply andb_true_iff in H. destruct H as [He Hs].
  rewrite components_plain by (now destruct (has_slash x)).
  unfold piece. now destruct (is_empty x).
Qed.

(** After a head that is empty or ends in a separator, the components of
    the rest follow those of the head. *)
Lemma components_append (a b : string) :
  (is_empty a || ends_with_slash a) = true ->
  components (a ++ b) = (components a ++ components b)%list.
Proof.
  intros H. apply orb_true_iff in H. destruct H as [H | H].
  - destruct a; [reflexivity | discriminate].
  - destruct (ends_with_slash_inv a H) as [a' ->].
    unfold components. rewrite append_assoc.
    change ("/" ++ b) with (String slash b).
    change (a' ++ "/") with (a' ++ String slash "").
    rewrite !components_from_slash. cbn. now rewrite app_nil_r.
Qed.

(** The components of [os.path.join(a, b)] are those of [a] and then those
    of [b], unless [b] starts at the root. *)
Lemma components_join (a b : string) :
  startswith "/" b = false ->
  components (join a b) = (components a ++ components b)%list.
Proof.
  intros Hb. unfold join. rewrite Hb.
  destruct (is_empty a || ends_with_slash a) eqn:E.
  - now apply components_append.
  - unfold components. change ("/" ++ b) with (String slash b).
    apply components_from_slash.
Qed.

Lemma components_join_name (a x : string) :
  valid_name x = true -> components (join a x) = (components a ++ [x])%list.
Proof.
  intros H. rewrite components_join, (components_name x H); [reflexivity|].
  apply has_slash_startswith. unfold valid_name in H.
  apply andb_true_iff in H. now destruct (has_slash x).
Qed.

Lemma rstrip_slash_empty (h : string) :
  rstrip_slash h = "" -> forall acc, components_from acc h = piece acc.
Proof.
  induction h as [|c h IH]; intros H acc; [reflexivity|].
  cbn [rstrip_slash] in H. destruct (rstrip_slash h) eqn:E; [|discriminate].
  destruct (is_slash c) eqn:Ec; [|discriminate].
  cbn [components_from]. rewrite Ec, (IH eq_refl). cbn. apply app_nil_r.
Qed.

Lemma components_from_rstrip (h acc : string) :
  components_from acc (rstrip_slash h) = components_from acc h.
Proof.
  revert acc; induction h as [|c h IH]; intros acc; [reflexivity|].
  cbn [rstrip_slash]. destruct (rstrip_slash h) as [|x r] eqn:E.
  - pose proof (rstrip_slash_empty h E) as Hh.
    destruct (is_slash c) eqn:Ec; cbn [components_from]; rewrite Ec, Hh.
    + cbn. now rewrite app_nil_r.
    + reflexivity.
  - rewrite !(components_from_cons _ c). now rewrite !IH.
Qed.

(** [os.path.split] cuts a path between two of its components: those of
    the head, then the tail if there is one. *)
Lemma components_split (p : string) :
  components p
  = (components (fst (split p)) ++ piece (snd (split p)))%list
  /\ has_slash (snd (split p)) = false.
Proof.
  unfold split. destruct (cut_last_slash_spec p) as [Hp [Ht Hh]].
  destruct (cut_last_slash p) as [h t]; simpl in *.
  split; [|assumption].
  rewrite <- (components_plain t Ht).
  rewrite <- Hp at 1. rewrite components_append by assumption. f_equal.
  destruct (negb (is_empty h) && negb (all_slashes h)); [|reflexivity].
  symmetry. apply components_from_rstrip.
Qed.

Lemma is_prefix_refl (p : list string) : is_prefix p p = true.
Proof. induction p as [|x p IH]; simpl; [reflexivity|]. now rewrite String.eqb_refl. Qed.

Lemma is_prefix_iff (p q : list string) :
  is_prefix p q = true <-> exists r, q = (p ++ r)%list.
Proof.
  revert q; induction p as [|x p IH]; intros q; simpl.
  - split; [intros _; now exists q | reflexivity].
  - destruct q as [|y q].
    + split; [discriminate | intros [r Hr]; discriminate].
    + rewrite andb_true_iff, String.eqb_eq, IH. split.
      * intros [-> [r ->]]. now exists r.
      * intros [r Hr]. injection Hr as -> ->. split; [reflexivity | now exists r].
Qed.

Lemma is_prefix_app (p r : list string) : is_prefix p (p ++ r) = true.
Proof. apply is_prefix_iff. now exists r. Qed.

Lemma is_prefix_trans (p q r : list string) :
  is_prefix p q = true -> is_prefix q r = true -> is_prefix p r = true.
Proof.
  rewrite !is_prefix_iff. intros [a ->] [b ->]. exists (a ++ b)%list.
  now rewrite app_assoc.
Qed.

Lemma same_iff (p q : list string) : same p q = true <-> p = q.
Proof.
  revert q; induction p as [|x p IH]; intros [|y q]; simpl;
    try (split; [discriminate | intros H; discriminate]); [tauto|].
  rewrite andb_true_iff, String.eqb_eq, IH. split.
  - now intros [-> ->].
  - intros H. injection H as -> ->. auto.
Qed.

(** A path below [p ++ [x]] is not below [p ++ [y]] when the names differ. *)
Lemma is_prefix_siblings (p q : list string) (x y : string) :
  x <> y -> is_prefix (p ++ [x]) q = true -> is_prefix (p ++ [y]) q = false.
Proof.
  intros Hxy H. apply is_prefix_iff in H. destruct H as [r ->].
  destruct (is_prefix (p ++ [y]) ((p ++ [x]) ++ r)) eqn:E; [|reflexivity].
  apply is_prefix_iff in E. destruct E as [r' E].
  rewrite <- !app_assoc in E. apply app_inv_head in E. simpl in E. congruence.
Qed.

End PathFacts.

(** ** The tree *)

Section TreeFacts.
Import Path Tree.

Lemma entry_get_put_same (x : string) (c : node) (es : list (string * node)) :
  entry_get x (entry_put x c es) = Some c.
Proof.
  induction es as [|[y c0] es IH]; simpl.
  - now rewrite String.eqb_refl.
  - destruct (String.eqb x y) eqn:E; simpl; rewrite E; [reflexivity | exact IH].
Qed.

Lemma entry_get_put_other (x y : string) (c : node) (es : list (string * node)) :
  x <> y -> entry_get y (entry_put x c es) = entry_get y es.
Proof.
  intros Hxy. induction es as [|[z c0] es IH]; simpl.
  - apply String.eqb_neq in Hxy. rewrite String.eqb_sym in Hxy. now rewrite Hxy.
  - destruct (String.eqb x z) eqn:E; simpl.
    + apply String.eqb_eq in E. subst z.
      apply String.eqb_neq in Hxy. rewrite String.eqb_sym in Hxy.
      now rewrite Hxy.
    + now rewrite IH.
Qed.

Lemma entry_get_del_same (x : string) (es : list (string * node)) :
  entry_get x (entry_del x es) = None.
Proof.
  induction es as [|[y c] es IH]; simpl; [reflexivity|].
  destruct (String.eqb x y) eqn:E; simpl; [exact IH | now rewrite E].
Qed.

Lemma entry_get_del_other (x y : string) (es : list (string * node)) :
  x <> y -> entry_get y (entry_del x es) = entry_get y es.
Proof.
  intros Hxy. induction es as [|[z c] es IH]; simpl; [reflexivity|].
  destruct (String.eqb x z) eqn:E; simpl.
  - apply String.eqb_eq in E. subst z.
    apply String.eqb_neq in Hxy. rewrite String.eqb_sym in Hxy.
    now rewrite Hxy.
  - now rewrite IH.
Qed.

Lemma entry_put_put (x : string) (c1 c2 : node) (es : list (string * node)) :
  entry_put x c2 (entry_put x c1 es) = entry_put x c2 es.
Proof.
  induction es as [|[y c] es IH]; simpl.
  - now rewrite String.eqb_refl.
  - destruct (String.eqb x y) eqn:E; simpl; rewrite E; [reflexivity | now rewrite IH].
Qed.

Lemma entry_del_absent (x : string) (es : list (string * node)) :
  entry_get x es = None -> entry_del x es = es.
Proof.
  induction es as [|[y c] es IH]; simpl; [reflexivity|].
  destruct (String.eqb x y); [discriminate | intros H; now rewrite IH].
Qed.

Lemma entry_put_present (x : string) (c : node) (es : list (string * node)) :
  entry_get x es = Some c -> entry_put x c es = es.
Proof.
  induction es as [|[y c0] es IH]; simpl; [discriminate|].
  destruct (String.eqb x y) eqn:E.
  - intros H. injection H as ->. reflexivity.
  - intros H. now rewrite IH.
Qed.

Lemma alike_refl (a : option node) : alike a a.
Proof. destruct a as [[d|es]|]; simpl; auto. Qed.

Lemma alike_trans (a b c : option node) : alike a b -> alike b c -> alike a c.
Proof.
  destruct a as [[x|?]|], b as [[y|?]|], c as [[z|?]|]; simpl; try tauto; congruence.
Qed.

Lemma alike_sym (a b : option node) : alike a b -> alike b a.
Proof.
  destruct a as [[x|?]|], b as [[y|?]|]; simpl; try tauto; congruence.
Qed.

Lemma get_app (n : node) (p q : list string) :
  get n (p ++ q) = match get n p with Some m => get m q | None => None end.
Proof.
  revert n; induction p as [|x p IH]; intros n; simpl; [reflexivity|].
  destruct n as [d|es]; [reflexivity|].
  destruct (entry_get x es); [apply IH | reflexivity].
Qed.

(** What is put at [p] is found at [p]. *)
Lemma get_put_same (mk : bool) (n n' new : node) (p : list string) :
  put mk n p new = Some n' -> get n' p = Some new.
Proof.
  revert n n'; induction p as [|x p IH]; intros n n'; simpl.
  - now intros [= ->].
  - destruct n as [d|es]; [discriminate|].
    destruct (entry_get x es) as [c|].
    + destruct (put mk c p new) as [c'|] eqn:E; [|discriminate].
      intros [= <-]. simpl. rewrite entry_get_put_same. eauto.
    + destruct (match p with [] => true | _ :: _ => mk end); [|discriminate].
      destruct (put mk (Dir []) p new) as [c'|] eqn:E; [|discriminate].
      intros [= <-]. simpl. rewrite entry_get_put_same. eauto.
Qed.

(** A put at [d] leaves what exists outside [d] as it is: a regular file
    keeps its bytes and a directory stays one. *)
Lemma alike_put (mk : bool) (n n' new : node) (d p : list string) :
  put mk n d new = Some n' ->
  is_prefix d p = false ->
  get n p <> None ->
  alike (get n p) (get n' p).
Proof.
  revert n n' p; induction d as [|x d IH]; intros n n' p; simpl.
  - discriminate.
  - destruct n as [dat|es]; [discriminate|].
    intros Hput Hpre Hget. destruct p as [|y p].
    + simpl.
      destruct (entry_get x es) as [c|].
      * destruct (put mk c d new); [|discriminate]. now injection Hput as <-.
      * destruct (match d with [] => true | _ :: _ => mk end); [|discriminate].
        destruct (put mk (Dir []) d new); [|discriminate].
        now injection Hput as <-.
    + simpl in Hpre, Hget |- *. destruct (String.eqb x y) eqn:Exy.
      * apply String.eqb_eq in Exy. subst y. simpl in Hpre.
        destruct (entry_get x es) as [c|]; [|congruence].
        destruct (put mk c d new) as [c'|] eqn:E; [|discriminate].
        injection Hput as <-. simpl. rewrite entry_get_put_same. eauto.
      * apply String.eqb_neq in Exy.
        assert (Hn' : exists c', n' = Dir (entry_put x c' es)).
        { destruct (entry_get x es) as [c|].
          - destruct (put mk c d new) as [c'|]; [|discriminate].
            injection Hput as <-. eauto.
          - destruct (match d with [] => true | _ :: _ => mk end); [|discriminate].
            destruct (put mk (Dir []) d new) as [c'|]; [|discriminate].
            injection Hput as <-. eauto. }
        destruct Hn' as [c' ->]. simpl.
        rewrite entry_get_put_other by assumption. apply alike_refl.
Qed.

(** A put that makes no directories also leaves what is missing outside
    [d] missing. *)
Lemma alike_put_plain (n n' new : node) (d p : list string) :
  put false n d new = Some n' ->
  is_prefix d p = false ->
  alike (get n p) (get n' p).
Proof.
  revert n n' p; induction d as [|x d IH]; intros n n' p; simpl.
  - discriminate.
  - destruct n as [dat|es]; [discriminate|].
    intros Hput Hpre. destruct p as [|y p].
    + simpl.
      destruct (entry_get x es) as [c|].
      * destruct (put false c d new); [|discriminate]. now injection Hput as <-.
      * destruct d; [|discriminate]. simpl in Hput. now injection Hput as <-.
    + simpl in Hpre |- *. destruct (String.eqb x y) eqn:Exy.
      * apply String.eqb_eq in Exy. subst y. simpl in Hpre.
        destruct (entry_get x es) as [c|].
        -- destruct (put false c d new) as [c'|] eqn:E; [|discriminate].
           injection Hput as <-. simpl. rewrite entry_get_put_same. eauto.
        -- destruct d; [discriminate Hpre | discriminate Hput].
      * apply String.eqb_neq in Exy.
        assert (Hn' : exists c', n' = Dir (entry_put x c' es)).
        { destruct (entry_get x es) as [c|].
          - destruct (put false c d new) as [c'|]; [|discriminate].
            injection Hput as <-. eauto.
          - destruct d; [|discriminate]. simpl in Hput.
            injection Hput as <-. eauto. }
        destruct Hn' as [c' ->]. simpl.
        rewrite entry_get_put_other by assumption. apply alike_refl.
Qed.

(** Unlinking [s] leaves everything outside [s] as it is. *)
Lemma alike_del (n : node) (s p : list string) :
  is_prefix s p = false -> alike (get n p) (get (del n s) p).
Proof.
  revert n p; induction s as [|x s IH]; intros n p; simpl.
  - discriminate.
  - intros Hpre. destruct n as [dat|es]; [apply alike_refl|].
    destruct p as [|y p].
    + simpl. destruct s; [exact I|]. now destruct (entry_get x es).
    + simpl in Hpre. destruct (String.eqb x y) eqn:Exy.
      * apply String.eqb_eq in Exy. subst y. simpl in Hpre.
        destruct s as [|x' s]; [discriminate|].
        simpl get at 1. destruct (entry_get x es) as [c|] eqn:Ec.
        -- simpl get. rewrite entry_get_put_same. now apply IH.
        -- simpl get. rewrite Ec. exact I.
      * apply String.eqb_neq in Exy. destruct s as [|x' s].
        -- simpl. rewrite entry_get_del_other by assumption. apply alike_refl.
        -- destruct (entry_get x es) as [c|] eqn:Ec; [|apply alike_refl].
           simpl. rewrite entry_get_put_other by assumption. apply alike_refl.
Qed.

(** After the unlinking of [s] nothing is found at [s] or below it. *)
Lemma get_del_gone (n : node) (s p : list string) :
  s <> [] -> is_prefix s p = true -> get (del n s) p = None.
Proof.
  revert n p; induction s as [|x s IH]; intros n p Hs; [congruence|].
  destruct p as [|y p]; [discriminate|]. simpl is_prefix.
  intros H. apply andb_true_iff in H. destruct H as [Exy Hpre].
  apply String.eqb_eq in Exy. subst y.
  destruct n as [dat|es]; [reflexivity|].
  destruct s as [|x' s].
  - simpl. now rewrite entry_get_del_same.
  - simpl del. destruct (entry_get x es) as [c|] eqn:Ec.
    + simpl get. rewrite entry_get_put_same. apply IH; [discriminate | assumption].
    + simpl get. now rewrite Ec.
Qed.

End TreeFacts.

(** ** The file system calls *)

Section OsFacts.
Import Path Tree Os.

Lemma exists_resolve (t : node) (p : string) :
  exists_ t p = true <-> resolve t p <> None.
Proof. unfold exists_. destruct (resolve t p); split; congruence. Qed.

Lemma isdir_exists (t : node) (p : string) :
  isdir t p = true -> exists_ t p = true.
Proof. unfold isdir, exists_. now destruct (resolve t p) as [[?|?]|]. Qed.

Lemma isfile_exists (t : node) (p : string) :
  isfile t p = true -> exists_ t p = true.
Proof. unfold isfile, exists_. now destruct (resolve t p) as [[?|?]|]. Qed.

Lemma read_isfile (t : node) (p data : string) :
  read t p = Some data -> isfile t p = true.
Proof. unfold read, isfile. now destruct (resolve t p) as [[?|?]|]. Qed.

Lemma resolve_components (t : node) (p : string) (n : node) :
  resolve t p = Some n -> get t (components p) = Some n.
Proof. unfold resolve. now destruct (Str.is_empty p). Qed.

Lemma resolve_get (t : node) (p : string) :
  components p <> [] -> resolve t p = get t (components p).
Proof. unfold resolve. destruct p; [now intros [] | reflexivity]. Qed.

(** A successful [write_file] is one put of a regular file. *)
Lemma write_file_ok (p data : string) (t t' : node) :
  write_file p data t = (t', Ok tt) ->
  components p <> []
  /\ put false t (components p) (File data) = Some t'.
Proof.
  unfold write_file. destruct (components p) as [|x d] eqn:Ed; [discriminate|].
  destruct (get t (x :: d)) as [[dat|es]|];
    try discriminate;
    (destruct (put false t (x :: d) (File data)) as [t1|]; [|discriminate]);
    intros [= <-]; split; congruence.
Qed.

Lemma write_file_outcome (p data : string) (t t' : node) (r : outcome unit) :
  write_file p data t = (t', r) ->
  r = Ok tt \/ (r = Raise OSError /\ t' = t).
Proof.
  unfold write_file. destruct (components p) as [|x d].
  - intros [= <- <-]. auto.
  - destruct (get t (x :: d)) as [[dat|es]|];
      try (intros [= <- <-]; now auto);
      (destruct (put false t (x :: d) (File data)); intros [= <- <-]; auto).
Qed.

(** A [rename] ends well or raises, and a raise changes nothing. *)
Lemma rename_outcome (n : node) (s d : string) (t t' : node) (r : outcome unit) :
  rename n s d t = (t', r) ->
  r = Ok tt \/ (t' = t /\ (r = Raise OSError \/ r = Raise ShutilError)).
Proof.
  unfold rename. destruct (components d) as [|x dd]; [intros [= <- <-]; auto|].
  destruct (same (components s) (x :: dd)); [intros [= <- <-]; auto|].
  destruct n as [dat|es], (get t (x :: dd)) as [[dat'|es']|];
    repeat match goal with
      | |- context [if ?b then _ else _] => destruct b
      | |- context [match put ?mk ?a ?b ?c with _ => _ end] =>
          destruct (put mk a b c)
      end; intros [= <- <-]; auto.
Qed.

Lemma move_outcome (s d : string) (t t' : node) (r : outcome unit) :
  move s d t = (t', r) ->
  r = Ok tt \/ (t' = t /\ (r = Raise OSError \/ r = Raise ShutilError)).
Proof.
  unfold move.
  destruct (isdir t d).
  - destruct (samefile t s d); [intros [= <- <-]; auto|].
    destruct (exists_ t (join d (basename s))); [intros [= <- <-]; auto|].
    destruct (resolve t s); [apply rename_outcome | intros [= <- <-]; auto].
  - destruct (resolve t s); [apply rename_outcome | intros [= <- <-]; auto].
Qed.

(** After a [rename] that ends well the new name exists. *)
Lemma rename_exists (n : node) (s d : string) (t t' : node) :
  get t (components s) = Some n ->
  rename n s d t = (t', Ok tt) ->
  get t' (components d) = Some n /\ components d <> [].
Proof.
  intros Hn. unfold rename. destruct (components d) as [|x dd] eqn:Ed; [discriminate|].
  destruct (same (components s) (x :: dd)) eqn:Es.
  - apply same_iff in Es. intros [= <-]. split; congruence.
  - destruct n as [dat|es], (get t (x :: dd)) as [[dat'|es']|];
      repeat match goal with
        | |- context [if ?b then _ else _] => destruct b
        | |- context [match put ?mk ?a ?b ?c with _ => _ end] =>
            destruct (put mk a b c) eqn:?
        end; try discriminate; intros [= <-];
      (split; [eapply get_put_same; eassumption | discriminate]).
Qed.

Lemma basename_plain (s : string) : Str.has_slash (basename s) = false.
Proof. unfold basename. apply cut_last_slash_spec. Qed.

(** After a [shutil.move] that ends well, [dst] exists: it is the moved
    thing, or the directory that received it. *)
Lemma move_exists (s d : string) (t t' : node) :
  move s d t = (t', Ok tt) -> exists_ t' d = true.
Proof.
  unfold move. destruct (isdir t d) eqn:Hd.
  - destruct (samefile t s d); [intros [= <-]; now apply isdir_exists|].
    destruct (exists_ t (join d (basename s))); [discriminate|].
    destruct (resolve t s) as [n|] eqn:Hs; [|discriminate].
    intros H. apply rename_exists in H; [|now apply resolve_components].
    destruct H as [H _].
    rewrite components_join in H
      by (apply has_slash_startswith, basename_plain).
    rewrite get_app in H.
    apply exists_resolve. unfold resolve.
    assert (Str.is_empty d = false) as ->.
    { unfold isdir, resolve in Hd. now destruct (Str.is_empty d). }
    destruct (get t' (components d)); congruence.
  - destruct (resolve t s) as [n|] eqn:Hs; [|discriminate].
    intros H. apply rename_exists in H; [|now apply resolve_components].
    destruct H as [H Hne]. apply exists_resolve.
    rewrite resolve_get by assumption. congruence.
Qed.

End OsFacts.

(** ** [_download] *)

Section DownloadFacts.
Import Path Tree Os.

Variable server : string -> nat -> response.

(** The world after one more request for [url]. *)
Let asked (url : string) (w : world) : world :=
  {| fs := fs w; requests := url :: requests w; opened := opened w |}.

(** One round of the loop, spelled out. *)
Lemma download_loop_step (fuel : nat) (url fullname : string) (cnt : Z) (w : world) :
  download_loop server (S fuel) url fullname cnt w =
  if exists_ (fs w) fullname then (w, Ok tt)
  else if (cnt <? DOWNLOAD_RETRY_LIMIT)%Z then
    let req := server url (length (requests w)) in
    if negb (status_code req =? 200)%Z
    then (asked url w, Raise (UrlError url (status_code req)))
    else
      match write_file (fullname ++ "_tmp") (written req) (fs w) with
      | (t2, Ok _) =>
          match move (fullname ++ "_tmp") fullname t2 with
          | (t3, Ok _) =>
              download_loop server fuel url fullname (cnt + 1)
                (with_fs (asked url w) t3)
          | (t3, Raise e) => (with_fs (asked url w) t3, Raise e)
          | (t3, Diverge) => (with_fs (asked url w) t3, Diverge)
          end
      | (t2, Raise e) => (with_fs (asked url w) t2, Raise e)
      | (t2, Diverge) => (with_fs (asked url w) t2, Diverge)
      end
  else (w, Raise (RetryError url DOWNLOAD_RETRY_LIMIT)).
Proof.
  cbn [download_loop]. destruct (exists_ (fs w) fullname); [reflexivity|].
  destruct (cnt <? DOWNLOAD_RETRY_LIMIT)%Z; [|reflexivity].
  unfold bind, fetch_to_tmp, http_get, bind, raise, lift. cbn [fs requests opened].
  fold (asked url w).
  destruct (negb (status_code (server url (length (requests w))) =? 200)%Z);
    [reflexivity|].
  cbn [fs asked].
  destruct (write_file _ _ (fs w)) as [t2 [[]|e|]]; try reflexivity.
  cbn [fs with_fs].
  destruct (move _ _ t2) as [t3 [[]|e|]]; reflexivity.
Qed.

(** The loop leaves well only with the file in place. *)
Lemma download_loop_ok (fuel : nat) (url fullname : string) (cnt : Z) (w w' : world) :
  download_loop server fuel url fullname cnt w = (w', Ok tt) ->
  exists_ (fs w') fullname = true.
Proof.
  revert cnt w; induction fuel as [|fuel IH]; intros cnt w; [discriminate|].
  rewrite download_loop_step.
  destruct (exists_ (fs w) fullname) eqn:E; [now intros [= <-]|].
  destruct (cnt <? DOWNLOAD_RETRY_LIMIT)%Z; [|discriminate].
  cbv zeta. destruct (negb _); [discriminate|].
  destruct (write_file _ _ _) as [t2 [[]|e|]]; try discriminate.
  destruct (move _ _ t2) as [t3 [[]|e|]]; try discriminate.
  apply IH.
Qed.

(** With the file in place the loop does nothing. *)
Lemma download_loop_present (fuel : nat) (url fullname : string) (cnt : Z) (w : world) :
  exists_ (fs w) fullname = true ->
  download_loop server (S fuel) url fullname cnt w = (w, Ok tt).
Proof. intros H. now rewrite download_loop_step, H. Qed.

(** What a round of the loop can come to, when the file is missing and
    the counter is below the limit: [UrlError] on a status other than 200;
    on 200 an error of the file system, or the file in place and the loop
    left. *)
Lemma download_loop_round (fuel : nat) (url fullname : string) (cnt : Z)
      (w w' : world) (r : outcome unit) :
  exists_ (fs w) fullname = false ->
  (cnt < DOWNLOAD_RETRY_LIMIT)%Z ->
  download_loop server (S (S fuel)) url fullname cnt w = (w', r) ->
  let req := server url (length (requests w)) in
  requests w' = url :: requests w /\ opened w' = opened w /\
  ((status_code req <> 200%Z /\ fs w' = fs w
    /\ r = Raise (UrlError url (status_code req)))
   \/ (status_code req = 200%Z
       /\ (r = Raise OSError \/ r = Raise ShutilError))
   \/ (status_code req = 200%Z /\ r = Ok tt
       /\ exists t2,
            write_file (fullname ++ "_tmp") (written req) (fs w) = (t2, Ok tt)
            /\ move (fullname ++ "_tmp") fullname t2 = (fs w', Ok tt))).
Proof.
  intros Hex Hcnt. rewrite download_loop_step, Hex.
  apply Z.ltb_lt in Hcnt. rewrite Hcnt. cbv zeta.
  destruct (status_code (server url (length (requests w))) =? 200)%Z eqn:Est;
    cbn [negb].
  - apply Z.eqb_eq in Est.
    destruct (write_file _ _ (fs w)) as [t2 [[]|e|]] eqn:Ew.
    + destruct (move _ _ t2) as [t3 [[]|e|]] eqn:Em.
      * rewrite download_loop_present
          by (cbn [fs with_fs]; eapply move_exists; eassumption).
        intros [= <- <-]. cbn. repeat split. right. right.
        repeat split; [assumption|]. exists t2. now split.
      * intros [= <- <-]. cbn. repeat split. right. left.
        split; [assumption|].
        apply move_outcome in Em. destruct Em as [Em | [_ [Em | Em]]];
          [discriminate | left | right]; congruence.
      * apply move_outcome in Em.
        destruct Em as [Em | [_ [Em | Em]]]; discriminate.
    + intros [= <- <-]. cbn. repeat split. right. left.
      split; [assumption|].
      apply write_file_outcome in Ew. destruct Ew as [Ew | [Ew _]];
        [discriminate | left; congruence].
    + apply write_file_outcome in Ew. destruct Ew as [Ew | [Ew _]]; discriminate.
  - apply Z.eqb_neq in Est. intros [= <- <-]. cbn. repeat split. left.
    repeat split. assumption.
Qed.

(** [_download], spelled out: the directory, the loop, the path. *)
Lemma download_unfold (url path : string) (w : world) :
  _download server url path w =
  match (if negb (exists_ (fs w) path) then lift (makedirs path) w
         else (w, Ok tt)) with
  | (w1, Ok _) =>
      match download_loop server 4 url (join path (snd (split url))) 0 w1 with
      | (w2, Ok _) => (w2, Ok (join path (snd (split url))))
      | (w2, Raise e) => (w2, Raise e)
      | (w2, Diverge) => (w2, Diverge)
      end
  | (w1, Raise e) => (w1, Raise e)
  | (w1, Diverge) => (w1, Diverge)
  end.
Proof. reflexivity. Qed.

(** The first statement of [_download]: afterwards [path] exists, or
    [os.makedirs] has raised. *)
Lemma download_ensure (path : string) (w w1 : world) (r : outcome unit) :
  (if negb (exists_ (fs w) path) then lift (makedirs path) w else (w, Ok tt))
  = (w1, r) ->
  requests w1 = requests w /\ opened w1 = opened w /\
  ((r = Ok tt /\ exists_ (fs w1) path = true)
   \/ (r = Raise OSError /\ w1 = w)).
Proof.
  destruct (exists_ (fs w) path) eqn:E; cbn [negb].
  - intros [= <- <-]. auto.
  - unfold lift, makedirs. destruct (components path) as [|x d] eqn:Ed.
    + intros [= <- <-]. destruct w; cbn. auto 6.
    + destruct (get (fs w) (x :: d)).
      * intros [= <- <-]. destruct w; cbn. auto 6.
      * destruct (put true (fs w) (x :: d) (Dir [])) as [t|] eqn:Ep.
        -- intros [= <- <-]. cbn. repeat split. left. split; [reflexivity|].
           apply exists_resolve. rewrite resolve_get by congruence.
           rewrite Ed. erewrite get_put_same by eassumption. discriminate.
        -- intros [= <- <-]. destruct w; cbn. auto 6.
Qed.

(** Where the file exists, the directory it was joined to exists. *)
Lemma exists_join (t : node) (path fname : string) :
  Str.has_slash fname = false ->
  path <> "" ->
  exists_ t (join path fname) = true -> exists_ t path = true.
Proof.
  intros Hf Hp H. apply exists_resolve in H. apply exists_resolve.
  destruct (resolve t (join path fname)) as [n|] eqn:E; [|congruence].
  apply resolve_components in E.
  rewrite components_join, get_app in E by now apply has_slash_startswith.
  unfold resolve. destruct path; [congruence|]. cbn [Str.is_empty].
  destruct (get t (components (String a path))); congruence.
Qed.

End DownloadFacts.

Section DownloadClaims.
Import Path Os.

Variable server : string -> nat -> response.

(** C9.  Whatever the server answers and whatever the file system holds,
    [_download] never raises [RetryError] and asks the server at most
    once: a status other than 200 raises [UrlError] out of the loop, and on
    200 the move puts the file in place, which ends the loop (or a file
    system call raises).  The loop never runs out of rounds either. *)
Theorem download_never_RetryError (url path : string) (w : world) :
  let res := _download server url path w in
  (forall u n, snd res <> Raise (RetryError u n))
  /\ snd res <> Diverge
  /\ (length (requests (fst res)) <= S (length (requests w)))%nat
  /\ (snd res = Ok (join path (snd (split url)))
      \/ (exists code, code <> 200%Z /\ snd res = Raise (UrlError url code))
      \/ snd res = Raise OSError
      \/ snd res = Raise ShutilError).
Proof.
  cbv zeta. rewrite download_unfold.
  destruct (if negb (exists_ (fs w) path) then _ else _) as [w1 r1] eqn:E1.
  apply download_ensure in E1. destruct E1 as [Hreq [_ [[-> Hp] | [-> ->]]]].
  2:{ cbn. repeat split; try discriminate; auto. }
  destruct (exists_ (fs w1) (join path (snd (split url)))) eqn:Ef.
  - rewrite download_loop_present by assumption. cbn.
    rewrite Hreq. repeat split; try discriminate; auto.
  - destruct (download_loop server 4 url _ 0 w1) as [w2 r2] eqn:E2.
    apply download_loop_round in E2; [|assumption|reflexivity].
    cbv zeta in E2. destruct E2 as [Hreq2 [_ Hcases]].
    assert (Hlen : (length (requests w2) <= S (length (requests w)))%nat)
      by (rewrite Hreq2, Hreq; cbn; lia).
    destruct Hcases as [[Hst [_ ->]] | [[_ [-> | ->]] | [_ [-> _]]]]; cbn;
      repeat split; try discriminate; try assumption; eauto 6.
Qed.

(** C1, as the code has it.  When every response has a status other than
    200, the destination directory exists and the file is not in it,
    [_download] asks the server exactly once and raises [UrlError] with the
    URL and the status of that response: the exception leaves the loop, the
    file system is as before, and [RetryError] is not raised. *)
Theorem download_non200_raises_UrlError (url path : string) (w : world) :
  (forall n, status_code (server url n) <> 200%Z) ->
  exists_ (fs w) path = true ->
  exists_ (fs w) (join path (snd (split url))) = false ->
  _download server url path w
  = ({| fs := fs w; requests := url :: requests w; opened := opened w |},
     Raise (UrlError url (status_code (server url (length (requests w)))))).
Proof.
  intros Hst Hp Hf. rewrite download_unfold, Hp. cbn [negb].
  rewrite download_loop_step, Hf. cbn [Z.ltb Z.compare DOWNLOAD_RETRY_LIMIT].
  cbv zeta. specialize (Hst (length (requests w))).
  apply Z.eqb_neq in Hst. now rewrite Hst.
Qed.

(** C6.  A second [_download] after one that ended well asks the server
    nothing, changes nothing and returns the same path. *)
Theorem download_twice (url path : string) (w w' : world) (fullname : string) :
  _download server url path w = (w', Ok fullname) ->
  _download server url path w' = (w', Ok fullname).
Proof.
  rewrite !download_unfold.
  destruct (if negb (exists_ (fs w) path) then _ else _) as [w1 r1] eqn:E1.
  assert (Hne : r1 = Ok tt -> path <> "").
  { intros -> ->. cbn in E1. discriminate. }
  apply download_ensure in E1. destruct E1 as [_ [_ [[-> Hp] | [-> ->]]]];
    [|discriminate].
  destruct (download_loop server 4 url _ 0 w1) as [w2 r2] eqn:E2.
  destruct r2 as [[]|e|]; try discriminate. intros [= <- <-].
  apply download_loop_ok in E2.
  assert (Hp2 : exists_ (fs w2) path = true).
  { eapply exists_join; [apply components_split | now apply Hne | eassumption]. }
  rewrite Hp2. cbn [negb]. now rewrite download_loop_present.
Qed.

End DownloadClaims.

(** At [/tmp/models] with a server that answers 404 to everything, the one
    request raises [UrlError]. *)
Lemma download_non200_raises_UrlError_witness :
  _download (server_const 404 None []) (_get_url "ResNet50") "/tmp/models"
    (world_of fs_models)
  = ({| fs := fs_models; requests := [_get_url "ResNet50"]; opened := [] |},
     Raise (UrlError (_get_url "ResNet50") 404)).
Proof.
  apply (download_non200_raises_UrlError (server_const 404 None [])
           (_get_url "ResNet50") "/tmp/models" (world_of fs_models)).
  - intros n. cbn. lia.
  - reflexivity.
  - reflexivity.
Defined.

(** C1 as stated fails: the server that answers 404 to everything is asked
    once, not three times, and the exception is [UrlError], not
    [RetryError]. *)
Lemma download_non200_three_attempts_counterexample :
  let res := _download (server_const 404 None []) (_get_url "ResNet50")
               "/tmp/models" (world_of fs_models) in
  length (requests (fst res)) = 1%nat
  /\ snd res = Raise (UrlError (_get_url "ResNet50") 404)
  /\ ~ (length (requests (fst res)) = 3%nat
        /\ snd res = Raise (RetryError (_get_url "ResNet50") 3)).
Proof.
  cbv zeta. split; [|split].
  - vm_compute. reflexivity.
  - vm_compute. reflexivity.
  - intros [H _]. vm_compute in H. discriminate.
Qed.

(** The download of the ResNet50 archive into [/tmp/models], twice. *)
Lemma download_twice_witness :
  let srv := server_const 200 (Some 5%Z) ["he"; "llo"] in
  let w1 := fst (_download srv (_get_url "ResNet50") "/tmp/models"
                   (world_of fs_models)) in
  _download srv (_get_url "ResNet50") "/tmp/models" w1
  = (w1, Ok "/tmp/models/ResNet50_pretrained.tar").
Proof.
  cbv zeta.
  apply (download_twice (server_const 200 (Some 5%Z) ["he"; "llo"])
           (_get_url "ResNet50") "/tmp/models" (world_of fs_models)).
  vm_compute. reflexivity.
Defined.

(** ** More on the tree: puts and unlinkings at one place *)

Section TreeFacts2.
Import Path Tree.

Lemma entry_del_put (x : string) (c : node) (es : list (string * node)) :
  entry_del x (entry_put x c es) = entry_del x es.
Proof.
  induction es as [|[y c0] es IH]; simpl.
  - now rewrite String.eqb_refl.
  - destruct (String.eqb x y) eqn:E; simpl; rewrite E; [reflexivity | now rewrite IH].
Qed.

Lemma del_below (es : list (string * node)) (x y : string) (p : list string) :
  del (Dir es) (x :: y :: p)
  = match entry_get x es with
    | Some c => Dir (entry_put x (del c (y :: p)) es)
    | None => Dir es
    end.
Proof. reflexivity. Qed.

(** A second put at [p] forgets the first. *)
Lemma put_put (mk : bool) (n n1 a b : node) (p : list string) :
  put mk n p a = Some n1 -> put mk n1 p b = put mk n p b.
Proof.
  revert n n1; induction p as [|x p IH]; intros n n1; simpl; [reflexivity|].
  destruct n as [dat|es]; [discriminate|].
  destruct (entry_get x es) as [c|] eqn:Ec.
  - destruct (put mk c p a) as [c1|] eqn:E1; [|discriminate].
    intros [= <-]. rewrite entry_get_put_same, (IH _ _ E1).
    destruct (put mk c p b); [now rewrite entry_put_put | reflexivity].
  - destruct (match p with [] => true | _ :: _ => mk end); [|discriminate].
    destruct (put mk (Dir []) p a) as [c1|] eqn:E1; [|discriminate].
    intros [= <-]. rewrite entry_get_put_same, (IH _ _ E1).
    destruct (put mk (Dir []) p b); [now rewrite entry_put_put | reflexivity].
Qed.

(** Whether a put goes through does not depend on what is put. *)
Lemma put_defined (mk : bool) (n n1 a b : node) (p : list string) :
  put mk n p a = Some n1 -> exists n2, put mk n p b = Some n2.
Proof.
  revert n n1; induction p as [|x p IH]; intros n n1; simpl; [eauto|].
  destruct n as [dat|es]; [discriminate|].
  destruct (entry_get x es) as [c|].
  - destruct (put mk c p a) as [c1|] eqn:E1; [|discriminate].
    intros _. destruct (IH _ _ E1) as [c2 ->]. eauto.
  - destruct (match p with [] => true | _ :: _ => mk end); [|discriminate].
    destruct (put mk (Dir []) p a) as [c1|] eqn:E1; [|discriminate].
    intros _. destruct (IH _ _ E1) as [c2 ->]. eauto.
Qed.

(** Unlinking what a put without new directories has just put is
    unlinking what was there before. *)
Lemma del_put (n n1 a : node) (p : list string) :
  put false n p a = Some n1 -> p <> [] -> del n1 p = del n p.
Proof.
  revert n n1; induction p as [|x p IH]; intros n n1 Hput Hp; [congruence|].
  simpl in Hput. destruct n as [dat|es]; [discriminate|].
  destruct p as [|y p].
  - assert (n1 = Dir (entry_put x a es)) as ->.
    { destruct (entry_get x es); simpl in Hput; congruence. }
    simpl. now rewrite entry_del_put.
  - destruct (entry_get x es) as [c|] eqn:Ec; [|discriminate].
    destruct (put false c (y :: p) a) as [c1|] eqn:E1; [|discriminate].
    injection Hput as <-. rewrite !del_below, entry_get_put_same, Ec.
    rewrite (IH _ _ E1) by discriminate. now rewrite entry_put_put.
Qed.

(** Unlinking what is not there changes nothing. *)
Lemma del_absent (n : node) (p : list string) :
  get n p = None -> del n p = n.
Proof.
  revert n; induction p as [|x p IH]; intros n; simpl; [discriminate|].
  destruct n as [dat|es]; [reflexivity|].
  destruct p as [|y p].
  - destruct (entry_get x es) eqn:Ec; [discriminate|].
    intros _. now rewrite entry_del_absent.
  - destruct (entry_get x es) as [c|] eqn:Ec; [|reflexivity].
    intros H. rewrite (IH _ H). now rewrite entry_put_present.
Qed.

Lemma is_prefix_app_head (p a b : list string) :
  is_prefix (p ++ a) (p ++ b) = is_prefix a b.
Proof.
  induction p as [|x p IH]; simpl; [reflexivity|].
  now rewrite String.eqb_refl.
Qed.

End TreeFacts2.

(** ** The temporary name and the final name *)

Section TmpFacts.
Import Str Path Tree Os.

Lemma length_append (a b : string) :
  String.length (a ++ b) = (String.length a + String.length b)%nat.
Proof. induction a as [|c a IH]; simpl; [reflexivity | now rewrite IH]. Qed.

Lemma append_tmp_neq (s : string) : s ++ "_tmp" <> s.
Proof.
  intros H. apply (f_equal String.length) in H.
  rewrite length_append in H. cbn in H. lia.
Qed.

Lemma join_tmp (path fname : string) :
  has_slash fname = false ->
  join path fname ++ "_tmp" = join path (fname ++ "_tmp").
Proof.
  intros Hf. unfold join.
  rewrite (has_slash_startswith fname Hf).
  rewrite (has_slash_startswith (fname ++ "_tmp"))
    by (rewrite has_slash_append, Hf; reflexivity).
  destruct (is_empty path || ends_with_slash path);
    now rewrite !append_assoc.
Qed.

(** The components of the final name and of the temporary name: they
    differ in the last one. *)
Lemma components_fullname (path fname : string) :
  has_slash fname = false ->
  components (join path fname) = (components path ++ piece fname)%list
  /\ components (join path fname ++ "_tmp")
     = (components path ++ [(fname ++ "_tmp")%string])%list.
Proof.
  intros Hf. split.
  - rewrite components_join by now apply has_slash_startswith.
    now rewrite (components_plain fname Hf).
  - rewrite join_tmp by assumption.
    rewrite components_join
      by (apply has_slash_startswith; rewrite has_slash_append, Hf; reflexivity).
    rewrite (components_plain (fname ++ "_tmp"))
      by (rewrite has_slash_append, Hf; reflexivity).
    unfold piece. now destruct fname.
Qed.

(** Neither the final name nor the directory lies at or below the
    temporary name. *)
Lemma tmp_not_above (path fname : string) :
  has_slash fname = false ->
  is_prefix (components (join path fname ++ "_tmp"))
            (components (join path fname)) = false
  /\ is_prefix (components (join path fname ++ "_tmp")) (components path)
     = false.
Proof.
  intros Hf. destruct (components_fullname path fname Hf) as [-> ->]. split.
  - rewrite is_prefix_app_head. unfold piece.
    destruct (is_empty fname); [reflexivity|]. cbn.
    rewrite andb_true_r. apply String.eqb_neq, append_tmp_neq.
  - rewrite <- (app_nil_r (components path)) at 2.
    now rewrite is_prefix_app_head.
Qed.

(** The final name is not the temporary name or below it either way. *)
Lemma fullname_not_above_tmp (path fname : string) :
  has_slash fname = false ->
  is_empty fname = false ->
  is_prefix (components (join path fname))
            (components (join path fname ++ "_tmp")) = false.
Proof.
  intros Hf He. destruct (components_fullname path fname Hf) as [-> ->].
  rewrite is_prefix_app_head. unfold piece. rewrite He. cbn.
  rewrite andb_true_r. apply String.eqb_neq. intros H. symmetry in H.
  now apply append_tmp_neq in H.
Qed.

(** Look-ups that are alike answer the tests of [os.path] alike. *)
Lemma alike_resolve (t t' : node) (p : string) :
  alike (get t (components p)) (get t' (components p)) ->
  exists_ t' p = exists_ t p /\ isdir t' p = isdir t p
  /\ isfile t' p = isfile t p /\ read t' p = read t p.
Proof.
  unfold exists_, isdir, isfile, read, resolve.
  destruct (is_empty p); [auto|].
  destruct (get t (components p)) as [[x|es]|],
           (get t' (components p)) as [[y|es']|]; simpl; try tauto.
  intros ->. auto.
Qed.

(** Writing a file a second time is writing it once. *)
Lemma write_file_again (p a b : string) (t t1 : node) :
  write_file p a t = (t1, Ok tt) ->
  write_file p b t1 = write_file p b t.
Proof.
  unfold write_file. destruct (components p) as [|x d] eqn:Ed; [discriminate|].
  intros H.
  assert (Hput : put false t (x :: d) (File a) = Some t1).
  { destruct (get t (x :: d)) as [[dat|es]|]; try discriminate;
      destruct (put false t (x :: d) (File a)); congruence. }
  rewrite (get_put_same _ _ _ _ Hput), (put_put _ _ _ (File b) _ Hput).
  destruct (put_defined _ _ _ (File b) _ Hput) as [t2 ->].
  destruct (get t (x :: d)) as [[dat|es]|]; try reflexivity.
  discriminate H.
Qed.

End TmpFacts.

(** ** The temporary file and the move *)

Section PromotionFacts.
Import Str Path Tree Os.

Variable server : string -> nat -> response.

(** An attempt that gets as far as the end of the stream has seen status
    200 and has written the body to the temporary name. *)
Lemma fetch_to_tmp_ok (url tmp : string) (w w1 : world) :
  fetch_to_tmp server url tmp w = (w1, Ok tt) ->
  let req := server url (length (requests w)) in
  status_code req = 200%Z
  /\ exists t1,
       write_file tmp (written req) (fs w) = (t1, Ok tt)
       /\ w1 = {| fs := t1; requests := url :: requests w; opened := opened w |}.
Proof.
  unfold fetch_to_tmp, bind, http_get, raise, lift. cbn [fs requests opened].
  destruct (status_code (server url (length (requests w))) =? 200)%Z eqn:Est;
    cbn [negb]; [|discriminate].
  apply Z.eqb_eq in Est. cbn [fs].
  destruct (write_file _ _ (fs w)) as [t1 r] eqn:Ew.
  intros [= <- ->]. cbv zeta. split; [assumption|]. now exists t1.
Qed.

(** With the directory there and the file missing, the URL has a file name. *)
Lemma fname_not_empty (t : node) (path fname : string) :
  has_slash fname = false ->
  exists_ t path = true ->
  exists_ t (join path fname) = false ->
  is_empty fname = false.
Proof.
  intros Hf Hp Hn. destruct fname; [|reflexivity]. exfalso.
  assert (E : exists_ t (join path "") = exists_ t path).
  { unfold exists_, resolve in *.
    destruct (components_fullname path "" eq_refl) as [-> _].
    cbn [piece is_empty]. rewrite app_nil_r.
    destruct path as [|c path]; [discriminate Hp|].
    unfold join. cbn [startswith].
    now destruct (is_empty (String c path) || ends_with_slash (String c path)). }
  congruence.
Qed.

(** The move of a regular file at the temporary name onto the missing
    final name: unlink the one, put the file at the other. *)
Lemma move_tmp (t : node) (path fname body : string) :
  has_slash fname = false ->
  is_empty fname = false ->
  read t (join path fname ++ "_tmp") = Some body ->
  exists_ t (join path fname) = false ->
  move (join path fname ++ "_tmp") (join path fname) t =
  match put false (del t (components (join path fname ++ "_tmp")))
          (components (join path fname)) (File body) with
  | Some t' => (t', Ok tt)
  | None => (t, Raise OSError)
  end.
Proof.
  intros Hf He Hr Hn. unfold move.
  assert (isdir t (join path fname) = false) as ->.
  { unfold isdir. unfold exists_ in Hn.
    now destruct (resolve t (join path fname)). }
  unfold read in Hr.
  destruct (resolve t (join path fname ++ "_tmp")) as [[dat|es]|]; try discriminate.
  injection Hr as ->. unfold rename.
  pose proof (fullname_not_above_tmp path fname Hf He) as Hft.
  destruct (components_fullname path fname Hf) as [EF ET].
  assert (HF : components (join path fname) <> []).
  { rewrite EF. unfold piece. rewrite He. now destruct (components path). }
  destruct (components (join path fname)) as [|x d] eqn:Ed; [congruence|].
  assert (same (components (join path fname ++ "_tmp")) (x :: d) = false) as ->.
  { destruct (same _ _) eqn:Es; [|reflexivity]. apply same_iff in Es.
    rewrite Es, is_prefix_refl in Hft. discriminate. }
  assert (get t (x :: d) = None) as ->.
  { unfold exists_ in Hn. rewrite resolve_get in Hn by congruence.
    rewrite Ed in Hn. now destruct (get t (x :: d)). }
  reflexivity.
Qed.

(** C3.  Where the directory exists and the file is missing, the run of
    [_download] is the attempt streamed to the temporary name, then the
    one move of the temporary name to the final name, then the return of
    the final name, and nothing else.  An attempt that has streamed the
    whole body has written it to the temporary name and nowhere else, and
    the final name is still missing; it comes to be with the move.  If the
    run stops between the two, a later [_download] does what it would have
    done without the temporary file: the same requests, the same outcome,
    and the same world after it, except that a call the server answers
    with a status other than 200 leaves each file system as it found
    it. *)
Theorem download_interrupted (url path : string) (w w1 : world) :
  let fullname := join path (snd (split url)) in
  let tmp := fullname ++ "_tmp" in
  let body := written (server url (length (requests w))) in
  exists_ (fs w) path = true ->
  exists_ (fs w) fullname = false ->
  fetch_to_tmp server url tmp w = (w1, Ok tt) ->
  _download server url path w
  = (fetch_to_tmp server url tmp ;;; lift (move tmp fullname) ;;;
     ret fullname) w
  /\ _download server url path w
     = (lift (move tmp fullname) ;;; ret fullname) w1
  /\ put false (fs w) (components tmp) (File body) = Some (fs w1)
  /\ read (fs w1) tmp = Some body
  /\ exists_ (fs w1) fullname = false
  /\ (forall t3, move tmp fullname (fs w1) = (t3, Ok tt) ->
                 read t3 fullname = Some body)
  /\ let ra := _download server url path w1 in
     let rb := _download server url path (with_fs w1 (fs w)) in
     snd ra = snd rb
     /\ requests (fst ra) = requests (fst rb)
     /\ opened (fst ra) = opened (fst rb)
     /\ (fst ra = fst rb
         \/ ((exists code, snd ra = Raise (UrlError url code))
             /\ fs (fst ra) = fs w1 /\ fs (fst rb) = fs w)).
Proof.
  cbv zeta. intros Hp Hn Hfetch.
  destruct (components_split url) as [_ Hf].
  set (fname := snd (split url)) in *.
  pose proof (fname_not_empty _ _ _ Hf Hp Hn) as He.
  assert (Hrun : _download server url path w
                 = (fetch_to_tmp server url (join path fname ++ "_tmp") ;;;
                    lift (move (join path fname ++ "_tmp") (join path fname)) ;;;
                    ret (join path fname)) w).
  { rewrite download_unfold, Hp. cbn [negb]. fold fname.
    rewrite download_loop_step, Hn.
    cbn [Z.ltb Z.compare DOWNLOAD_RETRY_LIMIT]. cbv zeta.
    unfold bind, fetch_to_tmp, http_get, bind, raise, lift, ret.
    cbn [fs requests opened].
    destruct (negb (status_code (server url (length (requests w))) =? 200)%Z);
      [reflexivity|].
    cbn [fs].
    destruct (write_file _ _ (fs w)) as [t2 [[]|e|]]; try reflexivity.
    cbn [fs with_fs].
    destruct (move _ _ t2) as [t3 [[]|e|]] eqn:Em; try reflexivity.
    rewrite download_loop_present; [reflexivity|].
    cbn [fs with_fs]. eapply move_exists. eassumption. }
  split; [exact Hrun|].
  split; [rewrite Hrun; unfold bind at 1; now rewrite Hfetch|].
  clear Hrun. apply fetch_to_tmp_ok in Hfetch. cbv zeta in Hfetch.
  destruct Hfetch as [_ [t1 [Hw ->]]]. cbn [fs requests opened with_fs].
  pose proof Hw as Hw0. apply write_file_ok in Hw. destruct Hw as [HT Hput].
  destruct (tmp_not_above path fname Hf) as [HTF HTP].
  pose proof (alike_resolve (fs w) t1 (join path fname)
                (alike_put_plain _ _ _ _ Hput HTF)) as [EF [_ _]].
  pose proof (alike_resolve (fs w) t1 path
                (alike_put_plain _ _ _ _ Hput HTP)) as [EP [_ _]].
  assert (Hread : read t1 (join path fname ++ "_tmp")
                  = Some (written (server url (length (requests w))))).
  { unfold read. rewrite resolve_get by assumption.
    now rewrite (get_put_same _ _ _ _ Hput). }
  split; [assumption|]. split; [assumption|].
  split; [congruence|]. split.
  - intros t3. rewrite (move_tmp _ path fname Hf He Hread) by congruence.
    destruct (put false (del _ _) _ _) as [t'|] eqn:E3; [|discriminate].
    intros [= <-]. unfold read.
    assert (components (join path fname) <> []).
    { destruct (components_fullname path fname Hf) as [-> _].
      unfold piece. rewrite He. now destruct (components path). }
    rewrite resolve_get by assumption.
    now rewrite (get_put_same _ _ _ _ E3).
  - rewrite !download_unfold. cbn [fs requests opened with_fs].
    rewrite EP, Hp. cbn [negb]. fold fname.
    rewrite !download_loop_step. cbn [fs requests opened with_fs].
    rewrite EF, Hn. cbn [Z.ltb Z.compare DOWNLOAD_RETRY_LIMIT]. cbv zeta.
    destruct (negb _).
    + cbn. repeat split. right. repeat split. eauto.
    + rewrite (write_file_again _ _ _ _ Hw0). clear Hw0.
      destruct (write_file _ _ (fs w)) as [t2 [[]|e|]].
      * cbn [with_fs fs requests opened].
        destruct (move _ _ t2) as [t3 [[]|e|]].
        -- cbn [with_fs fs requests opened].
           destruct (download_loop _ _ _ _ _ _) as [w4 [[]|e|]];
             cbn; repeat split; now left.
        -- cbn. repeat split; now left.
        -- cbn. repeat split; now left.
      * cbn. repeat split; now left.
      * cbn. repeat split; now left.
Qed.

End PromotionFacts.

(** The download of the ResNet50 archive into [/tmp/models], stopped
    before the move. *)
Lemma download_interrupted_witness :
  let srv := server_const 200 (Some 5%Z) ["he"; "llo"] in
  let url := _get_url "ResNet50" in
  let tmp := "/tmp/models/ResNet50_pretrained.tar_tmp" in
  let w1 := fst (fetch_to_tmp srv url tmp (world_of fs_models)) in
  _download srv url "/tmp/models" (world_of fs_models)
  = (lift (Os.move tmp "/tmp/models/ResNet50_pretrained.tar") ;;;
     ret "/tmp/models/ResNet50_pretrained.tar") w1
  /\ Os.read (fs w1) tmp = Some "hello"
  /\ Os.exists_ (fs w1) "/tmp/models/ResNet50_pretrained.tar" = false
  /\ snd (_download srv url "/tmp/models" w1)
     = snd (_download srv url "/tmp/models" (with_fs w1 fs_models)).
Proof.
  cbv zeta.
  pose proof (@download_interrupted
                (server_const 200 (Some 5%Z) ["he"; "llo"])
                (_get_url "ResNet50") "/tmp/models" (world_of fs_models)
                (fst (fetch_to_tmp (server_const 200 (Some 5%Z) ["he"; "llo"])
                        (_get_url "ResNet50")
                        "/tmp/models/ResNet50_pretrained.tar_tmp"
                        (world_of fs_models)))
                eq_refl eq_refl eq_refl) as H.
  cbv zeta in H. destruct H as [_ [Hrun [_ [Hr [Hn [_ [He _]]]]]]].
  split; [exact Hrun|]. split; [exact Hr|]. split; [exact Hn | exact He].
Defined.

(** ** [get] without decompression *)

Section GetFacts.
Import Str Path Os.

Variable server : string -> nat -> response.
Variable members : archive -> string -> option (list (string * node)).

(** After [os.makedirs(p)] the directory exists. *)
Lemma makedirs_exists (p : string) (t t' : node) :
  makedirs p t = (t', Ok tt) -> exists_ t' p = true.
Proof.
  unfold makedirs. destruct (components p) as [|x d] eqn:Ed; [discriminate|].
  destruct (Tree.get t (x :: d)); [discriminate|].
  destruct (Tree.put true t (x :: d) (Dir [])) as [t1|] eqn:Ep; [|discriminate].
  intros [= <-]. apply exists_resolve. rewrite resolve_get by congruence.
  rewrite Ed, (get_put_same _ _ _ _ Ep). discriminate.
Qed.

(** What the loop has done when it ends well, with the directory in
    place: nothing, if the file was there; else one request, and the tree
    has lost what was at the temporary name and has the body at the final
    name. *)
Lemma download_loop_effect (url path : string) (w1 w' : world) :
  let fullname := join path (snd (split url)) in
  let tmp := fullname ++ "_tmp" in
  let body := written (server url (length (requests w1))) in
  exists_ (fs w1) path = true ->
  download_loop server 4 url fullname 0 w1 = (w', Ok tt) ->
  opened w' = opened w1
  /\ exists_ (fs w') fullname = true
  /\ ((exists_ (fs w1) fullname = true /\ w' = w1)
      \/ (exists_ (fs w1) fullname = false
          /\ requests w' = url :: requests w1
          /\ Tree.put false (Tree.del (fs w1) (components tmp)) (components fullname)
               (File body) = Some (fs w'))).
Proof.
  cbv zeta. intros Hp Hloop.
  destruct (components_split url) as [_ Hf].
  set (fname := snd (split url)) in *.
  pose proof (download_loop_ok _ _ _ _ _ _ Hloop) as Hex.
  destruct (exists_ (fs w1) (join path fname)) eqn:Hn.
  - rewrite download_loop_present in Hloop by assumption.
    injection Hloop as <-. auto.
  - apply download_loop_round in Hloop; [|assumption|reflexivity].
    cbv zeta in Hloop. destruct Hloop as [Hreq [Hop Hcases]].
    split; [assumption|]. split; [assumption|]. right.
    split; [reflexivity|]. split; [assumption|].
    destruct Hcases as [[_ [_ H]] | [[_ [H | H]] | [_ [_ [t2 [Hw Hm]]]]]];
      try discriminate.
    pose proof (fname_not_empty _ _ _ Hf Hp Hn) as He.
    apply write_file_ok in Hw. destruct Hw as [HT Hput].
    destruct (tmp_not_above path fname Hf) as [HTF _].
    pose proof (alike_resolve (fs w1) t2 (join path fname)
                  (alike_put_plain _ _ _ _ Hput HTF)) as [EF _].
    rewrite (@move_tmp t2 path fname
               (written (server url (length (requests w1)))) Hf He) in Hm.
    + rewrite (@del_put _ _ _ _ Hput HT) in Hm.
      destruct (Tree.put false (Tree.del (fs w1) _) _ _) as [t3|]; [|discriminate].
      now injection Hm as ->.
    + unfold read. rewrite resolve_get by assumption.
      now rewrite (get_put_same _ _ _ _ Hput).
    + congruence.
Qed.

(** C8, as the code has it.  When [get] is called with [decompress=False]
    and ends well, no archive has been opened, and the tree is the one with
    the destination directory in place, changed in at most two names: the
    archive is at the destination under the file name of the URL, and what
    was at that name with [_tmp] appended is gone, since the download
    writes there and moves the file.  Where nothing was at the temporary
    name, the archive is the only change; where the archive was there
    already, nothing changes and the server is not asked. *)
Theorem get_without_decompress (architecture path : string) (w w' : world) :
  let url := _get_url architecture in
  let fullname := join path (snd (split url)) in
  let tmp := fullname ++ "_tmp" in
  let body := written (server url (length (requests w))) in
  get server members architecture path false w = (w', Ok tt) ->
  opened w' = opened w
  /\ exists_ (fs w') fullname = true
  /\ exists t1,
       ((exists_ (fs w) path = true /\ t1 = fs w)
        \/ (exists_ (fs w) path = false /\ makedirs path (fs w) = (t1, Ok tt)))
       /\ ((exists_ t1 fullname = true
            /\ fs w' = t1 /\ requests w' = requests w)
           \/ (exists_ t1 fullname = false
               /\ requests w' = url :: requests w
               /\ Tree.put false (Tree.del t1 (components tmp)) (components fullname)
                    (File body) = Some (fs w')
               /\ (Tree.get t1 (components tmp) = None ->
                   Tree.put false t1 (components fullname) (File body)
                   = Some (fs w')))).
Proof.
  cbv zeta. unfold get, bind, ret.
  destruct (_download server (_get_url architecture) path w) as [w2 r2] eqn:Ed.
  destruct r2 as [fullname'|e|]; try discriminate. intros [= <-].
  revert Ed. rewrite download_unfold.
  set (url := _get_url architecture).
  set (fname := snd (split url)).
  assert (Hfin : forall w1,
    exists_ (fs w1) path = true ->
    requests w1 = requests w -> opened w1 = opened w ->
    match download_loop server 4 url (join path fname) 0 w1 with
    | (w3, Ok _) => (w3, Ok (join path fname))
    | (w3, Raise e) => (w3, Raise e)
    | (w3, Diverge) => (w3, Diverge)
    end = (w2, Ok fullname') ->
    opened w2 = opened w
    /\ exists_ (fs w2) (join path fname) = true
    /\ ((exists_ (fs w1) (join path fname) = true
         /\ fs w2 = fs w1 /\ requests w2 = requests w)
        \/ (exists_ (fs w1) (join path fname) = false
            /\ requests w2 = url :: requests w
            /\ Tree.put false (Tree.del (fs w1) (components (join path fname ++ "_tmp")))
                 (components (join path fname))
                 (File (written (server url (length (requests w)))))
               = Some (fs w2)
            /\ (Tree.get (fs w1) (components (join path fname ++ "_tmp")) = None ->
                Tree.put false (fs w1) (components (join path fname))
                  (File (written (server url (length (requests w)))))
                = Some (fs w2))))).
  { intros w1 Hp Hreq Hop.
    destruct (download_loop server 4 url (join path fname) 0 w1)
      as [w3 [[]|e|]] eqn:El; try discriminate.
    intros [= -> _].
    apply download_loop_effect in El; [|assumption]. cbv zeta in El.
    fold fname in El. rewrite Hreq, Hop in El.
    destruct El as [Ho [Hex [[Hy ->] | [Hn [Hr Hput]]]]].
    - auto 7.
    - split; [assumption|]. split; [assumption|]. right.
      repeat split; try assumption.
      intros Hnone. now rewrite (del_absent _ _ Hnone) in Hput. }
  destruct (exists_ (fs w) path) eqn:Ep; cbn [negb].
  - intros Ed. apply Hfin in Ed; try reflexivity; [|assumption].
    destruct Ed as [Ho [Hex Hc]]. split; [assumption|]. split; [assumption|].
    exists (fs w). split; [now left | assumption].
  - unfold lift. destruct (makedirs path (fs w)) as [t r] eqn:Em.
    destruct r as [[]|e|]; try discriminate.
    intros Ed. apply Hfin in Ed; try reflexivity;
      [|cbn [fs with_fs]; eapply makedirs_exists; eassumption].
    cbn [fs with_fs] in Ed.
    destruct Ed as [Ho [Hex Hc]]. split; [assumption|]. split; [assumption|].
    exists t. split; [now right | assumption].
Qed.

End GetFacts.

(** [get("ResNet50", "/tmp/models", False)] on an empty [/tmp/models]: the
    one file there is the archive, and nothing was opened. *)
Lemma get_without_decompress_witness :
  let srv := server_const 200 (Some 5%Z) ["he"; "llo"] in
  let w' := fst (get srv two_members "ResNet50" "/tmp/models" false
                   (world_of fs_models)) in
  opened w' = []
  /\ Os.exists_ (fs w') "/tmp/models/ResNet50_pretrained.tar" = true
  /\ fs w' = Dir [("tmp", Dir [("models",
                   Dir [("ResNet50_pretrained.tar", File "hello")])])].
Proof.
  cbv zeta.
  pose proof (@get_without_decompress
                (server_const 200 (Some 5%Z) ["he"; "llo"]) two_members
                "ResNet50" "/tmp/models" (world_of fs_models)
                (fst (get (server_const 200 (Some 5%Z) ["he"; "llo"])
                        two_members "ResNet50" "/tmp/models" false
                        (world_of fs_models)))
                eq_refl) as H.
  cbv zeta in H. destruct H as [Ho [Hex _]].
  split; [exact Ho|]. split; [exact Hex | reflexivity].
Defined.

(** C8 as stated fails where an interrupted download has left its
    temporary file: the call ends well and the archive is there, but the
    temporary file, there before the call, is gone after it, so the tree
    is not the old one with the archive added. *)
Lemma get_without_decompress_counterexample :
  let srv := server_const 200 (Some 5%Z) ["he"; "llo"] in
  let tmp := "/tmp/models/ResNet50_pretrained.tar_tmp" in
  let fullname := "/tmp/models/ResNet50_pretrained.tar" in
  let res := get srv two_members "ResNet50" "/tmp/models" false
               (world_of fs_stale) in
  snd res = Ok tt
  /\ Os.read (fs (fst res)) fullname = Some "hello"
  /\ Os.exists_ fs_stale tmp = true
  /\ Os.exists_ (fs (fst res)) tmp = false
  /\ Tree.put false fs_stale (Path.components fullname) (File "hello")
     <> Some (fs (fst res)).
Proof.
  cbv zeta. repeat split; try (vm_compute; reflexivity).
  vm_compute. discriminate.
Qed.

(** ** What a computation leaves alone *)

Section Frames.
Import Os.

Lemma quiet_ret (A : Type) (a : A) : quiet (ret a).
Proof. intros w w' r [= <- <-]. auto. Qed.

Lemma quiet_lift (A : Type) (m : M node A) : quiet (lift m).
Proof.
  intros w w' r. unfold lift. destruct (m (fs w)) as [t r0].
  intros [= <- <-]. auto.
Qed.

Lemma quiet_bind (A B : Type) (m : M world A) (k : A -> M world B) :
  quiet m -> (forall a, quiet (k a)) -> quiet (bind m k).
Proof.
  intros Hm Hk w w' r. unfold bind.
  destruct (m w) as [w1 [a|e|]] eqn:E; specialize (Hm _ _ _ E).
  - intros H. apply Hk in H. destruct Hm, H. split; congruence.
  - now intros [= <- <-].
  - now intros [= <- <-].
Qed.

Lemma quiet_for_each (A : Type) (xs : list A) (body : A -> M world unit) :
  (forall x, quiet (body x)) -> quiet (for_each xs body).
Proof.
  intros Hb. induction xs as [|x xs IH]; cbn [for_each].
  - apply quiet_ret.
  - apply quiet_bind; [apply Hb | intros _; exact IH].
Qed.

Lemma io_only_ret (S A : Type) (a : A) : io_only (@ret S A a).
Proof. intros s s' e. discriminate. Qed.

Lemma io_only_bind (S A B : Type) (m : M S A) (k : A -> M S B) :
  io_only m -> (forall a, io_only (k a)) -> io_only (bind m k).
Proof.
  intros Hm Hk s s' e. unfold bind.
  destruct (m s) as [s1 [a|e1|]] eqn:E.
  - apply Hk.
  - intros [= <- <-]. eapply Hm; eassumption.
  - discriminate.
Qed.

Lemma io_only_for_each (S A : Type) (xs : list A) (body : A -> M S unit) :
  (forall x, io_only (body x)) -> io_only (for_each xs body).
Proof.
  intros Hb. induction xs as [|x xs IH]; cbn [for_each].
  - apply io_only_ret.
  - apply io_only_bind; [apply Hb | intros _; exact IH].
Qed.

Lemma io_only_lift (A : Type) (m : M node A) : io_only m -> io_only (lift m).
Proof.
  intros Hm w w' e. unfold lift. destruct (m (fs w)) as [t r] eqn:E.
  intros [= <- ->]. eapply Hm; eassumption.
Qed.

Lemma io_only_move (s d : string) : io_only (move s d).
Proof.
  intros t t' e H. apply move_outcome in H.
  destruct H as [H | [_ [H | H]]]; [discriminate | |]; injection H as ->; auto.
Qed.

Lemma io_only_listdir (p : string) : io_only (listdir p).
Proof.
  intros t t' e. unfold listdir.
  destruct (resolve t p) as [[dat|es]|]; intros [= <- <-]; auto.
Qed.

Lemma io_only_rmtree (p : string) : io_only (rmtree p).
Proof.
  intros t t' e. unfold rmtree.
  destruct (Path.components p), (resolve t p) as [[dat|es]|];
    intros [= <- <-]; auto.
Qed.

Lemma io_only_remove (p : string) : io_only (remove p).
Proof.
  intros t t' e. unfold remove.
  destruct (Path.components p), (resolve t p) as [[dat|es]|];
    intros [= <- <-]; auto.
Qed.

Lemma io_only_makedirs (p : string) : io_only (makedirs p).
Proof.
  intros t t' e. unfold makedirs.
  destruct (Path.components p) as [|x d]; [intros [= <- <-]; auto|].
  destruct (Tree.get t (x :: d)); [intros [= <- <-]; auto|].
  destruct (Tree.put true t (x :: d) (Dir [])); intros [= <- <-]; auto.
Qed.

Lemma io_only_merge (fuel : nat) (src dst : string) :
  io_only (move_and_merge_tree fuel src dst).
Proof.
  revert src dst; induction fuel as [|fuel IH]; intros src dst t t' e;
    cbn [move_and_merge_tree]; [discriminate|].
  destruct (negb (exists_ t dst)); [apply io_only_move|].
  destruct (isfile t src); [apply io_only_move|].
  apply io_only_bind; [apply io_only_listdir|].
  intros names. apply io_only_for_each. intros fp t1 t1' e1.
  unfold merge_entry.
  destruct (isdir t1 (Path.join src fp)).
  - destruct (isdir t1 (Path.join dst fp)); [apply IH | apply io_only_move].
  - destruct (isfile t1 (Path.join src fp) && negb (isfile t1 (Path.join dst fp)));
      [apply io_only_move | discriminate].
Qed.

End Frames.

(** ** [_decompress] *)

Section DecompressFacts.
Import Str Path Os.

Variable members : archive -> string -> option (list (string * node)).

(** A put that needs no new directories is the same with [mk]. *)
Lemma put_with_mk (n n' new : node) (p : list string) :
  Tree.put false n p new = Some n' -> Tree.put true n p new = Some n'.
Proof.
  revert n n'; induction p as [|x p IH]; intros n n'; simpl; [auto|].
  destruct n as [dat|es]; [discriminate|].
  destruct (Tree.entry_get x es) as [c|].
  - destruct (Tree.put false c p new) as [c'|] eqn:E; [|discriminate].
    now rewrite (IH _ _ E).
  - destruct p as [|y p]; [auto | discriminate].
Qed.

Lemma put_present (mk : bool) (es : list (string * node)) (x : string)
      (p : list string) (new c : node) :
  Tree.entry_get x es = Some c ->
  Tree.put mk (Dir es) (x :: p) new
  = match Tree.put mk c p new with
    | Some c' => Some (Dir (Tree.entry_put x c' es))
    | None => None
    end.
Proof. intros H. simpl. now rewrite H. Qed.

(** What has been unlinked can be put again. *)
Lemma put_after_del (n m new : node) (d : list string) :
  Tree.get n d = Some m -> d <> [] ->
  exists n', Tree.put false (Tree.del n d) d new = Some n'.
Proof.
  revert n; induction d as [|x d IH]; intros n Hget Hd; [congruence|].
  simpl in Hget. destruct n as [dat|es]; [discriminate|].
  destruct (Tree.entry_get x es) as [c|] eqn:Ec; [|discriminate].
  destruct d as [|y d].
  - simpl. rewrite entry_get_del_same. eauto.
  - rewrite del_below, Ec.
    rewrite (put_present false _ x (y :: d) new (entry_get_put_same x _ es)).
    destruct (IH c Hget) as [c' Hc']; [discriminate|].
    rewrite Hc'. eauto.
Qed.

Lemma components_staging (fpath : string) :
  components (join fpath "tmp") = (components fpath ++ ["tmp"])%list.
Proof. now apply components_join_name. Qed.

(** The first statement of [_decompress]: a staging directory that is
    there is unlinked and made again, empty; nothing else is touched and
    nothing is raised. *)
Lemma clean_staging (staging : string) (w : world) :
  components staging <> [] ->
  exists t1,
    (if isdir (fs w) staging
     then (lift (rmtree staging) ;;; lift (makedirs staging)) w
     else (w, Ok tt)) = (with_fs w t1, Ok tt)
    /\ ((isdir (fs w) staging = false /\ t1 = fs w)
        \/ (isdir (fs w) staging = true
            /\ Tree.put false (Tree.del (fs w) (components staging))
                 (components staging) (Dir []) = Some t1)).
Proof.
  intros Hd. destruct (isdir (fs w) staging) eqn:Hdir.
  - unfold isdir in Hdir.
    destruct (resolve (fs w) staging) as [[dat|es]|] eqn:Hr; try discriminate.
    pose proof (resolve_components _ _ Hr) as Hg.
    destruct (put_after_del (fs w) (Dir []) Hg Hd) as [t1 Ht1].
    exists t1. split; [|right; now split].
    unfold bind, lift, rmtree, makedirs. rewrite Hr.
    destruct (components staging) as [|x d] eqn:Ed; [congruence|].
    cbn [fs with_fs].
    rewrite get_del_gone by (try discriminate; apply is_prefix_refl).
    now rewrite (put_with_mk _ _ _ Ht1).
  - exists (fs w). split; [|left; now split]. now destruct w.
Qed.

(** [_decompress], spelled out in its three parts. *)
Lemma decompress_unfold (fname : string) (w : world) :
  let fpath := fst (split fname) in
  let fpath_tmp := join fpath "tmp" in
  _decompress members fname w =
  match (if isdir (fs w) fpath_tmp
         then (lift (rmtree fpath_tmp) ;;; lift (makedirs fpath_tmp)) w
         else (w, Ok tt)) with
  | (w1, Ok _) =>
      match (if (find fname "tar" >=? 0)%Z
             then extractall members Tar fname fpath_tmp
             else if (find fname "zip" >=? 0)%Z
                  then extractall members Zip fname fpath_tmp
                  else raise (TypeError fname)) w1 with
      | (w2, Ok _) =>
          ((names <- lift (listdir fpath_tmp) ;;
            for_each names (fun f =>
              lift (_move_and_merge_tree (join fpath_tmp f) (join fpath f)))) ;;;
           lift (rmtree fpath_tmp) ;;;
           lift (remove fname)) w2
      | (w2, Raise e) => (w2, Raise e)
      | (w2, Diverge) => (w2, Diverge)
      end
  | (w1, Raise e) => (w1, Raise e)
  | (w1, Diverge) => (w1, Diverge)
  end.
Proof. reflexivity. Qed.

(** The reader that opens the archive is written down, whatever comes of
    the reading. *)
Lemma extractall_opened (kind : archive) (fname path : string) (w w' : world)
      (r : outcome unit) :
  extractall members kind fname path w = (w', r) ->
  opened w' = (kind, fname) :: opened w /\ requests w' = requests w
  /\ r <> Diverge /\ (forall e, r = Raise e -> e = OSError \/ e = ReadError).
Proof.
  unfold extractall.
  destruct (read (fs w) fname) as [bytes|];
    [|intros [= <- <-]; cbn; repeat split; try discriminate;
      intros e [= <-]; auto].
  destruct (members kind bytes) as [[|m ms]|];
    try (intros [= <- <-]; cbn; repeat split; try discriminate;
         intros e [= <-]; now auto).
  destruct (components path) as [|x d];
    [intros [= <- <-]; cbn; repeat split; try discriminate;
     intros e [= <-]; now auto|].
  destruct (Tree.get (fs w) (x :: d)) as [[dat|es]|];
    try (intros [= <- <-]; cbn; repeat split; try discriminate;
         intros e [= <-]; now auto);
    match goal with
    | |- context [match Tree.put ?mk ?a ?b ?c with _ => _ end] =>
        destruct (Tree.put mk a b c)
    end;
    intros [= <- <-]; cbn; repeat split; try discriminate;
    intros e [= <-]; auto.
Qed.

(** What follows the unpacking: the merges and the clean-up ask nothing,
    open nothing, and raise only errors of the file system. *)
Lemma after_unpack_quiet (fname : string) :
  let fpath := fst (split fname) in
  let fpath_tmp := join fpath "tmp" in
  let rest : M world unit :=
    (names <- lift (listdir fpath_tmp) ;;
     for_each names (fun f =>
       lift (_move_and_merge_tree (join fpath_tmp f) (join fpath f)))) ;;;
    lift (rmtree fpath_tmp) ;;;
    lift (remove fname) in
  quiet rest /\ io_only rest.
Proof.
  cbv zeta. split.
  - repeat (apply quiet_bind; [|intros ?]); try apply quiet_lift.
    apply quiet_for_each. intros f. apply quiet_lift.
  - repeat (apply io_only_bind; [|intros ?]); try apply io_only_lift;
      try apply io_only_listdir; try apply io_only_rmtree;
      try apply io_only_remove.
    apply io_only_for_each. intros f. apply io_only_lift.
    intros t t' e. apply io_only_merge.
Qed.

End DecompressFacts.

Section DecompressClaims.
Import Str Path Os.

Variable members : archive -> string -> option (list (string * node)).

(** The archive, a regular file, is not the staging directory and is not
    in it. *)
Lemma archive_outside_staging (t : node) (fname data : string) :
  read t fname = Some data ->
  isdir t (join (fst (split fname)) "tmp") = true ->
  is_prefix (components (join (fst (split fname)) "tmp")) (components fname)
  = false.
Proof.
  intros Hr Hd. destruct (components_split fname) as [Hc _].
  rewrite components_staging, Hc, is_prefix_app_head.
  unfold piece. destruct (is_empty (snd (split fname))); [reflexivity|].
  cbn [is_prefix]. rewrite andb_true_r. apply String.eqb_neq. intros Heq.
  unfold read in Hr. unfold isdir in Hd.
  destruct (resolve t fname) as [[dat|es]|] eqn:E1; try discriminate.
  destruct (resolve t (join (fst (split fname)) "tmp")) as [[dat'|es']|] eqn:E2;
    try discriminate.
  apply resolve_components in E1, E2.
  rewrite components_staging in E2. rewrite Hc in E1. unfold piece in E1.
  rewrite <- Heq in E1. cbn in E1. congruence.
Qed.

Lemma not_found (fname sub : string) :
  ~ occurs sub fname -> (find fname sub >=? 0)%Z = false.
Proof.
  intros H. destruct (find fname sub >=? 0)%Z eqn:E; [|reflexivity].
  apply find_ge_0_iff in E. contradiction.
Qed.

Lemma staging_not_root (fname : string) :
  components (join (fst (split fname)) "tmp") <> [].
Proof.
  rewrite components_staging. now destruct (components (fst (split fname))).
Qed.

(** A name with neither "tar" nor "zip" in it: the staging directory is
    seen to, then [TypeError] is raised. *)
Lemma decompress_refuses (fname : string) (w : world) :
  ~ occurs "tar" fname ->
  ~ occurs "zip" fname ->
  let staging := join (fst (split fname)) "tmp" in
  exists t1,
    _decompress members fname w = (with_fs w t1, Raise (TypeError fname))
    /\ ((isdir (fs w) staging = false /\ t1 = fs w)
        \/ (isdir (fs w) staging = true
            /\ Tree.put false (Tree.del (fs w) (components staging))
                 (components staging) (Dir []) = Some t1)).
Proof.
  intros Htar Hzip. cbv zeta. rewrite decompress_unfold. cbv zeta.
  destruct (clean_staging (join (fst (split fname)) "tmp") w
              (staging_not_root fname)) as [t1 [-> Hcases]].
  rewrite (not_found Htar), (not_found Hzip).
  exists t1. split; [reflexivity | assumption].
Qed.


(** C2, as the code has it.  When the name of the archive has neither
    "tar" nor "zip" in it, [_decompress] raises [TypeError]; no request
    is made and no archive opened; everything outside the staging
    directory is as it was, so a regular file that is the archive keeps its
    bytes; a staging directory that was there is empty afterwards (it is
    unlinked and made again before the name is looked at), and without one
    the file system is unchanged. *)
Theorem decompress_unsupported (fname : string) (w : world) :
  ~ occurs "tar" fname ->
  ~ occurs "zip" fname ->
  let staging := join (fst (split fname)) "tmp" in
  let res := _decompress members fname w in
  snd res = Raise (TypeError fname)
  /\ requests (fst res) = requests w
  /\ opened (fst res) = opened w
  /\ (forall q, is_prefix (components staging) q = false ->
                Tree.alike (Tree.get (fs w) q) (Tree.get (fs (fst res)) q))
  /\ (forall data, read (fs w) fname = Some data ->
                   read (fs (fst res)) fname = Some data)
  /\ (isdir (fs w) staging = false -> fs (fst res) = fs w)
  /\ (isdir (fs w) staging = true ->
      resolve (fs (fst res)) staging = Some (Dir [])).
Proof.
  intros Htar Hzip. cbv zeta.
  destruct (decompress_refuses w Htar Hzip) as [t1 [-> Hcases]].
  cbn [fst snd fs requests opened with_fs].
  split; [reflexivity|]. split; [reflexivity|]. split; [reflexivity|].
  destruct Hcases as [[Hdir ->] | [Hdir Hput]].
  - split; [intros q _; apply alike_refl|].
    split; [auto|]. split; [auto | congruence].
  - assert (Hframe : forall q,
      is_prefix (components (join (fst (split fname)) "tmp")) q = false ->
      Tree.alike (Tree.get (fs w) q) (Tree.get t1 q)).
    { intros q Hq. eapply alike_trans.
      - apply alike_del. exact Hq.
      - eapply alike_put_plain; eassumption. }
    split; [exact Hframe|]. split; [|split; [congruence|]].
    + intros data Hr.
      pose proof (archive_outside_staging _ _ Hr Hdir) as Hout.
      destruct (alike_resolve (fs w) t1 fname (Hframe _ Hout)) as [_ [_ [_ ->]]].
      exact Hr.
    + intros _. rewrite resolve_get by apply staging_not_root.
      eapply get_put_same. eassumption.
Qed.



End DecompressClaims.

Lemma not_occurs (fname sub : string) :
  (Str.find fname sub >=? 0)%Z = false -> ~ Str.occurs sub fname.
Proof. intros H Ho. apply find_ge_0_iff in Ho. congruence. Qed.

(** [/d/model.bin] with no staging directory beside it: the refusal
    leaves the file system as it is. *)
Lemma decompress_unsupported_witness :
  let w := world_of (Dir [("d", Dir [("model.bin", File "B")])]) in
  let res := _decompress two_members "/d/model.bin" w in
  snd res = Raise (TypeError "/d/model.bin")
  /\ Os.read (fs (fst res)) "/d/model.bin" = Some "B"
  /\ fs (fst res) = fs w.
Proof.
  cbv zeta.
  pose proof (@decompress_unsupported two_members "/d/model.bin"
                (world_of (Dir [("d", Dir [("model.bin", File "B")])]))
                (@not_occurs "/d/model.bin" "tar" eq_refl)
                (@not_occurs "/d/model.bin" "zip" eq_refl)) as H.
  cbv zeta in H. destruct H as [Hr [_ [_ [_ [Hread [Hsame _]]]]]].
  split; [exact Hr|]. split; [apply Hread; reflexivity | apply Hsame; reflexivity].
Defined.

(** C2 as stated fails where a staging directory is there: the call on
    [/d/model.bin] raises [TypeError], and [/d/tmp/old.txt], there before
    the call, is gone after it. *)
Lemma decompress_unsupported_counterexample :
  let res := _decompress two_members "/d/model.bin" (world_of fs_leftover) in
  snd res = Raise (TypeError "/d/model.bin")
  /\ Os.read fs_leftover "/d/tmp/old.txt" = Some "o"
  /\ Os.exists_ (fs (fst res)) "/d/tmp/old.txt" = false
  /\ fs (fst res) <> fs_leftover.
Proof.
  cbv zeta. repeat split; try (vm_compute; reflexivity).
  vm_compute. discriminate.
Qed.




(** ** Well-formed trees *)

Section WfFacts.
Import Str Path Tree.

Lemma wf_cons (y : string) (c : node) (es : list (string * node)) :
  wf (Dir ((y, c) :: es))
  = valid_name y && fresh y es && wf c && wf (Dir es).
Proof. reflexivity. Qed.

Lemma fresh_iff (x : string) (es : list (string * node)) :
  fresh x es = true <-> entry_get x es = None.
Proof.
  induction es as [|[y c] es IH]; simpl; [tauto|].
  destruct (String.eqb x y); simpl; [split; discriminate | exact IH].
Qed.

(** The entries of a well-formed directory: valid names, well-formed
    nodes. *)
Lemma wf_entry (es : list (string * node)) (x : string) (c : node) :
  wf (Dir es) = true -> entry_get x es = Some c ->
  valid_name x = true /\ wf c = true.
Proof.
  induction es as [|[y c0] es IH]; [discriminate|].
  rewrite wf_cons. intros H. apply andb_true_iff in H. destruct H as [H Hes].
  apply andb_true_iff in H. destruct H as [H Hc].
  apply andb_true_iff in H. destruct H as [Hy _].
  simpl. destruct (String.eqb x y) eqn:E.
  - apply String.eqb_eq in E. subst y. intros [= <-]. auto.
  - now apply IH.
Qed.

Lemma entry_get_in (es : list (string * node)) (x : string) :
  In x (map fst es) -> exists c, entry_get x es = Some c.
Proof.
  induction es as [|[y c0] es IH]; simpl; [tauto|].
  intros [-> | H].
  - rewrite String.eqb_refl. eauto.
  - destruct (String.eqb x y); eauto.
Qed.

Lemma wf_nodup (es : list (string * node)) :
  wf (Dir es) = true -> NoDup (map fst es).
Proof.
  induction es as [|[y c0] es IH]; [constructor|].
  rewrite wf_cons. intros H. apply andb_true_iff in H. destruct H as [H Hes].
  apply andb_true_iff in H. destruct H as [H _].
  apply andb_true_iff in H. destruct H as [_ Hf].
  simpl. constructor; [|now apply IH].
  intros Hin. apply entry_get_in in Hin. destruct Hin as [c Hc].
  apply fresh_iff in Hf. congruence.
Qed.

Lemma fresh_entry_put (x y : string) (c : node) (es : list (string * node)) :
  x <> y -> fresh y (entry_put x c es) = fresh y es.
Proof.
  intros Hxy.
  destruct (fresh y es) eqn:E.
  - apply fresh_iff. rewrite entry_get_put_other by assumption.
    now apply fresh_iff.
  - destruct (fresh y (entry_put x c es)) eqn:E'; [|reflexivity].
    apply fresh_iff in E'. rewrite entry_get_put_other in E' by assumption.
    apply fresh_iff in E'. congruence.
Qed.

Lemma fresh_entry_del (x y : string) (es : list (string * node)) :
  fresh y es = true -> fresh y (entry_del x es) = true.
Proof.
  induction es as [|[z c] es IH]; simpl; [auto|].
  intros H. apply andb_true_iff in H. destruct H as [Hz Hes].
  destruct (String.eqb x z); simpl; [auto|]. now rewrite Hz, IH.
Qed.

Lemma wf_entry_put (es : list (string * node)) (x : string) (c : node) :
  wf (Dir es) = true -> valid_name x = true -> wf c = true ->
  wf (Dir (entry_put x c es)) = true.
Proof.
  intros Hes Hx Hc. induction es as [|[y c0] es IH].
  - simpl. now rewrite Hx, Hc.
  - rewrite wf_cons in Hes. apply andb_true_iff in Hes. destruct Hes as [H Hes].
    apply andb_true_iff in H. destruct H as [H Hc0].
    apply andb_true_iff in H. destruct H as [Hy Hf].
    simpl entry_put. destruct (String.eqb x y) eqn:E.
    + rewrite wf_cons. now rewrite Hy, Hf, Hc, Hes.
    + rewrite wf_cons, Hy, Hc0, (IH Hes).
      apply String.eqb_neq in E. now rewrite fresh_entry_put, Hf.
Qed.

Lemma wf_entry_del (es : list (string * node)) (x : string) :
  wf (Dir es) = true -> wf (Dir (entry_del x es)) = true.
Proof.
  induction es as [|[y c0] es IH]; [auto|].
  rewrite wf_cons. intros Hes. apply andb_true_iff in Hes. destruct Hes as [H Hes].
  apply andb_true_iff in H. destruct H as [H Hc0].
  apply andb_true_iff in H. destruct H as [Hy Hf].
  cbn [entry_del]. destruct (String.eqb x y); [now apply IH|].
  now rewrite wf_cons, Hy, Hc0, (IH Hes), fresh_entry_del.
Qed.

(** What is found in a well-formed tree is well-formed. *)
Lemma wf_get (n m : node) (p : list string) :
  wf n = true -> get n p = Some m -> wf m = true.
Proof.
  revert n; induction p as [|x p IH]; intros n Hn; simpl.
  - now intros [= <-].
  - destruct n as [dat|es]; [discriminate|].
    destruct (entry_get x es) as [c|] eqn:Ec; [|discriminate].
    apply IH. eapply wf_entry; eassumption.
Qed.

Lemma wf_del (n : node) (p : list string) :
  wf n = true -> wf (del n p) = true.
Proof.
  revert n; induction p as [|x p IH]; intros n Hn; [assumption|].
  destruct n as [dat|es]; [assumption|].
  destruct p as [|y p].
  - simpl. now apply wf_entry_del.
  - rewrite del_below. destruct (entry_get x es) as [c|] eqn:Ec; [|assumption].
    destruct (wf_entry es x Hn Ec) as [Hx Hc].
    apply wf_entry_put; auto.
Qed.

Lemma wf_put (mk : bool) (n n' new : node) (p : list string) :
  wf n = true -> wf new = true ->
  Forall (fun x => valid_name x = true) p ->
  put mk n p new = Some n' -> wf n' = true.
Proof.
  revert n n'; induction p as [|x p IH]; intros n n' Hn Hnew Hp; simpl.
  - now intros [= <-].
  - inversion Hp as [|? ? Hx Hp']; subst.
    destruct n as [dat|es]; [discriminate|].
    destruct (entry_get x es) as [c|] eqn:Ec.
    + destruct (put mk c p new) as [c'|] eqn:E; [|discriminate].
      intros [= <-]. destruct (wf_entry es x Hn Ec) as [_ Hc].
      apply wf_entry_put; [assumption | assumption|].
      exact (IH c c' Hc Hnew Hp' E).
    + destruct (match p with [] => true | _ :: _ => mk end); [|discriminate].
      destruct (put mk (Dir []) p new) as [c'|] eqn:E; [|discriminate].
      intros [= <-]. apply wf_entry_put; [assumption | assumption|].
      exact (IH (Dir []) c' eq_refl Hnew Hp' E).
Qed.

Lemma valid_piece (acc : string) :
  has_slash acc = false -> Forall (fun x => valid_name x = true) (piece acc).
Proof.
  intros H. unfold piece. destruct (is_empty acc) eqn:E; constructor; [|constructor].
  unfold valid_name. now rewrite E, H.
Qed.

Lemma components_from_valid (acc s : string) :
  has_slash acc = false ->
  Forall (fun x => valid_name x = true) (components_from acc s).
Proof.
  revert acc; induction s as [|c s IH]; intros acc Hacc.
  - now apply valid_piece.
  - rewrite components_from_cons. destruct (is_slash c) eqn:Ec.
    + apply Forall_app. split; [now apply valid_piece | now apply IH].
    + apply IH. rewrite has_slash_append, Hacc. simpl. now rewrite Ec.
Qed.

(** The components of a path are valid names. *)
Lemma components_valid (p : string) :
  Forall (fun x => valid_name x = true) (components p).
Proof. now apply components_from_valid. Qed.

End WfFacts.

(** ** What a move does *)

Section MoveFacts.
Import Str Path Tree Os.

Lemma join_not_empty (a b : string) : is_empty a = false -> is_empty (join a b) = false.
Proof.
  intros Ha. unfold join. destruct (startswith "/" b) eqn:Eb.
  - destruct b; [discriminate | reflexivity].
  - destruct a; [discriminate|]. now destruct (_ || _).
Qed.

Lemma isdir_not_empty (t : node) (p : string) :
  isdir t p = true -> is_empty p = false.
Proof. unfold isdir, resolve. now destruct (is_empty p). Qed.

Lemma get_prefix (t : node) (p q : list string) :
  is_prefix p q = true -> get t q <> None -> get t p <> None.
Proof.
  intros Hpq Hq. apply is_prefix_iff in Hpq. destruct Hpq as [r ->].
  rewrite get_app in Hq. now destruct (get t p).
Qed.

(** Below a regular file there is nothing. *)
Lemma get_below_file (t : node) (p q : list string) (dat : string) :
  get t p = Some (File dat) -> is_prefix p q = true -> get t q <> None ->
  q = p.
Proof.
  intros Hp Hpq Hq. apply is_prefix_iff in Hpq. destruct Hpq as [r ->].
  rewrite get_app, Hp in Hq. destruct r; [now rewrite app_nil_r|].
  now simpl in Hq.
Qed.

(** A [rename] that ends well has done nothing, the two names being one,
    or has unlinked the node at the old name and put it at the new one,
    where there was nothing or, for a regular file, a regular file. *)
Lemma rename_ok (n : node) (s d : string) (t t' : node) :
  rename n s d t = (t', Ok tt) ->
  (t' = t /\ components s = components d /\ components d <> [])
  \/ (components d <> []
      /\ put (is_dir n) (del t (components s)) (components d) n = Some t'
      /\ (get t (components d) = None
          \/ exists a b, n = File a /\ get t (components d) = Some (File b))
      /\ (forall es, n = Dir es ->
            is_prefix (components s) (components d) = false)).
Proof.
  unfold rename. destruct (components d) as [|x dd] eqn:Ed; [discriminate|].
  destruct (same (components s) (x :: dd)) eqn:Es.
  { apply same_iff in Es. intros [= <-]. left. repeat split; congruence. }
  destruct n as [dat|es].
  - destruct (get t (x :: dd)) as [[dat'|es']|] eqn:Eg; try discriminate;
      (destruct (put false (del t (components s)) (x :: dd) (File dat))
         as [t1|] eqn:Ep; [|discriminate]);
      intros [= <-]; right; (split; [discriminate|]);
      (split; [exact Ep|]); (split; [|discriminate]); eauto.
  - destruct (get t (x :: dd)) as [m|] eqn:Eg.
    + destruct (is_prefix (components s) (x :: dd)); discriminate.
    + destruct (is_prefix (components s) (x :: dd)) eqn:Ei; [discriminate|].
      destruct (put true (del t (components s)) (x :: dd) (Dir es))
        as [t1|] eqn:Ep; [|discriminate].
      intros [= <-]. right. split; [discriminate|].
      split; [exact Ep|]. split; [now left | auto].
Qed.

(** The same for [shutil.move]: the new name is [dst], or the name of
    [src] inside [dst] when [dst] is a directory.  A move that does
    nothing is a move onto a name that exists. *)
Lemma move_ok (s d : string) (t t' : node) :
  move s d t = (t', Ok tt) ->
  (t' = t /\ exists_ t d = true)
  \/ exists n dd,
       get t (components s) = Some n
       /\ dd <> []
       /\ put (is_dir n) (del t (components s)) dd n = Some t'
       /\ ((isdir t d = false /\ dd = components d)
           \/ (isdir t d = true /\ get t dd = None
               /\ dd = (components d ++ components (basename s))%list))
       /\ (get t dd = None
           \/ exists a b, n = File a /\ get t dd = Some (File b))
       /\ (forall es, n = Dir es -> is_prefix (components s) dd = false).
Proof.
  unfold move. destruct (isdir t d) eqn:Hd.
  - destruct (samefile t s d);
      [intros [= <-]; left; split; [reflexivity | now apply isdir_exists]|].
    destruct (exists_ t (join d (basename s))) eqn:Hex; [discriminate|].
    destruct (resolve t s) as [n|] eqn:Hs; [|discriminate].
    assert (Hnone : get t (components (join d (basename s))) = None).
    { unfold exists_, resolve in Hex.
      rewrite (@join_not_empty d (basename s) (@isdir_not_empty t d Hd)) in Hex.
      now destruct (get t (components (join d (basename s)))). }
    intros H. apply rename_ok in H.
    destruct H as [[_ [Hsame _]] | [Hne [Hput [Hg Hpre]]]].
    { apply resolve_components in Hs. congruence. }
    right. exists n, (components (join d (basename s))).
    split; [now apply resolve_components|]. split; [assumption|].
    split; [assumption|]. split; [|split; [now left | assumption]].
    right. split; [reflexivity|]. split; [assumption|].
    apply components_join, has_slash_startswith, basename_plain.
  - destruct (resolve t s) as [n|] eqn:Hs; [|discriminate].
    intros H. apply rename_ok in H.
    destruct H as [[-> [Hsame Hne]] | [Hne [Hput [Hg Hpre]]]].
    { left. split; [reflexivity|]. apply exists_resolve.
      rewrite resolve_get by assumption. apply resolve_components in Hs.
      congruence. }
    right. exists n, (components d).
    split; [now apply resolve_components|]. split; [assumption|].
    split; [assumption|]. split; [now left|]. split; assumption.
Qed.

(** A move keeps what exists outside the source: a regular file keeps its
    bytes, a directory stays one.  The one exception is the move of a
    regular file onto a regular file. *)
Lemma move_keeps (s d : string) (t t' : node) (r : outcome unit) (q : list string) :
  move s d t = (t', r) ->
  isfile t s && isfile t d = false ->
  is_prefix (components s) q = false ->
  get t q <> None ->
  alike (get t q) (get t' q).
Proof.
  intros Hm Hff Hq Hget.
  destruct (move_outcome _ _ _ Hm) as [-> | [-> _]]; [|apply alike_refl].
  apply move_ok in Hm.
  destruct Hm as [[-> _] | [n [dd [Hn [Hdd [Hput [Hwhere [Hthere Hnest]]]]]]]];
    [apply alike_refl|].
  pose proof (alike_del t (components s) q Hq) as Hdel.
  eapply alike_trans; [exact Hdel|].
  eapply alike_put; [exact Hput | |].
  - destruct (is_prefix dd q) eqn:Epre; [exfalso | reflexivity].
    destruct Hthere as [Hnone | [a [b [-> Hfile]]]].
    + now apply (get_prefix t dd q Epre).
    + assert (q = dd) as -> by (eapply get_below_file; eassumption).
      destruct Hwhere as [[Hnd ->] | [_ [Hnone _]]]; [|congruence].
      assert (isfile t s = true) as Hfs.
      { unfold isfile, resolve. destruct (is_empty s) eqn:Es.
        - destruct s; [|discriminate]. cbn in Hn. cbn in Hq. discriminate.
        - now rewrite Hn. }
      assert (isfile t d = true) as Hfd.
      { unfold isfile. rewrite resolve_get by assumption. now rewrite Hfile. }
      rewrite Hfs, Hfd in Hff. discriminate.
  - destruct (get t q) as [[x|es]|], (get (del t (components s)) q) as [[y|es']|];
      simpl in Hdel; try contradiction; congruence.
Qed.

(** A move keeps the tree well-formed. *)
Lemma move_wf (s d : string) (t t' : node) (r : outcome unit) :
  move s d t = (t', r) -> wf t = true -> wf t' = true.
Proof.
  intros Hm Hwf.
  destruct (move_outcome _ _ _ Hm) as [-> | [-> _]]; [|assumption].
  apply move_ok in Hm.
  destruct Hm as [[-> _] | [n [dd [Hn [Hdd [Hput [Hwhere _]]]]]]];
    [assumption|].
  eapply wf_put; [apply wf_del; exact Hwf | eapply wf_get; eassumption | | exact Hput].
  destruct Hwhere as [[_ ->] | [_ [_ ->]]].
  - apply components_valid.
  - apply Forall_app. split; apply components_valid.
Qed.

End MoveFacts.

(** ** [_move_and_merge_tree] *)

Section MergeFacts.
Import Str Path Tree Os.

(** What holds before a loop and is kept by every round holds after it. *)
Lemma for_each_inv (S A : Type) (I : S -> Prop) (xs : list A)
      (body : A -> M S unit) (s s' : S) (r : outcome unit) :
  (forall x s1 s2 r1, In x xs -> I s1 -> body x s1 = (s2, r1) -> I s2) ->
  I s -> for_each xs body s = (s', r) -> I s'.
Proof.
  revert s; induction xs as [|x xs IH]; intros s Hstep Hs; cbn [for_each].
  - now intros [= <- <-].
  - unfold bind. destruct (body x s) as [s1 r1] eqn:E.
    assert (Hs1 : I s1) by (eapply Hstep; [now left | exact Hs | exact E]).
    destruct r1 as [[]|e|]; try (now intros [= <- <-]).
    apply IH; [|assumption].
    intros y sa sb rb Hy. apply Hstep. now right.
Qed.

(** One level of [_move_and_merge_tree], spelled out. *)
Lemma merge_step (fuel : nat) (src dst : string) (t : node) :
  move_and_merge_tree (S fuel) src dst t =
  if negb (exists_ t dst) then move src dst t
  else if isfile t src then move src dst t
  else
    match resolve t src with
    | Some (Dir es) =>
        for_each (map fst es)
          (merge_entry (move_and_merge_tree fuel) src dst) t
    | _ => (t, Raise OSError)
    end.
Proof.
  cbn [move_and_merge_tree].
  destruct (negb (exists_ t dst)); [reflexivity|].
  destruct (isfile t src); [reflexivity|].
  unfold bind, listdir. now destruct (resolve t src) as [[dat|es]|].
Qed.

(** The names [os.listdir] reports in a well-formed tree are valid. *)
Lemma listing_valid (t : node) (src : string) (es : list (string * node))
      (fp : string) :
  wf t = true -> resolve t src = Some (Dir es) -> In fp (map fst es) ->
  valid_name fp = true.
Proof.
  intros Hwf Hr Hin. apply resolve_components in Hr.
  pose proof (wf_get _ _ Hwf Hr) as Hes.
  destruct (entry_get_in es fp Hin) as [c Hc].
  now destruct (wf_entry es fp Hes Hc).
Qed.

Lemma outside_entry (src fp : string) (q : list string) :
  valid_name fp = true ->
  is_prefix (components src) q = false ->
  is_prefix (components (join src fp)) q = false.
Proof.
  intros Hfp Hq. rewrite components_join_name by assumption.
  destruct (is_prefix (components src ++ [fp]) q) eqn:E; [|reflexivity].
  rewrite (is_prefix_trans _ _ _ (is_prefix_app (components src) [fp]) E) in Hq.
  discriminate.
Qed.

Lemma isdir_not_isfile (t : node) (p : string) :
  isdir t p = true -> isfile t p = false.
Proof. unfold isdir, isfile. now destruct (resolve t p) as [[?|?]|]. Qed.

(** A merge keeps the tree well-formed, and keeps what exists outside the
    source: a regular file keeps its bytes, a directory stays one.  (The
    one exception is the merge of a regular file into a regular file.) *)
Lemma merge_keeps (fuel : nat) (src dst : string) (t t' : node)
      (r : outcome unit) :
  wf t = true ->
  isfile t src && isfile t dst = false ->
  move_and_merge_tree fuel src dst t = (t', r) ->
  wf t' = true
  /\ forall q, is_prefix (components src) q = false -> get t q <> None ->
               alike (get t q) (get t' q).
Proof.
  revert src dst t t' r; induction fuel as [|fuel IH];
    intros src dst t t' r Hwf Hff.
  - intros [= <- <-]. split; [assumption | intros; apply alike_refl].
  - rewrite merge_step.
    assert (Hmove : move src dst t = (t', r) ->
              wf t' = true
              /\ forall q, is_prefix (components src) q = false ->
                           get t q <> None -> alike (get t q) (get t' q)).
    { intros Hm. split; [eapply move_wf; eassumption|].
      intros q Hq Hg. eapply move_keeps; eassumption. }
    destruct (negb (exists_ t dst)); [exact Hmove|].
    destruct (isfile t src); [exact Hmove|]. clear Hmove.
    destruct (resolve t src) as [[dat|es]|] eqn:Hr;
      try (intros [= <- <-]; split; [assumption | intros; apply alike_refl]).
    apply (for_each_inv
             (fun ti => wf ti = true
                        /\ forall q, is_prefix (components src) q = false ->
                                     get t q <> None ->
                                     alike (get t q) (get ti q)));
      [|split; [assumption | intros; apply alike_refl]].
    intros fp t1 t2 r1 Hin [Hwf1 Hk1]. unfold merge_entry.
    pose proof (@listing_valid t src es fp Hwf Hr Hin) as Hfp.
    assert (Hstep : forall (m : M node unit),
      (m = move (join src fp) (join dst fp)
       /\ isfile t1 (join src fp) && isfile t1 (join dst fp) = false)
      \/ (m = move_and_merge_tree fuel (join src fp) (join dst fp)
          /\ isdir t1 (join src fp) = true) ->
      m t1 = (t2, r1) ->
      wf t2 = true
      /\ forall q, is_prefix (components src) q = false -> get t q <> None ->
                   alike (get t q) (get t2 q)).
    { intros m Hm Hrun.
      assert (Hone : wf t2 = true
                /\ forall q, is_prefix (components (join src fp)) q = false ->
                             get t1 q <> None -> alike (get t1 q) (get t2 q)).
      { destruct Hm as [[-> Hno] | [-> Hdir]].
        - split; [eapply move_wf; eassumption|].
          intros q Hq Hg. eapply move_keeps; eassumption.
        - eapply IH; [exact Hwf1 | | exact Hrun].
          now rewrite (isdir_not_isfile _ _ Hdir). }
      destruct Hone as [Hwf2 Hk2]. split; [assumption|].
      intros q Hq Hg. pose proof (Hk1 q Hq Hg) as H1.
      eapply alike_trans; [exact H1|]. apply Hk2.
      - now apply outside_entry.
      - destruct (get t q) as [[x|e0]|], (get t1 q) as [[y|e1]|];
          simpl in H1; try contradiction; congruence. }
    destruct (isdir t1 (join src fp)) eqn:Ed.
    + destruct (isdir t1 (join dst fp)) eqn:Ed2.
      * apply Hstep. right. now split.
      * apply Hstep. left. split; [reflexivity|].
        now rewrite (isdir_not_isfile _ _ Ed).
    + destruct (isfile t1 (join src fp) && negb (isfile t1 (join dst fp))) eqn:Ef.
      * apply Hstep. left. split; [reflexivity|].
        apply andb_true_iff in Ef. destruct Ef as [_ Ef].
        apply negb_true_iff in Ef. rewrite Ef. apply andb_false_r.
      * intros [= <- <-]. split; assumption.
Qed.

End MergeFacts.

Section MergeFacts2.
Import Str Path Tree Os.

(** One round of the loop keeps the tree well-formed and keeps what
    exists outside the entry it handles. *)
Lemma merge_entry_keeps (fuel : nat) (src dst fp : string) (t1 t2 : node)
      (r1 : outcome unit) :
  wf t1 = true ->
  merge_entry (move_and_merge_tree fuel) src dst fp t1 = (t2, r1) ->
  wf t2 = true
  /\ forall q, is_prefix (components (join src fp)) q = false ->
               get t1 q <> None -> alike (get t1 q) (get t2 q).
Proof.
  intros Hwf. unfold merge_entry.
  assert (Hmove : isfile t1 (join src fp) && isfile t1 (join dst fp) = false ->
            move (join src fp) (join dst fp) t1 = (t2, r1) ->
            wf t2 = true
            /\ forall q, is_prefix (components (join src fp)) q = false ->
                         get t1 q <> None -> alike (get t1 q) (get t2 q)).
  { intros Hno Hm. split; [eapply move_wf; eassumption|].
    intros q Hq Hg. eapply move_keeps; eassumption. }
  destruct (isdir t1 (join src fp)) eqn:Ed.
  - pose proof (isdir_not_isfile _ _ Ed) as Hnf.
    destruct (isdir t1 (join dst fp)).
    + apply merge_keeps; [assumption | now rewrite Hnf].
    + apply Hmove. now rewrite Hnf.
  - destruct (isfile t1 (join src fp) && negb (isfile t1 (join dst fp))) eqn:Ef.
    + apply Hmove. apply andb_true_iff in Ef. destruct Ef as [_ Ef].
      apply negb_true_iff in Ef. rewrite Ef. apply andb_false_r.
    + intros [= <- <-]. split; [assumption | intros; apply alike_refl].
Qed.

Lemma alike_dir (a b : option node) (es : list (string * node)) :
  alike a b -> a = Some (Dir es) -> exists es', b = Some (Dir es').
Proof.
  intros H ->. destruct b as [[y|es']|]; simpl in H; try contradiction. eauto.
Qed.

Lemma alike_file (a b : option node) (dat : string) :
  alike a b -> a = Some (File dat) -> b = Some (File dat).
Proof.
  intros H ->. destruct b as [[y|es']|]; simpl in H; try contradiction.
  now subst.
Qed.

Lemma isdir_get (t : node) (p : string) :
  isdir t p = true <->
  is_empty p = false /\ exists es, get t (components p) = Some (Dir es).
Proof.
  unfold isdir, resolve. destruct (is_empty p).
  - split; [discriminate | now intros [? _]].
  - destruct (get t (components p)) as [[dat|es]|]; split;
      try discriminate; try (intros [_ [es' H]]; discriminate); eauto.
Qed.

Lemma entry_get_some_in (es : list (string * node)) (x : string) (c : node) :
  entry_get x es = Some c -> In x (map fst es).
Proof.
  induction es as [|[y c0] es IH]; simpl; [discriminate|].
  destruct (String.eqb x y) eqn:E.
  - apply String.eqb_eq in E. auto.
  - intros H. right. now apply IH.
Qed.

Lemma for_each_app (S A : Type) (xs ys : list A) (body : A -> M S unit) (s : S) :
  for_each (xs ++ ys) body s
  = (for_each xs body ;;; for_each ys body) s.
Proof.
  revert s; induction xs as [|x xs IH]; intros s; cbn [for_each app].
  - reflexivity.
  - unfold bind. destruct (body x s) as [s1 [[]|e|]]; try reflexivity.
    rewrite IH. reflexivity.
Qed.

(** A directory does not move into itself. *)
Lemma move_into_itself (s d : string) (t t' : node) (r : outcome unit) :
  isdir t s = true ->
  isdir t d = false ->
  is_prefix (components s) (components d) = true ->
  components s <> components d ->
  move s d t = (t', r) -> r <> Ok tt.
Proof.
  intros Hs Hd Hpre Hne. unfold move. rewrite Hd.
  unfold isdir in Hs. destruct (resolve t s) as [[dat|es]|]; try discriminate.
  unfold rename. destruct (components d) as [|x dd]; [intros [= <- <-]; discriminate|].
  destruct (same (components s) (x :: dd)) eqn:Es.
  { apply same_iff in Es. contradiction. }
  rewrite Hpre. destruct (get t (x :: dd)); intros [= <- <-]; discriminate.
Qed.

(** The merge of a directory into a directory inside it never ends well:
    the entry that leads to the destination cannot be moved below
    itself. *)
Lemma merge_nested (fuel : nat) (src dst : string) (rel : list string)
      (t t' : node) (r : outcome unit) :
  wf t = true ->
  isdir t src = true ->
  isdir t dst = true ->
  components dst = (components src ++ rel)%list ->
  rel <> [] ->
  move_and_merge_tree fuel src dst t = (t', r) ->
  r <> Ok tt.
Proof.
  revert src dst rel t t' r; induction fuel as [|fuel IH];
    intros src dst rel t t' r Hwf Hs Hd Hrel Hne;
    [intros [= <- <-]; discriminate|].
  rewrite merge_step, (isdir_exists _ _ Hd), (isdir_not_isfile _ _ Hs).
  cbn [negb].
  destruct rel as [|d rel]; [congruence|]. clear Hne.
  apply isdir_get in Hs. destruct Hs as [Hse [es Hes]].
  apply isdir_get in Hd. destruct Hd as [Hde [es' Hes']].
  unfold resolve. rewrite Hse, Hes.
  assert (Hd_in : exists c, entry_get d es = Some c).
  { rewrite Hrel, get_app, Hes in Hes'. simpl in Hes'.
    destruct (entry_get d es); [eauto | discriminate]. }
  destruct Hd_in as [c Hc].
  pose proof (wf_get _ _ Hwf Hes) as Hwfes.
  pose proof (wf_nodup es Hwfes) as Hnd.
  destruct (in_split _ _ (entry_get_some_in _ _ Hc)) as [l1 [l2 Hsplit]].
  rewrite Hsplit in Hnd |- *.
  assert (Hfresh : ~ In d l1).
  { apply NoDup_remove_2 in Hnd. intros Hin. apply Hnd, in_or_app. now left. }
  assert (Hvalid : forall fp, In fp (l1 ++ d :: l2) -> valid_name fp = true).
  { intros fp Hin. rewrite <- Hsplit in Hin.
    destruct (entry_get_in es fp Hin) as [c0 Hc0].
    now destruct (wf_entry es fp Hwfes Hc0). }
  rewrite for_each_app. unfold bind.
  destruct (for_each l1 _ t) as [t1 r1] eqn:E1.
  assert (Hinv : wf t1 = true
                 /\ (exists e1, get t1 (components src ++ [d]) = Some (Dir e1))
                 /\ (exists e2, get t1 (components dst) = Some (Dir e2))).
  { revert E1.
    apply (for_each_inv
             (fun ti => wf ti = true
                /\ (exists e1, get ti (components src ++ [d]) = Some (Dir e1))
                /\ (exists e2, get ti (components dst) = Some (Dir e2)))).
    - intros x ta tb rb Hx [Hwa [[e1 He1] [e2 He2]]] Hrun.
      assert (Hxd : x <> d) by (intros ->; contradiction).
      assert (Hvx : valid_name x = true) by (apply Hvalid, in_or_app; now left).
      destruct (merge_entry_keeps _ _ _ _ _ Hwa Hrun) as [Hwb Hk].
      rewrite components_join_name in Hk by assumption.
      split; [assumption|]. split.
      + eapply alike_dir; [apply Hk | exact He1]; [|congruence].
        eapply is_prefix_siblings; [|apply is_prefix_refl]. congruence.
      + eapply alike_dir; [apply Hk | exact He2]; [|congruence].
        rewrite Hrel.
        eapply is_prefix_siblings with (x := d); [congruence|].
        change (d :: rel) with ([d] ++ rel)%list. rewrite app_assoc.
        apply is_prefix_app.
    - split; [assumption|]. split; [|eauto].
      rewrite get_app, Hes. simpl. rewrite Hc.
      rewrite Hrel, get_app, Hes in Hes'. simpl in Hes'. rewrite Hc in Hes'.
      destruct rel; simpl in Hes'; [eauto|].
      destruct c as [dat|ec]; [discriminate | eauto]. }
  destruct r1 as [[]|e|]; try (intros [= <- <-]; discriminate).
  destruct Hinv as [Hw1 [[e1 He1] [e2 He2]]].
  assert (Hvd : valid_name d = true) by (apply Hvalid, in_or_app; right; now left).
  cbn [for_each]. unfold bind.
  destruct (merge_entry _ src dst d t1) as [t2 r2] eqn:E2.
  assert (Hr2 : r2 <> Ok tt).
  { revert E2. unfold merge_entry.
    assert (Hsd : isdir t1 (join src d) = true).
    { apply isdir_get. split; [now apply join_not_empty|].
      rewrite components_join_name by assumption. eauto. }
    rewrite Hsd.
    assert (Hcd : components (join dst d)
                  = (components (join src d) ++ (rel ++ [d]))%list).
    { rewrite !components_join_name, Hrel by assumption.
      rewrite <- !app_assoc. reflexivity. }
    destruct (isdir t1 (join dst d)) eqn:Edd.
    - apply (IH _ _ (rel ++ [d])%list); try assumption.
      now destruct rel.
    - apply move_into_itself; try assumption.
      + rewrite Hcd. apply is_prefix_app.
      + rewrite Hcd. intros Heq.
        rewrite <- (app_nil_r (components (join src d))) in Heq at 1.
        apply app_inv_head in Heq. now destruct rel. }
  destruct r2 as [[]|e|]; [congruence | |]; intros [= <- <-]; discriminate.
Qed.

End MergeFacts2.

Section MergeClaims.
Import Str Path Tree Os.

(** A directory moved onto one of its own names stays where it is. *)
Lemma move_same (s d : string) (t t' : node) (r : outcome unit) :
  components s = components d ->
  isdir t s = true ->
  move s d t = (t', r) -> t' = t.
Proof.
  intros Hsame Hs Hm.
  destruct (move_outcome _ _ _ Hm) as [-> | [-> _]]; [|reflexivity].
  apply move_ok in Hm.
  destruct Hm as [[-> _] | [n [dd [Hn [_ [_ [Hwhere [_ Hnest]]]]]]]];
    [reflexivity | exfalso].
  apply isdir_get in Hs. destruct Hs as [_ [es Hes]].
  rewrite Hes in Hn. injection Hn as <-.
  specialize (Hnest es eq_refl).
  destruct Hwhere as [[_ ->] | [_ [_ ->]]].
  - now rewrite Hsame, is_prefix_refl in Hnest.
  - now rewrite Hsame, is_prefix_app in Hnest.
Qed.

(** The merge of a directory into itself changes nothing. *)
Lemma merge_same (fuel : nat) (src dst : string) (t t' : node)
      (r : outcome unit) :
  wf t = true ->
  components src = components dst ->
  isdir t src = true ->
  move_and_merge_tree fuel src dst t = (t', r) -> t' = t.
Proof.
  revert src dst t t' r; induction fuel as [|fuel IH];
    intros src dst t t' r Hwf Hsame Hs; [now intros [= <- <-]|].
  rewrite merge_step.
  destruct (negb (exists_ t dst)); [now apply move_same|].
  destruct (isfile t src); [now apply move_same|].
  destruct (resolve t src) as [[dat|es]|] eqn:Hr; try (now intros [= <- <-]).
  apply (for_each_inv (fun ti => ti = t)); [|reflexivity].
  intros fp t1 t2 r1 Hin ->. unfold merge_entry.
  pose proof (@listing_valid t src es fp Hwf Hr Hin) as Hfp.
  assert (Hc : components (join src fp) = components (join dst fp))
    by (rewrite !components_join_name by assumption; congruence).
  assert (Hres : resolve t (join src fp) = resolve t (join dst fp)).
  { unfold resolve. rewrite Hc.
    assert (Hne : forall a, is_empty (join a fp) = false).
    { intros a. unfold join. unfold valid_name in Hfp.
      destruct fp; [discriminate|].
      destruct (startswith "/" _); [reflexivity|].
      destruct (_ || _); now destruct a. }
    now rewrite !Hne. }
  unfold isdir, isfile. rewrite <- Hres.
  destruct (resolve t (join src fp)) as [[dat|es1]|] eqn:Hr1; cbn [negb andb].
  - now intros [= <- <-].
  - apply IH; [assumption | assumption|]. unfold isdir. now rewrite Hr1.
  - now intros [= <- <-].
Qed.

Lemma is_prefix_snoc (p q : list string) (x : string) :
  is_prefix p (q ++ [x]) = true -> p = (q ++ [x])%list \/ is_prefix p q = true.
Proof.
  revert q; induction p as [|y p IH]; intros q; [now right|].
  destruct q as [|z q]; simpl.
  - intros H. apply andb_true_iff in H. destruct H as [Hy Hp].
    apply String.eqb_eq in Hy. subst y. destruct p; [now left | discriminate].
  - intros H. apply andb_true_iff in H. destruct H as [Hy Hp].
    apply String.eqb_eq in Hy. subst y. rewrite String.eqb_refl.
    destruct (IH q Hp) as [-> | ->]; auto.
Qed.

Lemma read_get (t : node) (p data : string) :
  read t p = Some data <->
  is_empty p = false /\ get t (components p) = Some (File data).
Proof.
  unfold read, resolve. destruct (is_empty p).
  - split; [discriminate | now intros [? _]].
  - destruct (get t (components p)) as [[dat|es]|]; split;
      try discriminate; try (intros [_ H]; discriminate).
    + now intros [= ->].
    + intros [_ [= ->]]. reflexivity.
Qed.

(** The two halves of the precedence of the destination, at whatever depth
    the recursion is given: the file of the destination keeps its bytes,
    and a destination that is not there receives the file of the source. *)
Lemma merge_precedence_at (fuel : nat) (src dst name src_data : string)
        (t t' : node) (r : outcome unit) :
  wf t = true ->
  valid_name name = true ->
  isdir t src = true ->
  read t (join src name) = Some src_data ->
  move_and_merge_tree fuel src dst t = (t', r) ->
  (forall dst_data,
     isdir t dst = true ->
     read t (join dst name) = Some dst_data ->
     r = Ok tt \/ inside (components src) (components dst) = false ->
     read t' (join dst name) = Some dst_data)
  /\ (exists_ t dst = false ->
      r = Ok tt ->
      read t' (join dst name) = Some src_data).
Proof.
  intros Hwf Hname Hs Hsrc Hrun.
  pose proof (isdir_not_isfile _ _ Hs) as Hnf.
  assert (Hjoin : forall a, is_empty (join a name) = false).
  { intros a. unfold join. unfold valid_name in Hname.
    destruct name; [discriminate|].
    destruct (startswith "/" _); [reflexivity|].
    destruct (_ || _); now destruct a. }
  split.
  - intros dst_data Hd Hdst Hok.
    apply read_get in Hdst. destruct Hdst as [_ Hdst].
    rewrite components_join_name in Hdst by assumption.
    apply read_get. split; [apply Hjoin|].
    rewrite components_join_name by assumption.
    destruct (is_prefix (components src) (components dst ++ [name])) eqn:Epre.
    + apply is_prefix_snoc in Epre. destruct Epre as [Heq | Epre].
      { exfalso. apply isdir_get in Hs. destruct Hs as [_ [es Hes]].
        congruence. }
      destruct (same (components src) (components dst)) eqn:Esame.
      * apply same_iff in Esame.
        now rewrite (merge_same _ _ _ _ Hwf Esame Hs Hrun).
      * exfalso. destruct Hok as [-> | Hin].
        -- apply is_prefix_iff in Epre. destruct Epre as [rel Hrel].
           assert (Hne : rel <> []).
           { intros ->. rewrite app_nil_r in Hrel.
             symmetry in Hrel. apply same_iff in Hrel. congruence. }
           exact (@merge_nested fuel src dst rel t t' (Ok tt)
                    Hwf Hs Hd Hrel Hne Hrun eq_refl).
        -- unfold inside in Hin. now rewrite Epre, Esame in Hin.
    + assert (Hff : isfile t src && isfile t dst = false) by now rewrite Hnf.
      destruct (@merge_keeps fuel src dst t t' r Hwf Hff Hrun) as [_ Hk].
      eapply alike_file; [apply Hk | exact Hdst]; [assumption | congruence].
  - intros Hnone ->.
    destruct fuel as [|fuel]; [discriminate|].
    rewrite merge_step, Hnone in Hrun. cbn [negb] in Hrun.
    apply move_ok in Hrun.
    destruct Hrun as [[_ Hex] | [n [dd [Hn [_ [Hput [Hwhere _]]]]]]];
      [congruence|].
    assert (isdir t dst = false) as Hnd.
    { unfold isdir. unfold exists_ in Hnone. now destruct (resolve t dst). }
    destruct Hwhere as [[_ ->] | [Hyes _]]; [|congruence].
    apply read_get in Hsrc. destruct Hsrc as [_ Hsrc].
    rewrite components_join_name, get_app, Hn in Hsrc by assumption.
    apply read_get. split; [apply Hjoin|].
    rewrite components_join_name, get_app by assumption.
    now rewrite (get_put_same _ _ _ _ Hput).
Qed.

End MergeClaims.

(** The hypothesis on a merge that raises cannot be dropped: the merge of
    [/s] into [/s/d] moves [/s/d/a.txt] down to [/s/d/d] before [/s/d/d]
    is found to go into itself. *)
Example merge_into_itself :
  let res := _move_and_merge_tree "/s" "/s/d" fs_nested in
  snd res = Raise ShutilError
  /\ Os.read fs_nested "/s/d/a.txt" = Some "da"
  /\ Os.read (fst res) "/s/d/a.txt" = None
  /\ Os.read (fst res) "/s/d/d/a.txt" = Some "da".
Proof. cbv zeta. repeat split; vm_compute; reflexivity. Qed.

(** ** Where a merge adds *)

Section MergeAdds.
Import Str Path Tree Os.

(** A put at [d] changes nothing at a path that is neither above nor below
    [d]. *)
Lemma get_put_apart (mk : bool) (n n' new : node) (d q : list string) :
  put mk n d new = Some n' ->
  is_prefix d q = false -> is_prefix q d = false ->
  get n' q = get n q.
Proof.
  revert n n' q; induction d as [|x d IH]; intros n n' q; [discriminate|].
  destruct q as [|y q]; [discriminate|].
  simpl. destruct n as [dat|es]; [discriminate|].
  intros Hput Hdq Hqd.
  destruct (String.eqb x y) eqn:Exy.
  - apply String.eqb_eq in Exy. subst y. rewrite String.eqb_refl in Hqd.
    simpl in Hdq, Hqd.
    destruct (entry_get x es) as [c|] eqn:Ec.
    + destruct (put mk c d new) as [c'|] eqn:E; [|discriminate].
      injection Hput as <-. simpl. rewrite entry_get_put_same. eauto.
    + destruct (match d with [] => true | _ :: _ => mk end); [|discriminate].
      destruct (put mk (Dir []) d new) as [c'|] eqn:E; [|discriminate].
      injection Hput as <-. simpl. rewrite entry_get_put_same.
      rewrite (IH _ _ _ E Hdq Hqd). now destruct q.
  - apply String.eqb_neq in Exy.
    assert (Hn' : exists c', n' = Dir (entry_put x c' es)).
    { destruct (entry_get x es) as [c|].
      - destruct (put mk c d new) as [c'|]; [|discriminate].
        injection Hput as <-. eauto.
      - destruct (match d with [] => true | _ :: _ => mk end); [|discriminate].
        destruct (put mk (Dir []) d new) as [c'|]; [|discriminate].
        injection Hput as <-. eauto. }
    destruct Hn' as [c' ->]. simpl.
    now rewrite entry_get_put_other.
Qed.

(** Unlinking makes nothing appear. *)
Lemma get_del_none (n : node) (s q : list string) :
  get n q = None -> get (del n s) q = None.
Proof.
  intros Hq. destruct (is_prefix s q) eqn:E.
  - destruct s as [|x s]; [exact Hq|]. apply get_del_gone; [discriminate | exact E].
  - pose proof (alike_del n s q E) as H. rewrite Hq in H.
    now destruct (get (del n s) q) as [[?|?]|].
Qed.

(** Two paths above one path lie one above the other. *)
Lemma is_prefix_comparable (p q r : list string) :
  is_prefix p r = true -> is_prefix q r = true ->
  is_prefix p q = true \/ is_prefix q p = true.
Proof.
  revert q r; induction p as [|x p IH]; intros q r; [now left|].
  destruct q as [|y q]; [now right|].
  destruct r as [|z r]; [discriminate|]. simpl.
  intros Hp Hq. apply andb_true_iff in Hp, Hq.
  destruct Hp as [Hx Hp], Hq as [Hy Hq].
  apply String.eqb_eq in Hx, Hy. subst x y. rewrite String.eqb_refl.
  exact (IH q r Hp Hq).
Qed.

Lemma apart_below (d q x : list string) :
  is_prefix d q = false -> is_prefix q d = false ->
  is_prefix (d ++ x) q = false /\ is_prefix q (d ++ x) = false.
Proof.
  intros Hdq Hqd. split.
  - destruct (is_prefix (d ++ x) q) eqn:E; [|reflexivity].
    rewrite (is_prefix_trans _ _ _ (is_prefix_app d x) E) in Hdq. discriminate.
  - destruct (is_prefix q (d ++ x)) eqn:E; [|reflexivity].
    destruct (is_prefix_comparable _ _ _ (is_prefix_app d x) E); congruence.
Qed.

(** A move makes nothing appear but at its destination and below. *)
Lemma move_adds (s d : string) (t t' : node) (r : outcome unit) (q : list string) :
  move s d t = (t', r) ->
  is_prefix (components d) q = false -> is_prefix q (components d) = false ->
  get t q = None -> get t' q = None.
Proof.
  intros Hm Hdq Hqd Hq.
  destruct (move_outcome _ _ _ Hm) as [-> | [-> _]]; [|assumption].
  apply move_ok in Hm.
  destruct Hm as [[-> _] | [n [dd [_ [_ [Hput [Hwhere _]]]]]]];
    [assumption|].
  assert (Hdd : is_prefix dd q = false /\ is_prefix q dd = false).
  { destruct Hwhere as [[_ ->] | [_ [_ ->]]]; [now split|].
    now apply apart_below. }
  destruct Hdd as [H1 H2].
  rewrite (get_put_apart _ _ _ _ _ Hput H1 H2). now apply get_del_none.
Qed.

(** So does a merge. *)
Lemma merge_adds (fuel : nat) (src dst : string) (t t' : node)
      (r : outcome unit) (q : list string) :
  wf t = true ->
  move_and_merge_tree fuel src dst t = (t', r) ->
  is_prefix (components dst) q = false -> is_prefix q (components dst) = false ->
  get t q = None -> get t' q = None.
Proof.
  revert src dst t t' r; induction fuel as [|fuel IH];
    intros src dst t t' r Hwf; [now intros [= <- <-]|].
  rewrite merge_step. intros Hrun Hdq Hqd Hq. revert Hrun.
  destruct (negb (exists_ t dst)); [intros H; eapply move_adds; eassumption|].
  destruct (isfile t src); [intros H; eapply move_adds; eassumption|].
  destruct (resolve t src) as [[dat|es]|] eqn:Hr; try (now intros [= <- <-]).
  intros Hrun.
  apply (for_each_inv (fun ti => wf ti = true /\ get ti q = None)) in Hrun;
    [now destruct Hrun | | now split].
  intros fp t1 t2 r1 Hin [Hwf1 Hq1] Hstep.
  split; [now destruct (merge_entry_keeps _ _ _ _ _ Hwf1 Hstep)|].
  pose proof (@listing_valid t src es fp Hwf Hr Hin) as Hfp.
  destruct (apart_below _ _ [fp] Hdq Hqd) as [H1 H2].
  rewrite <- (components_join_name dst fp Hfp) in H1, H2.
  revert Hstep. unfold merge_entry.
  destruct (isdir t1 (join src fp)).
  - destruct (isdir t1 (join dst fp)).
    + intros H. eapply IH; eassumption.
    + intros H. eapply move_adds; eassumption.
  - destruct (isfile t1 (join src fp) && negb (isfile t1 (join dst fp))).
    + intros H. eapply move_adds; eassumption.
    + now intros [= <- <-].
Qed.

(** One round of the loop makes nothing appear but at the entry's place
    in the destination and below. *)
Lemma merge_entry_adds (fuel : nat) (src dst fp : string) (t1 t2 : node)
      (r1 : outcome unit) (q : list string) :
  wf t1 = true ->
  merge_entry (move_and_merge_tree fuel) src dst fp t1 = (t2, r1) ->
  is_prefix (components (join dst fp)) q = false ->
  is_prefix q (components (join dst fp)) = false ->
  get t1 q = None -> get t2 q = None.
Proof.
  intros Hwf. unfold merge_entry.
  destruct (isdir t1 (join src fp)).
  - destruct (isdir t1 (join dst fp)).
    + intros H. eapply merge_adds; eassumption.
    + intros H. eapply move_adds; eassumption.
  - destruct (isfile t1 (join src fp) && negb (isfile t1 (join dst fp))).
    + intros H. eapply move_adds; eassumption.
    + now intros [= <- <-].
Qed.

(** A loop that ends well: the rounds before an entry, its round, and the
    rounds after it all end well. *)
Lemma for_each_ok (S A : Type) (l1 l2 : list A) (x : A)
      (body : A -> M S unit) (s s' : S) :
  for_each (l1 ++ x :: l2) body s = (s', Ok tt) ->
  exists s1 s2,
    for_each l1 body s = (s1, Ok tt)
    /\ body x s1 = (s2, Ok tt)
    /\ for_each l2 body s2 = (s', Ok tt).
Proof.
  rewrite for_each_app. unfold bind.
  destruct (for_each l1 body s) as [s1 [[]|e|]] eqn:E1; try discriminate.
  cbn [for_each]. unfold bind.
  destruct (body x s1) as [s2 [[]|e|]] eqn:E2; try discriminate.
  intros H. now exists s1, s2.
Qed.

End MergeAdds.

(** ** What a merge brings *)

Section MergeBrings.
Import Str Path Tree Os.

(** Above what exists there are directories. *)
Lemma get_above (t m : node) (a b : list string) :
  get t (a ++ b) = Some m -> b <> [] -> exists es, get t a = Some (Dir es).
Proof.
  rewrite get_app. destruct (get t a) as [[dat|es]|]; try discriminate.
  - destruct b; [congruence | discriminate].
  - eauto.
Qed.

(** Where neither of [s] and [d] is above the other, nothing below the one
    is above or below anything below the other. *)
Lemma apart_both (s d a b : list string) :
  is_prefix s d = false -> is_prefix d s = false ->
  is_prefix (s ++ a) (d ++ b) = false.
Proof.
  intros Hsd Hds. destruct (is_prefix (s ++ a) (d ++ b)) eqn:E; [|reflexivity].
  pose proof (is_prefix_trans _ _ _ (is_prefix_app s a) E) as Hs.
  destruct (is_prefix_comparable _ _ _ Hs (is_prefix_app d b)); congruence.
Qed.

Lemma siblings_apart (d rest : list string) (e x : string) :
  e <> x ->
  is_prefix (d ++ [e]) (d ++ x :: rest) = false
  /\ is_prefix (d ++ x :: rest) (d ++ [e]) = false.
Proof.
  intros Hex. rewrite !is_prefix_app_head. simpl.
  apply String.eqb_neq in Hex. rewrite Hex.
  rewrite String.eqb_sym in Hex. now rewrite Hex.
Qed.

Lemma isfile_get (t : node) (p : string) :
  isfile t p = true <->
  is_empty p = false /\ exists dat, get t (components p) = Some (File dat).
Proof.
  unfold isfile, resolve. destruct (is_empty p).
  - split; [discriminate | now intros [? _]].
  - destruct (get t (components p)) as [[dat|es]|]; split;
      try discriminate; try (intros [_ [dat' H]]; discriminate); eauto.
Qed.

Lemma valid_join_not_empty (a fp : string) :
  valid_name fp = true -> is_empty (join a fp) = false.
Proof.
  intros Hfp. unfold join. unfold valid_name in Hfp.
  destruct fp; [discriminate|].
  destruct (startswith "/" _); [reflexivity|].
  destruct (_ || _); now destruct a.
Qed.

(** A regular file of the source whose place in the destination is free,
    with the directories above that place there, is at that place after a
    merge that returns, whatever the depth [p] of the place; source and
    destination lie apart. *)
Lemma merge_brings (fuel : nat) (src dst : string) (p : list string)
      (f data : string) (t t' : node) :
  wf t = true ->
  is_prefix (components src) (components dst) = false ->
  is_prefix (components dst) (components src) = false ->
  is_empty src = false -> is_empty dst = false ->
  (exists es, get t (components dst ++ p) = Some (Dir es)) ->
  get t (components src ++ p ++ [f]) = Some (File data) ->
  get t (components dst ++ p ++ [f]) = None ->
  move_and_merge_tree fuel src dst t = (t', Ok tt) ->
  get t' (components dst ++ p ++ [f]) = Some (File data).
Proof.
  revert src dst p t t'; induction fuel as [|fuel IH];
    intros src dst p t t' Hwf Hsd Hds Hse Hde [ed Hdir] Hfile Hnone;
    [discriminate|].
  rewrite merge_step.
  (* the destination exists and the source is a directory *)
  assert (Hdst : exists_ t dst = true).
  { apply exists_resolve. unfold resolve. rewrite Hde.
    rewrite get_app in Hdir. now destruct (get t (components dst)). }
  destruct (@get_above t (File data) (components src) (p ++ [f])%list Hfile)
    as [es Hes]; [now destruct p|].
  assert (Hsrc : resolve t src = Some (Dir es)) by (unfold resolve; now rewrite Hse).
  rewrite Hdst. unfold isfile. rewrite Hsrc. cbn [negb].
  (* the entry of the source that leads to the file *)
  destruct (p ++ [f])%list as [|x rest] eqn:Epf; [now destruct p|].
  assert (Hx : exists c, entry_get x es = Some c).
  { rewrite get_app, Hes in Hfile. simpl in Hfile.
    destruct (entry_get x es); [eauto | discriminate]. }
  destruct Hx as [c Hc].
  pose proof (wf_get _ _ Hwf Hes) as Hwfes.
  pose proof (wf_nodup es Hwfes) as Hnd.
  destruct (in_split _ _ (entry_get_some_in _ _ Hc)) as [l1 [l2 Hsplit]].
  assert (Hvalid : forall fp, In fp (map fst es) -> valid_name fp = true).
  { intros fp Hin. destruct (entry_get_in es fp Hin) as [c0 Hc0].
    now destruct (wf_entry es fp Hwfes Hc0). }
  rewrite Hsplit in Hnd, Hvalid |- *.
  assert (Hfresh : ~ In x l1).
  { apply NoDup_remove_2 in Hnd. intros Hin. apply Hnd, in_or_app. now left. }
  intros Hrun. apply for_each_ok in Hrun.
  destruct Hrun as [t1 [t2 [E1 [E2 E3]]]].
  (* the rounds before the entry leave the file, the place and the
     directories above it as they are *)
  assert (H1 : wf t1 = true
               /\ get t1 (components src ++ x :: rest) = Some (File data)
               /\ (exists e1, get t1 (components dst ++ p) = Some (Dir e1))
               /\ get t1 (components dst ++ x :: rest) = None).
  { revert E1.
    apply (for_each_inv
             (fun ti => wf ti = true
                /\ get ti (components src ++ x :: rest) = Some (File data)
                /\ (exists e1, get ti (components dst ++ p) = Some (Dir e1))
                /\ get ti (components dst ++ x :: rest) = None));
      [|repeat split; eauto].
    intros e ta tb rb He [Hwa [Hfa [[e1 Hda] Hna]]] Hstep.
    assert (Hex : e <> x) by (intros ->; contradiction).
    assert (Hve : valid_name e = true) by (apply Hvalid, in_or_app; now left).
    destruct (merge_entry_keeps _ _ _ _ _ Hwa Hstep) as [Hwb Hk].
    rewrite components_join_name in Hk by assumption.
    split; [assumption|]. split; [|split].
    - eapply alike_file; [apply Hk | exact Hfa]; [|congruence].
      now apply siblings_apart.
    - eapply alike_dir; [apply Hk | exact Hda]; [|congruence].
      now apply apart_both.
    - eapply merge_entry_adds; [exact Hwa | exact Hstep | | | exact Hna];
        rewrite components_join_name by assumption; now apply siblings_apart. }
  destruct H1 as [Hw1 [Hf1 [[e1 Hd1] Hn1]]].
  assert (Hvx : valid_name x = true)
    by (apply Hvalid, in_or_app; right; now left).
  (* the round of the entry puts the file in its place *)
  assert (H2 : wf t2 = true
               /\ get t2 (components dst ++ x :: rest) = Some (File data)).
  { split; [now destruct (merge_entry_keeps _ _ _ _ _ Hw1 E2)|].
    revert E2. unfold merge_entry. destruct p as [|y p'].
    - (* the file is an entry of the source *)
      simpl in Epf. injection Epf as <- <-.
      assert (isdir t1 (join src f) = false) as ->.
      { unfold isdir, resolve. rewrite valid_join_not_empty by assumption.
        rewrite components_join_name by assumption. now rewrite Hf1. }
      assert (isfile t1 (join src f) = true) as ->.
      { apply isfile_get. split; [now apply valid_join_not_empty|].
        rewrite components_join_name by assumption. eauto. }
      assert (Hnd1 : exists_ t1 (join dst f) = false).
      { unfold exists_, resolve. rewrite valid_join_not_empty by assumption.
        rewrite components_join_name by assumption. now rewrite Hn1. }
      assert (isfile t1 (join dst f) = false) as ->.
      { unfold isfile. unfold exists_ in Hnd1.
        now destruct (resolve t1 (join dst f)). }
      cbn [negb andb]. intros Hm. apply move_ok in Hm.
      destruct Hm as [[_ Hex] | [n [dd [Hn [_ [Hput [Hwhere _]]]]]]];
        [congruence|].
      rewrite components_join_name, Hf1 in Hn by assumption.
      injection Hn as <-.
      destruct Hwhere as [[_ ->] | [Hyes _]].
      + rewrite !components_join_name in Hput by assumption.
        exact (get_put_same _ _ _ _ Hput).
      + apply isdir_exists in Hyes. congruence.
    - (* the file is below an entry of the source and of the destination *)
      simpl in Epf. injection Epf as <- <-.
      assert (Hsx : isdir t1 (join src y) = true).
      { apply isdir_get. split; [now apply valid_join_not_empty|].
        rewrite components_join_name by assumption.
        apply (@get_above t1 (File data) (components src ++ [y])%list
                 (p' ++ [f])%list).
        - now rewrite <- app_assoc.
        - now destruct p'. }
      assert (Hdx : isdir t1 (join dst y) = true).
      { apply isdir_get. split; [now apply valid_join_not_empty|].
        rewrite components_join_name by assumption.
        destruct p' as [|z p'']; [eauto|].
        apply (@get_above t1 (Dir e1) (components dst ++ [y])%list (z :: p'')).
        - now rewrite <- app_assoc.
        - discriminate. }
      rewrite Hsx, Hdx. intros Hrec.
      assert (Hgoal : get t2 (components (join dst y) ++ p' ++ [f])
                      = Some (File data)).
      { apply (IH (join src y) (join dst y) p' t1 t2); try assumption.
        - rewrite !components_join_name by assumption. now apply apart_both.
        - rewrite !components_join_name by assumption. now apply apart_both.
        - now apply valid_join_not_empty.
        - now apply valid_join_not_empty.
        - rewrite components_join_name, <- app_assoc by assumption. eauto.
        - now rewrite components_join_name, <- app_assoc by assumption.
        - now rewrite components_join_name, <- app_assoc by assumption. }
      now rewrite components_join_name, <- app_assoc in Hgoal by assumption. }
  destruct H2 as [Hw2 Hf2].
  (* the rounds after the entry leave the file in its place *)
  revert E3.
  apply (for_each_inv
           (fun ti => wf ti = true
              /\ get ti (components dst ++ x :: rest) = Some (File data)));
    [|now split].
  intros e ta tb rb He [Hwa Hfa] Hstep.
  assert (Hve : valid_name e = true)
    by (apply Hvalid, in_or_app; right; now right).
  destruct (merge_entry_keeps _ _ _ _ _ Hwa Hstep) as [Hwb Hk].
  rewrite components_join_name in Hk by assumption.
  split; [assumption|].
  eapply alike_file; [apply Hk | exact Hfa]; [|congruence].
  now apply apart_both.
Qed.

End MergeBrings.

(** ** The depth of the recursion *)

Section SizeFacts.
Import Str Path Tree Os.

Lemma size_cons (y : string) (c : node) (es : list (string * node)) :
  size (Dir ((y, c) :: es)) = (size c + size (Dir es))%nat.
Proof. simpl. lia. Qed.

Lemma size_pos (n : node) : (1 <= size n)%nat.
Proof. destruct n; simpl; lia. Qed.

Lemma size_entry_get (es : list (string * node)) (x : string) (c : node) :
  entry_get x es = Some c -> (size c + 1 <= size (Dir es))%nat.
Proof.
  induction es as [|[y c0] es IH]; [discriminate|].
  rewrite size_cons. simpl entry_get. destruct (String.eqb x y).
  - intros [= ->]. pose proof (size_pos (Dir es)). lia.
  - intros H. specialize (IH H). lia.
Qed.

Lemma size_entry_put_present (es : list (string * node)) (x : string)
      (c c' : node) :
  entry_get x es = Some c ->
  (size (Dir (entry_put x c' es)) + size c = size (Dir es) + size c')%nat.
Proof.
  induction es as [|[y c0] es IH]; [discriminate|].
  simpl entry_get. simpl entry_put. destruct (String.eqb x y).
  - intros [= ->]. rewrite !size_cons. lia.
  - intros H. specialize (IH H). rewrite !size_cons. lia.
Qed.

Lemma size_entry_put_absent (es : list (string * node)) (x : string) (c' : node) :
  entry_get x es = None ->
  size (Dir (entry_put x c' es)) = (size (Dir es) + size c')%nat.
Proof.
  induction es as [|[y c0] es IH]; [intros _; simpl; lia|].
  simpl entry_get. simpl entry_put. destruct (String.eqb x y); [discriminate|].
  intros H. specialize (IH H). rewrite !size_cons. lia.
Qed.

Lemma size_entry_del (es : list (string * node)) (x : string) (c : node) :
  entry_get x es = Some c ->
  (size (Dir (entry_del x es)) + size c <= size (Dir es))%nat.
Proof.
  assert (Hle : forall l, (size (Dir (entry_del x l)) <= size (Dir l))%nat).
  { induction l as [|[y c0] l IHl]; [simpl; lia|].
    cbn [entry_del]. destruct (String.eqb x y); rewrite !size_cons; lia. }
  induction es as [|[y c0] es IH]; [discriminate|].
  simpl entry_get. cbn [entry_del]. destruct (String.eqb x y).
  - intros [= ->]. rewrite size_cons. specialize (Hle es). lia.
  - intros H. specialize (IH H). rewrite !size_cons. lia.
Qed.

(** What exists at depth [length p] leaves the tree at least that many
    nodes above it. *)
Lemma size_get (t m : node) (p : list string) :
  get t p = Some m -> (length p + size m <= size t)%nat.
Proof.
  revert t; induction p as [|x p IH]; intros t; simpl.
  - intros [= ->]. lia.
  - destruct t as [dat|es]; [discriminate|].
    destruct (entry_get x es) as [c|] eqn:Ec; [|discriminate].
    intros H. specialize (IH _ H). apply size_entry_get in Ec. lia.
Qed.

(** Unlinking a node takes its nodes off the tree. *)
Lemma size_del (t m : node) (s : list string) :
  get t s = Some m -> s <> [] -> (size (del t s) + size m <= size t)%nat.
Proof.
  revert t; induction s as [|x s IH]; intros t Hget Hs; [congruence|].
  simpl in Hget. destruct t as [dat|es]; [discriminate|].
  destruct (entry_get x es) as [c|] eqn:Ec; [|discriminate].
  destruct s as [|y s].
  - injection Hget as ->. simpl. now apply size_entry_del.
  - rewrite del_below, Ec.
    assert (Hc : (size (del c (y :: s)) + size m <= size c)%nat)
      by (apply IH; [assumption | discriminate]).
    pose proof (size_entry_put_present es x (del c (y :: s)) Ec). lia.
Qed.

(** A put below something that is there adds no more than the nodes it
    puts. *)
Lemma size_put (mk : bool) (t t' new m : node) (a : list string) (x : string) :
  get t a = Some m ->
  put mk t (a ++ [x]) new = Some t' ->
  (size t' <= size t + size new)%nat.
Proof.
  revert t t'; induction a as [|y a IH]; intros t t' Hget.
  - clear Hget. cbn [app put].
    destruct t as [dat|es]; [discriminate|].
    destruct (entry_get x es) as [c|] eqn:Ec; intros [= <-].
    + pose proof (size_entry_put_present es x new Ec). lia.
    + rewrite (size_entry_put_absent es x new Ec). lia.
  - simpl in Hget. destruct t as [dat|e0]; [discriminate|].
    destruct (entry_get y e0) as [c|] eqn:Ec; [|discriminate].
    cbn [app]. rewrite (put_present mk e0 y (a ++ [x]) new Ec).
    destruct (put mk c (a ++ [x]) new) as [c'|] eqn:E; [|discriminate].
    intros [= <-]. specialize (IH _ _ Hget E).
    pose proof (size_entry_put_present e0 y c' Ec). lia.
Qed.

(** Without [mk], a put needs the directory above its place. *)
Lemma put_needs_parent (t new : node) (a : list string) (x : string) :
  get t a = None -> put false t (a ++ [x]) new = None.
Proof.
  revert t; induction a as [|y a IH]; intros t; [discriminate|].
  simpl. destruct t as [dat|es]; [reflexivity|].
  destruct (entry_get y es) as [c|].
  - intros H. now rewrite (IH _ H).
  - intros _. now destruct a.
Qed.

(** A move into a directory whose place exists adds no nodes. *)
Lemma move_size (s d : string) (t t' : node) (r : outcome unit)
      (a : list string) (x : string) :
  components d = (a ++ [x])%list ->
  get t a <> None ->
  move s d t = (t', r) ->
  (size t' <= size t)%nat.
Proof.
  intros Hd Ha Hm.
  destruct (move_outcome _ _ _ Hm) as [-> | [-> _]]; [|lia].
  apply move_ok in Hm.
  destruct Hm as [[-> _] | [n [dd [Hn [Hdd [Hput [Hwhere [_ Hnest]]]]]]]];
    [lia|].
  (* the directory that receives the node *)
  assert (Hpar : exists b y, dd = (b ++ [y])%list /\ get t b <> None).
  { destruct Hwhere as [[_ ->] | [Hyes [Hnone ->]]].
    - exists a, x. now split.
    - pose proof (basename_plain s) as Hb.
      rewrite (components_plain _ Hb) in Hnone |- *.
      apply isdir_get in Hyes. destruct Hyes as [_ [es Hes]].
      unfold piece in *. destruct (is_empty (basename s)).
      + rewrite app_nil_r in Hnone. congruence.
      + exists (components d), (basename s). split; [reflexivity | congruence]. }
  destruct Hpar as [b [y [-> Hb]]].
  assert (Hs : components s <> []).
  { intros Hs0. rewrite Hs0 in Hn, Hnest. simpl in Hn. injection Hn as <-.
    destruct t as [dat|es].
    - rewrite Hs0 in Hput. destruct b; simpl in Hput; discriminate.
    - now specialize (Hnest es eq_refl). }
  assert (Hb' : get (del t (components s)) b <> None).
  { destruct (is_prefix (components s) b) eqn:Epre.
    - exfalso. pose proof (get_prefix t _ _ Epre Hb) as Hsome.
      destruct n as [dat|es].
      + assert (b = components s) by (eapply get_below_file; eassumption).
        subst b. cbn [is_dir] in Hput.
        rewrite put_needs_parent in Hput; [discriminate|].
        apply get_del_gone; [assumption | apply is_prefix_refl].
      + specialize (Hnest es eq_refl).
        rewrite (is_prefix_trans _ _ _ Epre (is_prefix_app b [y])) in Hnest.
        discriminate.
    - pose proof (alike_del t (components s) b Epre) as Hal.
      destruct (get t b) as [[?|?]|], (get (del t (components s)) b) as [[?|?]|];
        simpl in Hal; try contradiction; congruence. }
  destruct (get (del t (components s)) b) as [m|] eqn:Em; [|congruence].
  pose proof (size_put _ _ _ b y Em Hput).
  pose proof (@size_del t n (components s) Hn Hs). lia.
Qed.

(** A loop whose rounds all come to an end comes to an end: [J] holds
    after every round, [I] after the rounds that end well. *)
Lemma for_each_total (S A : Type) (I J : S -> Prop) (xs : list A)
      (body : A -> M S unit) (s s' : S) (r : outcome unit) :
  (forall x s1 s2 r1, In x xs -> I s1 -> J s1 -> body x s1 = (s2, r1) ->
     J s2 /\ r1 <> Diverge /\ (r1 = Ok tt -> I s2)) ->
  I s -> J s -> for_each xs body s = (s', r) -> J s' /\ r <> Diverge.
Proof.
  revert s; induction xs as [|x xs IH]; intros s Hstep Hi Hj; cbn [for_each].
  - intros [= <- <-]. split; [assumption | discriminate].
  - unfold bind. destruct (body x s) as [s1 r1] eqn:E.
    destruct (Hstep x s s1 r1 (or_introl eq_refl) Hi Hj E) as [Hj1 [Hnd Hi1]].
    destruct r1 as [[]|e|]; [|intros [= <- <-]; split; [assumption|discriminate]
                             |congruence].
    apply IH; [|now apply Hi1 | assumption].
    intros y sa sb rb Hy. apply Hstep. now right.
Qed.

Lemma exists_get (t : node) (p : string) :
  exists_ t p = true -> get t (components p) <> None.
Proof.
  unfold exists_, resolve. destruct (is_empty p); [discriminate|].
  now destruct (get t (components p)).
Qed.

Lemma alike_some (a b : option node) : alike a b -> a <> None -> b <> None.
Proof.
  destruct a as [[?|?]|], b as [[?|?]|]; simpl; try tauto; congruence.
Qed.

(** With as many levels left as the tree has nodes below the source, the
    recursion does not run out of them, and the merge adds no nodes. *)
Lemma merge_total (fuel : nat) (src dst : string) (t t' : node)
      (r : outcome unit) :
  wf t = true ->
  isdir t src = true ->
  exists_ t dst = true ->
  (size t <= fuel + length (components src))%nat ->
  move_and_merge_tree fuel src dst t = (t', r) ->
  r <> Diverge /\ (size t' <= size t)%nat.
Proof.
  revert src dst t t' r; induction fuel as [|fuel IH];
    intros src dst t t' r Hwf Hs Hd Hsize.
  - exfalso. apply isdir_get in Hs. destruct Hs as [_ [es Hes]].
    pose proof (@size_get t (Dir es) (components src) Hes).
    pose proof (size_pos (Dir es)). lia.
  - rewrite merge_step, Hd, (isdir_not_isfile _ _ Hs). cbn [negb].
    destruct (resolve t src) as [[dat|es]|] eqn:Hr;
      try (intros [= <- <-]; split; [discriminate | lia]).
    intros Hrun.
    apply (for_each_total
             (fun ti => get ti (components dst) <> None)
             (fun ti => wf ti = true /\ (size ti <= size t)%nat)) in Hrun.
    + destruct Hrun as [[_ Hsz] Hnd]. now split.
    + intros e ti tj r1 Hin Hi [Hwi Hsi] Hstep.
      pose proof (@listing_valid t src es e Hwf Hr Hin) as He.
      destruct (merge_entry_keeps _ _ _ _ _ Hwi Hstep) as [Hwj Hk].
      assert (Hmove : move (join src e) (join dst e) ti = (tj, r1) ->
                (wf tj = true /\ (size tj <= size t)%nat)
                /\ r1 <> Diverge
                /\ (r1 = Ok tt -> get tj (components dst) <> None)).
      { intros Hm. split; [|split].
        - split; [assumption|].
          pose proof (@move_size _ _ _ _ _ (components dst) e
                        (components_join_name dst e He) Hi Hm). lia.
        - destruct (move_outcome _ _ _ Hm) as [-> | [_ [-> | ->]]]; discriminate.
        - intros ->. apply move_exists, exists_get in Hm.
          rewrite components_join_name in Hm by assumption.
          eapply get_prefix; [apply is_prefix_app | exact Hm]. }
      revert Hstep. unfold merge_entry.
      destruct (isdir ti (join src e)) eqn:Ese.
      * destruct (isdir ti (join dst e)) eqn:Ede; [|exact Hmove].
        intros Hrec.
        assert (Hfuel : (size ti <= fuel + length (components (join src e)))%nat).
        { rewrite components_join_name, length_app by assumption. simpl. lia. }
        destruct (IH _ _ _ _ _ Hwi Ese (isdir_exists _ _ Ede) Hfuel Hrec)
          as [Hnd Hsz].
        split; [split; [assumption | lia]|]. split; [assumption|].
        intros ->.
        destruct (is_prefix (components (join src e)) (components dst)) eqn:Epre.
        -- exfalso. apply is_prefix_iff in Epre. destruct Epre as [rel Hrel].
           assert (Hcd : components (join dst e)
                         = (components (join src e) ++ (rel ++ [e]))%list).
           { rewrite (components_join_name dst e He), Hrel.
             now rewrite <- app_assoc. }
           assert (Hne : (rel ++ [e])%list <> []) by now destruct rel.
           exact (@merge_nested fuel (join src e) (join dst e) (rel ++ [e])%list
                    ti tj (Ok tt) Hwi Ese Ede Hcd Hne Hrec eq_refl).
        -- exact (@alike_some _ _ (Hk _ Epre Hi) Hi).
      * destruct (isfile ti (join src e) && negb (isfile ti (join dst e)));
          [exact Hmove|].
        intros [= <- <-]. split; [now split|]. split; [discriminate | auto].
    + now apply exists_get.
    + split; [assumption | lia].
Qed.

(** [_move_and_merge_tree] gives the recursion enough levels: in a
    well-formed tree it returns or raises. *)
Lemma merge_terminates (src dst : string) (t : node) :
  wf t = true -> snd (_move_and_merge_tree src dst t) <> Diverge.
Proof.
  intros Hwf. unfold _move_and_merge_tree.
  destruct (move_and_merge_tree (S (size t)) src dst t) as [t' r] eqn:Hrun.
  cbn [snd].
  assert (Hmove : move src dst t = (t', r) -> r <> Diverge).
  { intros Hm.
    destruct (move_outcome _ _ _ Hm) as [-> | [_ [-> | ->]]]; discriminate. }
  destruct (exists_ t dst) eqn:Hd;
    [|rewrite merge_step, Hd in Hrun; now apply Hmove].
  destruct (isfile t src) eqn:Hf;
    [rewrite merge_step, Hd, Hf in Hrun; now apply Hmove|].
  destruct (isdir t src) eqn:Hs.
  - apply (@merge_total (S (size t)) src dst t t' r); try assumption. lia.
  - rewrite merge_step, Hd, Hf in Hrun. cbn [negb] in Hrun.
    unfold isdir in Hs.
    destruct (resolve t src) as [[dat|es]|]; try discriminate;
      injection Hrun as <- <-; discriminate.
Qed.

End SizeFacts.

(** ** The claims on [_move_and_merge_tree] *)

Section MergeTheorems.
Import Str Path Tree Os.

(** C4, as the code has it.  In a tree whose entries have valid and
    distinct names, the merge of a directory [src] with a regular file
    [name] in it returns or raises, and
    - into a directory [dst] that has a regular file [name] already: the
      file of [dst] has its bytes unchanged after a merge that returns;
      this holds also after a merge that raises, unless [dst] lies inside
      [src];
    - into a path [dst] that does not exist: the file of [src] is at
      [dst] after a merge that returns. *)
Theorem merge_precedence (src dst name src_data : string) (t t' : node)
        (r : outcome unit) :
  wf t = true ->
  valid_name name = true ->
  isdir t src = true ->
  read t (join src name) = Some src_data ->
  _move_and_merge_tree src dst t = (t', r) ->
  r <> Diverge
  /\ (forall dst_data,
        isdir t dst = true ->
        read t (join dst name) = Some dst_data ->
        r = Ok tt \/ inside (components src) (components dst) = false ->
        read t' (join dst name) = Some dst_data)
  /\ (exists_ t dst = false ->
      r = Ok tt ->
      read t' (join dst name) = Some src_data).
Proof.
  intros Hwf Hname Hs Hsrc Hrun. split.
  - pose proof (merge_terminates src dst t Hwf) as Hnd.
    now rewrite Hrun in Hnd.
  - exact (@merge_precedence_at (S (size t)) src dst name src_data t t' r
             Hwf Hname Hs Hsrc Hrun).
Qed.

(** The regular files of the destination keep their bytes in a merge,
    whether it returns or raises; source and destination lie apart. *)
Lemma merge_keeps_files (fuel : nat) (src dst rel data : string)
      (t t' : node) (r : outcome unit) :
  wf t = true ->
  isdir t src = true ->
  is_prefix (components src) (components dst) = false ->
  is_prefix (components dst) (components src) = false ->
  move_and_merge_tree fuel src dst t = (t', r) ->
  startswith "/" rel = false ->
  read t (join dst rel) = Some data ->
  read t' (join dst rel) = Some data.
Proof.
  intros Hwf Hs Hsd Hds Hrun Hrel Hread.
  apply read_get in Hread. destruct Hread as [Hne Hget].
  apply read_get. split; [assumption|].
  rewrite components_join in Hget |- * by assumption.
  assert (Hff : isfile t src && isfile t dst = false)
    by now rewrite (isdir_not_isfile _ _ Hs).
  destruct (@merge_keeps fuel src dst t t' r Hwf Hff Hrun) as [_ Hk].
  eapply alike_file; [apply Hk | exact Hget]; [|congruence].
  rewrite <- (app_nil_r (components src)). now apply apart_both.
Qed.

(** A regular file of the source is at its place in the destination after
    a merge that returns, if that place was free and in a directory that
    was there; source and destination lie apart. *)
Lemma merge_brings_files (fuel : nat) (src dst dir f data : string)
      (t t' : node) :
  wf t = true ->
  isdir t src = true ->
  isdir t dst = true ->
  is_prefix (components src) (components dst) = false ->
  is_prefix (components dst) (components src) = false ->
  move_and_merge_tree fuel src dst t = (t', Ok tt) ->
  startswith "/" dir = false ->
  valid_name f = true ->
  isdir t (join dst dir) = true ->
  read t (join (join src dir) f) = Some data ->
  exists_ t (join (join dst dir) f) = false ->
  read t' (join (join dst dir) f) = Some data.
Proof.
  intros Hwf Hs Hd Hsd Hds Hrun Hdir Hf Hdd Hread Hfree.
  apply read_get in Hread. destruct Hread as [_ Hget].
  rewrite components_join_name, components_join, <- app_assoc in Hget
    by assumption.
  apply isdir_get in Hdd. destruct Hdd as [_ Hdd].
  rewrite components_join in Hdd by assumption.
  assert (Hnone : get t (components dst ++ components dir ++ [f]) = None).
  { unfold exists_, resolve in Hfree.
    rewrite valid_join_not_empty in Hfree by assumption.
    rewrite components_join_name, components_join, <- app_assoc in Hfree
      by assumption.
    now destruct (get t (components dst ++ components dir ++ [f])). }
  apply read_get. split; [now apply valid_join_not_empty|].
  rewrite components_join_name, components_join, <- app_assoc by assumption.
  eapply merge_brings; try eassumption.
  + eapply isdir_not_empty; eassumption.
  + eapply isdir_not_empty; eassumption.
Qed.

(** C5.  The merge of the source tree with [sub/x.txt] and [sub/y.txt]
    into the destination tree with [sub/x.txt] returns, and the
    destination then has its own [sub/x.txt] and the [sub/y.txt] of the
    source, whatever the bytes of the three files.  The same holds at
    every depth, in a tree whose entries have valid and distinct names and
    where source and destination are directories that lie apart: the
    merge returns or raises; every regular file of the destination keeps
    its bytes (also when the merge raises); and after a merge that returns
    every regular file of the source whose place in the destination was
    free, in a directory that was there, is at that place. *)
Theorem merge_recursive :
  (forall sx sy dx,
     _move_and_merge_tree "src" "dst" (fs_sub sx sy dx)
     = (Dir [("src", Dir [("sub", Dir [("x.txt", File sx)])]);
             ("dst", Dir [("sub", Dir [("x.txt", File dx);
                                       ("y.txt", File sy)])])],
        Ok tt))
  /\ (forall src dst t t' r,
        wf t = true ->
        isdir t src = true ->
        isdir t dst = true ->
        is_prefix (components src) (components dst) = false ->
        is_prefix (components dst) (components src) = false ->
        _move_and_merge_tree src dst t = (t', r) ->
        r <> Diverge
        /\ (forall rel data,
              startswith "/" rel = false ->
              read t (join dst rel) = Some data ->
              read t' (join dst rel) = Some data)
        /\ (r = Ok tt ->
            forall dir f data,
              startswith "/" dir = false ->
              valid_name f = true ->
              isdir t (join dst dir) = true ->
              read t (join (join src dir) f) = Some data ->
              exists_ t (join (join dst dir) f) = false ->
              read t' (join (join dst dir) f) = Some data)).
Proof.
  split; [intros sx sy dx; reflexivity|].
  intros src dst t t' r Hwf Hs Hd Hsd Hds Hrun. split; [|split].
  - pose proof (merge_terminates src dst t Hwf) as Hnd.
    now rewrite Hrun in Hnd.
  - intros rel data Hrel Hread.
    exact (@merge_keeps_files (S (size t)) src dst rel data t t' r
             Hwf Hs Hsd Hds Hrun Hrel Hread).
  - intros -> dir f data Hdir Hf Hdd Hread Hfree.
    exact (@merge_brings_files (S (size t)) src dst dir f data t t'
             Hwf Hs Hd Hsd Hds Hrun Hdir Hf Hdd Hread Hfree).
Qed.

End MergeTheorems.

(** The merge of [src] into [dst], each with its [a.txt], and the merge of
    [src] into a [dst] that is not there. *)
Lemma merge_precedence_witness :
  Os.read (fst (_move_and_merge_tree "src" "dst" (fs_ab "new" "old")))
    "dst/a.txt" = Some "old"
  /\ Os.read (fst (_move_and_merge_tree "src" "dst" (fs_a "new")))
       "dst/a.txt" = Some "new".
Proof.
  split.
  - refine (proj1 (proj2 (@merge_precedence
             "src" "dst" "a.txt" "new" (fs_ab "new" "old")
             (fst (_move_and_merge_tree "src" "dst" (fs_ab "new" "old")))
             (snd (_move_and_merge_tree "src" "dst" (fs_ab "new" "old")))
             eq_refl eq_refl eq_refl eq_refl eq_refl)) "old" eq_refl eq_refl _).
    left. reflexivity.
  - refine (proj2 (proj2 (@merge_precedence
             "src" "dst" "a.txt" "new" (fs_a "new")
             (fst (_move_and_merge_tree "src" "dst" (fs_a "new")))
             (snd (_move_and_merge_tree "src" "dst" (fs_a "new")))
             eq_refl eq_refl eq_refl eq_refl eq_refl)) eq_refl eq_refl).
Defined.

(** C4 as stated fails for merges that raise.  The merge of [/s] into
    [/s/d], each with its [a.txt], raises after [/s/d/a.txt] has moved
    away, so the file of the destination is not what it was; and the merge
    of [src] into [src/x], which is not there, raises with nothing moved,
    so the file of the source does not appear at the destination. *)
Lemma merge_precedence_counterexample :
  (let res := _move_and_merge_tree "/s" "/s/d" fs_nested in
   Os.isdir fs_nested "/s" = true
   /\ Os.read fs_nested "/s/a.txt" = Some "sa"
   /\ Os.isdir fs_nested "/s/d" = true
   /\ Os.read fs_nested "/s/d/a.txt" = Some "da"
   /\ snd res = Raise ShutilError
   /\ Os.read (fst res) "/s/d/a.txt" <> Some "da")
  /\ (let res := _move_and_merge_tree "src" "src/x" (fs_a "new") in
      Os.isdir (fs_a "new") "src" = true
      /\ Os.read (fs_a "new") "src/a.txt" = Some "new"
      /\ Os.exists_ (fs_a "new") "src/x" = false
      /\ snd res = Raise ShutilError
      /\ Os.read (fst res) "src/x/a.txt" <> Some "new").
Proof.
  cbv zeta. split.
  - repeat split; try (vm_compute; reflexivity). vm_compute. discriminate.
  - repeat split; try (vm_compute; reflexivity). vm_compute. discriminate.
Qed.

(** The recursive merge of the two trees, read file by file. *)
Lemma merge_recursive_witness :
  let res := _move_and_merge_tree "src" "dst" (fs_sub "sx" "sy" "dx") in
  snd res = Ok tt
  /\ Os.read (fst res) "dst/sub/x.txt" = Some "dx"
  /\ Os.read (fst res) "dst/sub/y.txt" = Some "sy".
Proof.
  cbv zeta. destruct merge_recursive as [Hscene Hlaw].
  pose proof (Hlaw "src" "dst" (fs_sub "sx" "sy" "dx")
                (fst (_move_and_merge_tree "src" "dst" (fs_sub "sx" "sy" "dx")))
                (snd (_move_and_merge_tree "src" "dst" (fs_sub "sx" "sy" "dx")))
                eq_refl eq_refl eq_refl eq_refl eq_refl eq_refl)
    as [_ [Hkeep Hbring]].
  split; [now rewrite Hscene|]. split.
  - exact (Hkeep "sub/x.txt" "dx" eq_refl eq_refl).
  - exact (Hbring (f_equal snd (Hscene "sx" "sy" "dx"))
             "sub" "y.txt" "sy" eq_refl eq_refl eq_refl eq_refl eq_refl).
Defined.

(** * Further properties *)

(** ** File names *)

Section NameFacts.
Import Str Path.

(** A string cut after its last separator is cut where
    [cut_last_slash] cuts it. *)
Lemma cut_last_slash_unique (h t : string) :
  has_slash t = false ->
  (is_empty h || ends_with_slash h) = true ->
  cut_last_slash (h ++ t) = (h, t).
Proof.
  intros Ht. induction h as [|c h IH]; intros Hh.
  - simpl. clear Hh. induction t as [|d t IHt]; [reflexivity|].
    simpl in Ht. apply orb_false_iff in Ht. destruct Ht as [Hd Ht].
    simpl. rewrite (IHt Ht). now rewrite Hd.
  - destruct h as [|d h].
    + simpl in Hh. pose proof (IH eq_refl) as IH'.
      change ("" ++ t) with t in IH'.
      change (String c "" ++ t) with (String c t).
      cbn [cut_last_slash]. rewrite IH'. now rewrite Hh.
    + change (String c (String d h) ++ t) with (String c (String d h ++ t)).
      cbn [cut_last_slash]. rewrite IH by exact Hh. reflexivity.
Qed.

Lemma ends_with_slash_append (a b : string) :
  is_empty b = false ->
  ends_with_slash (a ++ b) = ends_with_slash b.
Proof.
  intros Hb. induction a as [|c a IH]; [reflexivity|].
  simpl. rewrite IH. destruct (a ++ b) eqn:E; [|reflexivity].
  destruct a; [simpl in E; subst b; discriminate | discriminate].
Qed.

Lemma snd_split (p : string) : snd (split p) = snd (cut_last_slash p).
Proof. unfold split. now destruct (cut_last_slash p). Qed.

(** The tail of a path that ends in a name is the name. *)
Lemma split_join_tail (path fname : string) :
  has_slash fname = false ->
  snd (split (join path fname)) = fname.
Proof.
  intros Hf. rewrite snd_split. unfold join.
  rewrite (has_slash_startswith fname Hf).
  destruct (is_empty path || ends_with_slash path) eqn:E.
  - now rewrite cut_last_slash_unique.
  - rewrite <- append_assoc. rewrite cut_last_slash_unique; [reflexivity|assumption|].
    rewrite ends_with_slash_append by reflexivity. apply orb_true_r.
Qed.

End NameFacts.

Section NameTheorems.
Import Str Path.

Lemma get_url_tail (architecture : string) :
  snd (split (_get_url architecture))
  = snd (split architecture) ++ "_pretrained.tar"
  /\ (has_slash architecture = false ->
      snd (split (_get_url architecture)) = architecture ++ "_pretrained.tar").
Proof.
  assert (H : snd (split (_get_url architecture))
              = snd (split architecture) ++ "_pretrained.tar").
  { rewrite !snd_split. unfold _get_url.
    destruct (cut_last_slash_spec architecture) as [Ha [Ht Hh]].
    destruct (cut_last_slash architecture) as [h t]. cbn [fst snd] in *.
    rewrite <- Ha at 1. rewrite append_assoc, <- append_assoc.
    rewrite cut_last_slash_unique; [reflexivity| |].
    - rewrite has_slash_append, Ht. reflexivity.
    - destruct h as [|c h]; [reflexivity|].
      rewrite ends_with_slash_append by reflexivity.
      cbn [is_empty orb] in Hh. rewrite Hh. apply orb_true_r. }
  split; [exact H|]. intros Hs. rewrite H, snd_split. f_equal.
  change architecture with ("" ++ architecture) at 1.
  now rewrite cut_last_slash_unique.
Qed.

(** X1.  The file name [_download] takes from the URL of an architecture
    is the last component of the architecture's name followed by
    [_pretrained.tar]; for a name without a separator, the name itself
    followed by [_pretrained.tar]. *)
Theorem get_url_file_name (architecture : string) :
  snd (split (_get_url architecture))
  = snd (split architecture) ++ "_pretrained.tar"
  /\ (has_slash architecture = false ->
      snd (split (_get_url architecture)) = architecture ++ "_pretrained.tar").
Proof. exact (get_url_tail architecture). Qed.

(** X2.  The path [_download] joins from the directory and a file name is
    taken apart again by the split of [_decompress]: the tail is the file
    name, the head names the directory, and the staging directory is
    [tmp] in that directory. *)
Theorem split_of_join (path fname : string) :
  valid_name fname = true ->
  snd (split (join path fname)) = fname
  /\ components (fst (split (join path fname))) = components path
  /\ components (join (fst (split (join path fname))) "tmp")
     = (components path ++ ["tmp"])%list.
Proof.
  intros Hv. pose proof Hv as Hv'. unfold valid_name in Hv'.
  apply andb_true_iff in Hv'. destruct Hv' as [He Hs].
  apply negb_true_iff in He, Hs.
  pose proof (split_join_tail path fname Hs) as Htail.
  assert (Hhead : components (fst (split (join path fname))) = components path).
  { destruct (components_split (join path fname)) as [Hc _].
    rewrite Htail, components_join_name in Hc by assumption.
    unfold piece in Hc. rewrite He in Hc.
    now apply app_inv_tail in Hc. }
  split; [assumption|]. split; [assumption|].
  now rewrite components_staging, Hhead.
Qed.

End NameTheorems.

(** The archive of ResNet50 is [ResNet50_pretrained.tar]. *)
Lemma get_url_file_name_witness :
  snd (Path.split (_get_url "ResNet50")) = "ResNet50_pretrained.tar".
Proof.
  exact (proj2 (get_url_file_name "ResNet50") eq_refl).
Defined.

(** [/tmp/models/ResNet50_pretrained.tar] is split into [/tmp/models] and
    the file name. *)
Lemma split_of_join_witness :
  snd (Path.split (Path.join "/tmp/models" "ResNet50_pretrained.tar"))
  = "ResNet50_pretrained.tar"
  /\ Path.components
       (fst (Path.split (Path.join "/tmp/models" "ResNet50_pretrained.tar")))
     = ["tmp"; "models"].
Proof.
  destruct (@split_of_join "/tmp/models" "ResNet50_pretrained.tar" eq_refl)
    as [H1 [H2 _]].
  split; [exact H1 | exact H2].
Defined.

(** ** The bytes of a download *)

Section ContentFacts.
Import Str Path Os.

Lemma concat_cons (x : string) (l : list string) :
  String.concat "" (x :: l) = x ++ String.concat "" l.
Proof.
  destruct l as [|y l]; simpl; [now rewrite append_empty_r | reflexivity].
Qed.

(** Leaving out the empty chunks leaves the bytes as they are. *)
Lemma concat_nonempty (l : list string) :
  String.concat "" (filter (fun c => negb (is_empty c)) l)
  = String.concat "" l.
Proof.
  induction l as [|x l IH]; [reflexivity|].
  rewrite concat_cons. cbn [filter].
  destruct x as [|c x]; cbn [is_empty negb]; [exact IH|].
  now rewrite concat_cons, IH.
Qed.

Lemma written_chunks (req : response) :
  written req = String.concat "" (chunks req).
Proof.
  unfold written. destruct (content_length req); [reflexivity|].
  apply concat_nonempty.
Qed.

Variable server : string -> nat -> response.

(** X3.  A [_download] that ends well after asking the server has left,
    at the path it returns, a regular file with the chunks of the response
    in their order, whether or not the response has a [content-length]:
    the second loop leaves out the empty chunks only. *)
Theorem download_content (url path fullname : string) (w w' : world) :
  _download server url path w = (w', Ok fullname) ->
  requests w' <> requests w ->
  read (fs w') fullname
  = Some (String.concat "" (chunks (server url (length (requests w))))).
Proof.
  rewrite download_unfold.
  destruct (if negb (exists_ (fs w) path) then _ else _) as [w1 r1] eqn:E1.
  apply download_ensure in E1.
  destruct E1 as [Hreq [Hop [[-> Hp] | [-> ->]]]]; [|discriminate].
  destruct (download_loop server 4 url _ 0 w1) as [w2 [[]|e|]] eqn:E2;
    try discriminate.
  intros [= -> <-] Hne.
  apply download_loop_effect in E2; [|assumption]. cbv zeta in E2.
  destruct E2 as [_ [Hex [[_ ->] | [_ [_ Hput]]]]]; [congruence|].
  rewrite Hreq, written_chunks in Hput.
  apply get_put_same in Hput.
  apply read_get. split; [|assumption].
  unfold exists_, resolve in Hex.
  now destruct (is_empty (join path (snd (split url)))).
Qed.

End ContentFacts.

(** A body that comes in chunks, one of them empty, without a
    [content-length]. *)
Lemma download_content_witness :
  let srv := server_const 200 None ["he"; ""; "llo"] in
  Os.read (fs (fst (_download srv (_get_url "ResNet50") "/tmp/models"
                      (world_of fs_models))))
    "/tmp/models/ResNet50_pretrained.tar"
  = Some "hello".
Proof.
  cbv zeta.
  refine (@download_content (server_const 200 None ["he"; ""; "llo"])
            (_get_url "ResNet50") "/tmp/models"
            "/tmp/models/ResNet50_pretrained.tar" (world_of fs_models) _
            eq_refl _).
  vm_compute. discriminate.
Defined.

(** ** The ends of [_decompress] *)

Section DecompressEnds.
Import Str Path Tree Os.

Variable members : archive -> string -> option (list (string * node)).

(** [_decompress] on a name with "tar" or "zip" in it: the staging
    directory is seen to, the archive is unpacked by the reader of the
    name, and the rest follows if that went well. *)
Lemma decompress_stages (fname : string) (w : world) :
  (occurs "tar" fname \/ occurs "zip" fname) ->
  let staging := join (fst (split fname)) "tmp" in
  exists t1,
    ((isdir (fs w) staging = false /\ t1 = fs w)
     \/ (isdir (fs w) staging = true
         /\ put false (del (fs w) (components staging))
              (components staging) (Dir []) = Some t1))
    /\ _decompress members fname w =
       match extractall members (reader_of fname) fname staging (with_fs w t1) with
       | (w2, Ok _) =>
           ((names <- lift (listdir staging) ;;
             for_each names (fun f =>
               lift (_move_and_merge_tree (join staging f)
                       (join (fst (split fname)) f)))) ;;;
            lift (rmtree staging) ;;;
            lift (remove fname)) w2
       | (w2, Raise e) => (w2, Raise e)
       | (w2, Diverge) => (w2, Diverge)
       end.
Proof.
  intros Hocc. cbv zeta. rewrite decompress_unfold. cbv zeta.
  destruct (clean_staging (join (fst (split fname)) "tmp") w
              (staging_not_root fname)) as [t1 [-> Hcases]].
  exists t1. split; [assumption|]. unfold reader_of.
  destruct (find fname "tar" >=? 0)%Z eqn:Et; [reflexivity|].
  destruct (find fname "zip" >=? 0)%Z eqn:Ez; [reflexivity|].
  destruct Hocc as [H | H]; apply find_ge_0_iff in H; congruence.
Qed.

(** Cleaning the staging directory leaves everything outside it as it
    was. *)
Lemma clean_frame (t t1 : node) (staging : list string) :
  put false (del t staging) staging (Dir []) = Some t1 ->
  forall q, is_prefix staging q = false -> alike (get t q) (get t1 q).
Proof.
  intros Hput q Hq. eapply alike_trans.
  - apply alike_del. exact Hq.
  - eapply alike_put_plain; eassumption.
Qed.


Lemma rmtree_ok (p : string) (t t' : node) :
  rmtree p t = (t', Ok tt) ->
  components p <> [] /\ isdir t p = true /\ t' = del t (components p).
Proof.
  unfold rmtree, isdir. destruct (components p) as [|x s];
    [destruct (resolve t p); discriminate|].
  destruct (resolve t p) as [[dat|es]|]; try discriminate.
  intros [= <-]. repeat split. discriminate.
Qed.

Lemma remove_ok (p : string) (t t' : node) :
  remove p t = (t', Ok tt) ->
  components p <> [] /\ isfile t p = true /\ t' = del t (components p).
Proof.
  unfold remove, isfile. destruct (components p) as [|x s];
    [destruct (resolve t p); discriminate|].
  destruct (resolve t p) as [[dat|es]|]; try discriminate.
  intros [= <-]. repeat split. discriminate.
Qed.

(** The last two steps of [_decompress], when all ends well. *)
Lemma tail_ok (m : M world unit) (staging fname : string) (w2 w' : world) :
  (m ;;; lift (rmtree staging) ;;; lift (remove fname)) w2 = (w', Ok tt) ->
  exists w3,
    m w2 = (w3, Ok tt)
    /\ components staging <> []
    /\ components fname <> []
    /\ isdir (fs w3) staging = true
    /\ isfile (del (fs w3) (components staging)) fname = true
    /\ w' = with_fs w3 (del (del (fs w3) (components staging))
                          (components fname)).
Proof.
  unfold bind. destruct (m w2) as [w3 [[]|e|]]; try discriminate.
  unfold lift at 1.
  destruct (rmtree staging (fs w3)) as [t4 [[]|e|]] eqn:E4; try discriminate.
  apply rmtree_ok in E4. destruct E4 as [Hs [Hd ->]].
  unfold lift. cbn [fs with_fs].
  destruct (remove fname (del (fs w3) (components staging)))
    as [t5 [[]|e|]] eqn:E5; try discriminate.
  apply remove_ok in E5. destruct E5 as [Hf [Hfile ->]].
  intros [= <-]. exists w3. auto 7.
Qed.

(** X4.  When [_decompress] ends well, the archive is gone and so is the
    staging directory; the server was not asked, and the archive was
    opened once. *)
Theorem decompress_cleans_up (fname : string) (w w' : world) :
  _decompress members fname w = (w', Ok tt) ->
  exists_ (fs w') fname = false
  /\ exists_ (fs w') (join (fst (split fname)) "tmp") = false
  /\ requests w' = requests w
  /\ exists kind, opened w' = (kind, fname) :: opened w.
Proof.
  intros Hrun.
  assert (Hocc : occurs "tar" fname \/ occurs "zip" fname).
  { destruct (find fname "tar" >=? 0)%Z eqn:Et;
      [left; now apply find_ge_0_iff|].
    destruct (find fname "zip" >=? 0)%Z eqn:Ez;
      [right; now apply find_ge_0_iff|].
    destruct (@decompress_refuses members fname w
                (@not_occurs _ _ Et) (@not_occurs _ _ Ez)) as [t1 [E _]].
    rewrite E in Hrun. discriminate. }
  destruct (decompress_stages w Hocc) as [t1 [_ E]]. cbv zeta in E.
  rewrite E in Hrun. clear E.
  destruct (extractall members (reader_of fname) fname _ (with_fs w t1))
    as [w2 [[]|e|]] eqn:Ex; try discriminate.
  apply extractall_opened in Ex. cbn [opened requests with_fs] in Ex.
  destruct Ex as [Ho [Hr _]].
  destruct (after_unpack_quiet fname) as [Hq _]. cbv zeta in Hq.
  pose proof (Hq _ _ _ Hrun) as [Hr' Ho'].
  apply tail_ok in Hrun.
  destruct Hrun as [w3 [_ [Hs [Hf [_ [_ ->]]]]]]. cbn [fs with_fs] in *.
  split; [|split; [|split; [congruence | exists (reader_of fname); congruence]]].
  - unfold exists_. rewrite resolve_get by assumption.
    now rewrite get_del_gone by (assumption || apply is_prefix_refl).
  - unfold exists_. rewrite resolve_get by assumption.
    rewrite get_del_none; [reflexivity|].
    apply get_del_gone; [assumption | apply is_prefix_refl].
Qed.


(** X6.  An archive without members: nothing is unpacked, so the staging
    directory is not made, and where none was there the listing of it
    raises [OSError]; the archive is not removed and the file system is as
    it was. *)
Theorem decompress_empty_archive (fname data : string) (w : world) :
  (occurs "tar" fname \/ occurs "zip" fname) ->
  read (fs w) fname = Some data ->
  members (reader_of fname) data = Some [] ->
  isdir (fs w) (join (fst (split fname)) "tmp") = false ->
  _decompress members fname w
  = ({| fs := fs w; requests := requests w;
        opened := (reader_of fname, fname) :: opened w |},
     Raise OSError).
Proof.
  intros Hocc Hr Hm Hd.
  destruct (decompress_stages w Hocc) as [t1 [Hclean ->]].
  destruct Hclean as [[_ ->] | [Hd' _]]; [|congruence].
  unfold extractall. cbn [fs with_fs requests opened]. rewrite Hr, Hm.
  unfold bind, lift, listdir. cbn [fs].
  unfold isdir in Hd.
  destruct (resolve (fs w) (join (fst (split fname)) "tmp")) as [[d|es]|];
    try discriminate; reflexivity.
Qed.

(** X7.  What a staging directory left by an earlier run holds has no
    part in the result: [_decompress] does what it does when the staging
    directory is there and empty. *)
Theorem decompress_stale_staging (fname : string) (w : world) (t1 : node) :
  let staging := join (fst (split fname)) "tmp" in
  isdir (fs w) staging = true ->
  put false (del (fs w) (components staging)) (components staging) (Dir [])
  = Some t1 ->
  resolve t1 staging = Some (Dir [])
  /\ _decompress members fname w = _decompress members fname (with_fs w t1).
Proof.
  cbv zeta. intros Hd Hput.
  pose proof (staging_not_root fname) as Hs.
  assert (Hres : resolve t1 (join (fst (split fname)) "tmp") = Some (Dir [])).
  { rewrite resolve_get by assumption. eapply get_put_same. eassumption. }
  split; [assumption|].
  rewrite !decompress_unfold. cbv zeta.
  destruct (clean_staging (join (fst (split fname)) "tmp") w Hs)
    as [ta [-> Ha]].
  destruct (clean_staging (join (fst (split fname)) "tmp") (with_fs w t1) Hs)
    as [tb [-> Hb]].
  cbn [fs with_fs] in Hb.
  assert (ta = t1) as -> by (destruct Ha as [[? _] | [_ ?]]; congruence).
  assert (tb = t1) as ->; [|reflexivity].
  destruct Hb as [[_ ->] | [_ Hb]]; [reflexivity|].
  rewrite (del_put _ _ Hput Hs) in Hb.
  rewrite (del_absent (del (fs w) _) _) in Hb
    by (apply get_del_gone; [assumption | apply is_prefix_refl]).
  congruence.
Qed.

End DecompressEnds.

(** [/d/model.tar] is unpacked beside itself, and then neither it nor
    [/d/tmp] is there. *)
Lemma decompress_cleans_up_witness :
  let w' := fst (_decompress two_members "/d/model.tar" (world_of fs_archive)) in
  Os.exists_ (fs w') "/d/model.tar" = false
  /\ Os.exists_ (fs w') "/d/tmp" = false
  /\ Os.read (fs w') "/d/weights.bin" = Some "W".
Proof.
  cbv zeta.
  destruct (@decompress_cleans_up two_members "/d/model.tar"
              (world_of fs_archive)
              (fst (_decompress two_members "/d/model.tar" (world_of fs_archive)))
              eq_refl) as [H1 [H2 _]].
  split; [exact H1|]. split; [exact H2 | reflexivity].
Defined.


(** [/d/model.tar] as an archive without members. *)
Lemma decompress_empty_archive_witness :
  _decompress no_members "/d/model.tar" (world_of fs_archive)
  = ({| fs := fs_archive; requests := [];
        opened := [(Tar, "/d/model.tar")] |}, Raise OSError).
Proof.
  exact (@decompress_empty_archive no_members "/d/model.tar" "B"
           (world_of fs_archive)
           (or_introl (ex_intro _ "/d/model." (ex_intro _ "" eq_refl)))
           eq_refl eq_refl eq_refl).
Defined.

(** [/d/tmp/old.txt], left by a run before, does not reach [/d]. *)
Lemma decompress_stale_staging_witness :
  _decompress two_members "/d/model.tar" (world_of fs_archive_leftover)
  = _decompress two_members "/d/model.tar"
      (world_of (Dir [("d", Dir [("model.tar", File "B"); ("tmp", Dir [])])]))
  /\ Os.exists_
       (fs (fst (_decompress two_members "/d/model.tar"
                   (world_of fs_archive_leftover)))) "/d/old.txt" = false.
Proof.
  split.
  - exact (proj2 (@decompress_stale_staging two_members "/d/model.tar"
                    (world_of fs_archive_leftover)
                    (Dir [("d", Dir [("model.tar", File "B"); ("tmp", Dir [])])])
                    eq_refl eq_refl)).
  - reflexivity.
Defined.

(** ** The ends of [get] *)

Section GetEnds.
Import Str Path Os.

Variable server : string -> nat -> response.
Variable members : archive -> string -> option (list (string * node)).

(** How [_download] can end, and what it has asked by then. *)
Lemma download_outcome (url path : string) (w : world) :
  let res := _download server url path w in
  opened (fst res) = opened w
  /\ (requests (fst res) = requests w
      \/ requests (fst res) = url :: requests w)
  /\ (snd res = Ok (join path (snd (split url)))
      \/ (exists code, code <> 200%Z /\ snd res = Raise (UrlError url code))
      \/ snd res = Raise OSError
      \/ snd res = Raise ShutilError).
Proof.
  cbv zeta. rewrite download_unfold.
  destruct (if negb (exists_ (fs w) path) then _ else _) as [w1 r1] eqn:E1.
  apply download_ensure in E1.
  destruct E1 as [Hreq [Hop [[-> Hp] | [-> ->]]]].
  2:{ cbn. auto 6. }
  destruct (exists_ (fs w1) (join path (snd (split url)))) eqn:Ef.
  - rewrite download_loop_present by assumption. cbn. auto.
  - destruct (download_loop server 4 url _ 0 w1) as [w2 r2] eqn:E2.
    apply download_loop_round in E2; [|assumption|reflexivity].
    cbv zeta in E2. destruct E2 as [Hreq2 [Hop2 Hcases]].
    assert (Hr : requests w2 = url :: requests w) by congruence.
    assert (Ho : opened w2 = opened w) by congruence.
    destruct Hcases as [[Hst [_ ->]] | [[_ [-> | ->]] | [_ [-> _]]]]; cbn;
      eauto 8.
Qed.

(** The archive of an architecture has "tar" in its path. *)
Lemma fullname_has_tar (architecture path : string) :
  occurs "tar" (join path (snd (split (_get_url architecture)))).
Proof.
  assert (H : occurs "tar" (snd (split (_get_url architecture)))).
  { rewrite (proj1 (get_url_tail architecture)).
    apply occurs_append_l. now exists "_pretrained.", "". }
  unfold join.
  destruct (startswith "/" _); [assumption|].
  destruct (is_empty path || ends_with_slash path);
    repeat apply occurs_append_l; assumption.
Qed.

(** [_decompress] on a name with "tar" or "zip" in it asks the server
    nothing and raises only errors of the file system and of the
    decoders. *)
Lemma decompress_io (fname : string) (w : world) :
  (occurs "tar" fname \/ occurs "zip" fname) ->
  let res := _decompress members fname w in
  requests (fst res) = requests w
  /\ opened (fst res) = (reader_of fname, fname) :: opened w
  /\ forall e, snd res = Raise e ->
               e = OSError \/ e = ShutilError \/ e = ReadError.
Proof.
  intros Hocc. cbv zeta.
  destruct (decompress_stages members w Hocc) as [t1 [_ ->]].
  destruct (extractall members (reader_of fname) fname _ (with_fs w t1))
    as [w2 r2] eqn:Ex.
  apply extractall_opened in Ex. cbn [opened requests with_fs] in Ex.
  destruct Ex as [Ho [Hr [_ Hio]]].
  destruct r2 as [[]|e|].
  - destruct (after_unpack_quiet fname) as [Hq Hi]. cbv zeta in Hq, Hi.
    match goal with
    | |- context [fst (?m w2)] => destruct (m w2) as [w3 r3] eqn:E3
    end.
    apply Hq in E3 as Hq3. destruct Hq3 as [Hr3 Ho3]. cbn [fst snd].
    split; [congruence|]. split; [congruence|].
    intros e ->. exact (Hi _ _ _ E3).
  - cbn [fst snd]. split; [assumption|]. split; [assumption|].
    intros e' [= <-]. destruct (Hio _ eq_refl) as [-> | ->]; auto.
  - cbn [fst snd]. split; [assumption|]. split; [assumption|]. discriminate.
Qed.

(** How [get] can end: with the exceptions of the model, an exception it
    raises is [UrlError] with the status of the response, which is not
    200, or an error of the file system or of the decoder. *)
Lemma get_outcome (architecture path : string) (decompress : bool)
      (w : world) :
  let url := _get_url architecture in
  let fullname := join path (snd (split url)) in
  let res := get server members architecture path decompress w in
  (forall e, snd res = Raise e ->
     e = OSError \/ e = ShutilError \/ e = ReadError
     \/ exists code, code <> 200%Z /\ e = UrlError url code)
  /\ (requests (fst res) = requests w
      \/ requests (fst res) = url :: requests w)
  /\ (opened (fst res) = opened w
      \/ (decompress = true
          /\ opened (fst res) = (Tar, fullname) :: opened w)).
Proof.
  cbv zeta. unfold get, bind.
  pose proof (download_outcome (_get_url architecture) path w) as Hd.
  cbv zeta in Hd.
  destruct (_download server (_get_url architecture) path w) as [w1 r1].
  cbn [fst snd] in Hd. destruct Hd as [Ho [Hr Hcases]].
  destruct r1 as [f|e|].
  - destruct Hcases as [[= ->] | [[c [_ H]] | [H | H]]]; try discriminate.
    destruct decompress.
    + pose proof (fullname_has_tar architecture path) as Htar.
      destruct (decompress_io w1 (or_introl Htar)) as [Hr2 [Ho2 Hio]].
      assert (Hk : reader_of (join path (snd (split (_get_url architecture))))
                   = Tar).
      { unfold reader_of. apply find_ge_0_iff in Htar. now rewrite Htar. }
      rewrite Hk in Ho2.
      split; [|split].
      * intros e He. destruct (Hio e He) as [-> | [-> | ->]]; auto.
      * destruct Hr; [left | right]; congruence.
      * right. split; [reflexivity | congruence].
    + cbn. split; [discriminate|]. auto.
  - cbn [fst snd]. split; [|auto].
    intros e' [= <-].
    destruct Hcases as [H | [[c [Hc [= ->]]] | [[= ->] | [= ->]]]];
      try discriminate; eauto 6.
  - destruct Hcases as [H | [[c [_ H]] | [H | H]]]; discriminate.
Qed.

(** X8.  Whatever the architecture, the path and the flag, [get] raises
    neither the [RetryError] of [_download] nor the [TypeError] of
    [_decompress]: the file name of every architecture has "tar" in it.
    It asks the server at most once, and the one archive it can open is
    the download, opened with [tarfile]. *)
Theorem get_raises (architecture path : string) (decompress : bool)
        (w : world) :
  let url := _get_url architecture in
  let fullname := join path (snd (split url)) in
  let res := get server members architecture path decompress w in
  (forall u n, snd res <> Raise (RetryError u n))
  /\ (forall f, snd res <> Raise (TypeError f))
  /\ (requests (fst res) = requests w
      \/ requests (fst res) = url :: requests w)
  /\ (opened (fst res) = opened w
      \/ (decompress = true
          /\ opened (fst res) = (Tar, fullname) :: opened w)).
Proof.
  cbv zeta.
  destruct (get_outcome architecture path decompress w) as [Hex [Hreq Hop]].
  cbv zeta in Hex, Hreq, Hop.
  split; [|split; [|split; assumption]].
  - intros u n H.
    destruct (Hex _ H) as [E | [E | [E | [c [_ E]]]]]; discriminate.
  - intros f H.
    destruct (Hex _ H) as [E | [E | [E | [c [_ E]]]]]; discriminate.
Qed.

End GetEnds.

(** ** A directory in the tree, seen from inside *)

Section Focus.
Import Str Path Tree.

(** What is at [p] can be replaced. *)
Lemma put_over (t x y : node) (p : list string) :
  get t p = Some x -> exists t', put false t p y = Some t'.
Proof.
  revert t; induction p as [|a p IH]; intros t; [now exists y|].
  cbn [get]. destruct t as [dat|es]; [discriminate|].
  destruct (entry_get a es) as [c|] eqn:Ea; [|discriminate].
  intros Hg. destruct (IH c Hg) as [c' Hc'].
  exists (Dir (entry_put a c' es)). rewrite (@put_present _ _ _ _ _ _ Ea).
  now rewrite Hc'.
Qed.

(** A put below [p] is a put in what is at [p]. *)
Lemma put_focus (mk : bool) (t x y new : node) (p q : list string) :
  get t p = Some x -> q <> [] ->
  put mk x q new = Some y ->
  put mk t (p ++ q) new = put false t p y.
Proof.
  intros Hg Hq Hy. revert t Hg; induction p as [|a p IH]; intros t Hg.
  - cbn in Hg. injection Hg as ->. cbn. exact Hy.
  - cbn [get] in Hg. destruct t as [dat|es]; [discriminate|].
    destruct (entry_get a es) as [c|] eqn:Ea; [|discriminate].
    change ((a :: p) ++ q)%list with (a :: (p ++ q))%list.
    rewrite !(@put_present _ _ _ _ _ _ Ea). now rewrite (IH c Hg).
Qed.

(** An unlinking below [p] is an unlinking in what is at [p]. *)
Lemma del_focus (t x : node) (p q : list string) :
  get t p = Some x -> q <> [] ->
  put false t p (del x q) = Some (del t (p ++ q)).
Proof.
  intros Hg Hq. revert t Hg; induction p as [|a p IH]; intros t Hg.
  - cbn in Hg. injection Hg as ->. reflexivity.
  - cbn [get] in Hg. destruct t as [dat|es]; [discriminate|].
    destruct (entry_get a es) as [c|] eqn:Ea; [|discriminate].
    change ((a :: p) ++ q)%list with (a :: (p ++ q))%list.
    rewrite (@put_present _ _ _ _ _ _ Ea), (IH c Hg).
    destruct (p ++ q)%list as [|b r] eqn:E.
    + apply app_eq_nil in E. destruct E as [_ E]. contradiction.
    + now rewrite del_below, Ea.
Qed.

(** An entry that is not there is added after the others. *)
Lemma entry_put_fresh (x : string) (c : node) (es : list (string * node)) :
  fresh x es = true -> entry_put x c es = (es ++ [(x, c)])%list.
Proof.
  induction es as [|[y c0] es IH]; [reflexivity|].
  cbn [fresh entry_put]. intros H. apply andb_true_iff in H.
  destruct H as [Hy Hf]. apply negb_true_iff in Hy. rewrite Hy.
  cbn [app]. now rewrite IH.
Qed.

Lemma fresh_app (x : string) (a b : list (string * node)) :
  fresh x (a ++ b) = fresh x a && fresh x b.
Proof.
  induction a as [|[y c] a IH]; [reflexivity|].
  cbn [app fresh]. now rewrite IH, andb_assoc.
Qed.

End Focus.

(** ** Unpacking into a directory *)

Section Unpack.
Import Str Path Tree Os.

(** A move to a place where nothing is. *)
Lemma move_fresh (s d : string) (t n : node) :
  resolve t s = Some n ->
  exists_ t d = false ->
  components d <> [] ->
  is_prefix (components s) (components d) = false ->
  move s d t
  = match put (is_dir n) (del t (components s)) (components d) n with
    | Some t' => (t', Ok tt)
    | None => (t, Raise OSError)
    end.
Proof.
  intros Hs Hd Hne Hpre. unfold move.
  assert (isdir t d = false) as ->.
  { unfold isdir. unfold exists_ in Hd. now destruct (resolve t d). }
  rewrite Hs. unfold rename.
  assert (Hg : get t (components d) = None).
  { unfold exists_ in Hd. rewrite resolve_get in Hd by assumption.
    now destruct (get t (components d)). }
  rewrite Hg.
  destruct (components d) as [|x r] eqn:Ed; [contradiction|].
  assert (same (components s) (x :: r) = false) as ->.
  { destruct (same _ _) eqn:E; [|reflexivity]. apply same_iff in E.
    rewrite E, is_prefix_refl in Hpre. discriminate. }
  destruct n as [dat|es]; cbn [is_dir]; [reflexivity|].
  now rewrite Hpre.
Qed.

(** A merge into a place where nothing is, is the move. *)
Lemma merge_fresh (src dst : string) (t : node) :
  exists_ t dst = false ->
  _move_and_merge_tree src dst t = move src dst t.
Proof.
  intros H. unfold _move_and_merge_tree. now rewrite merge_step, H.
Qed.

Variables (t0 : node) (p : list string) (fpath base body : string).

Hypothesis fpath_at : components fpath = p.
Hypothesis base_not_tmp : base <> "tmp".

(** The directory while it is unpacked: the archive, the staging
    directory with the members yet to move, and the members moved. *)
Let unpacking (todo done : list (string * node)) : node :=
  Dir ((base, File body) :: ("tmp", Dir todo) :: done).

(** One round of the loop of [_decompress]: the first member of the
    staging directory moves to the directory, after the others. *)
Lemma unpack_step (f : string) (n : node) (todo done : list (string * node))
      (t : node) :
  valid_name f = true ->
  f <> base -> f <> "tmp" ->
  fresh f todo = true -> fresh f done = true ->
  put false t0 p (unpacking ((f, n) :: todo) done) = Some t ->
  exists t',
    _move_and_merge_tree (join (join fpath "tmp") f) (join fpath f) t
    = (t', Ok tt)
    /\ put false t0 p (unpacking todo (done ++ [(f, n)])) = Some t'.
Proof.
  intros Hv Hfn Hft Htodo Hdone Ht.
  pose proof (get_put_same _ _ _ _ Ht) as Hget.
  assert (Etf : ("tmp" =? base) = false) by (apply String.eqb_neq; congruence).
  assert (Eft : (f =? "tmp") = false) by now apply String.eqb_neq.
  assert (Eff : (f =? base) = false) by now apply String.eqb_neq.
  assert (Hsrc : components (join (join fpath "tmp") f) = (p ++ ["tmp"; f])%list).
  { rewrite components_join_name, components_staging, fpath_at by assumption.
    now rewrite <- app_assoc. }
  assert (Hdst : components (join fpath f) = (p ++ [f])%list).
  { now rewrite components_join_name, fpath_at. }
  assert (Hnone : forall td,
    entry_get f ((base, File body) :: ("tmp", Dir td) :: done) = None).
  { intros td. cbn [entry_get]. rewrite Eff, Eft. now apply fresh_iff. }
  assert (Hex : exists_ t (join fpath f) = false).
  { unfold exists_, resolve. rewrite valid_join_not_empty by assumption.
    rewrite Hdst, get_app, Hget. unfold unpacking. cbn [get].
    now rewrite Hnone. }
  rewrite merge_fresh by assumption.
  rewrite (@move_fresh _ _ t n); [|
    unfold resolve; rewrite valid_join_not_empty by assumption;
    rewrite Hsrc, get_app, Hget; unfold unpacking; cbn [get entry_get];
    rewrite Etf; cbn [String.eqb Ascii.eqb Bool.eqb]; cbn [entry_get];
    now rewrite String.eqb_refl
  | assumption
  | rewrite Hdst; now destruct p
  | rewrite Hsrc, Hdst, is_prefix_app_head; cbn [is_prefix];
    now rewrite andb_false_r ].
  rewrite Hsrc, Hdst.
  (* the unlinking in the staging directory *)
  assert (Hdel : put false t p (unpacking todo done)
                 = Some (del t (p ++ ["tmp"; f]))).
  { rewrite <- (@del_focus t _ p ["tmp"; f] Hget) by discriminate.
    f_equal. unfold unpacking. rewrite del_below. cbn [entry_get].
    rewrite Etf. cbn [String.eqb Ascii.eqb Bool.eqb]. cbn [entry_put].
    rewrite Etf. cbn [String.eqb Ascii.eqb Bool.eqb].
    cbn [del entry_del]. rewrite String.eqb_refl.
    apply fresh_iff in Htodo. now rewrite (entry_del_absent _ _ Htodo). }
  pose proof (get_put_same _ _ _ _ Hdel) as Hget1.
  (* the put in the directory *)
  assert (Hput : forall mk,
    put mk (del t (p ++ ["tmp"; f])) (p ++ [f]) n
    = put false t0 p (unpacking todo (done ++ [(f, n)]))).
  { intros mk.
    rewrite (@put_focus mk _ _ (unpacking todo (done ++ [(f, n)])) n p [f] Hget1)
      by (discriminate
          || (unfold unpacking; cbn [put]; rewrite Hnone;
              cbn [entry_put]; rewrite Eff, Eft;
              now rewrite (@entry_put_fresh _ n _ Hdone))).
    rewrite (@put_put _ _ _ _ (unpacking todo (done ++ [(f, n)])) _ Hdel).
    apply (@put_put _ _ _ _ (unpacking todo (done ++ [(f, n)])) _ Ht). }
  rewrite Hput.
  destruct (@put_defined _ _ _ _ (unpacking todo (done ++ [(f, n)])) _ Ht)
    as [t' Ht'].
  exists t'. now rewrite Ht'.
Qed.


Lemma fresh_neq (f : string) (es : list (string * node)) (m : string * node) :
  fresh f es = true -> In m es -> fst m <> f.
Proof.
  induction es as [|[y c] es IH]; [contradiction|].
  cbn [fresh]. intros H. apply andb_true_iff in H. destruct H as [Hy Hf].
  apply negb_true_iff, String.eqb_neq in Hy.
  intros [<- | Hin]; [cbn; congruence | now apply IH].
Qed.

(** The loop of [_decompress] over the members of the staging directory:
    they move to the directory one after the other. *)
Lemma unpack_loop (w : world) (todo : list (string * node)) :
  forall (done : list (string * node)) (t : node),
  wf (Dir todo) = true ->
  fresh "tmp" todo = true ->
  fresh base todo = true ->
  Forall (fun m => fresh (fst m) done = true) todo ->
  put false t0 p (unpacking todo done) = Some t ->
  exists t',
    for_each (map fst todo)
      (fun f => lift (_move_and_merge_tree (join (join fpath "tmp") f)
                        (join fpath f)))
      (with_fs w t)
    = (with_fs w t', Ok tt)
    /\ put false t0 p (unpacking [] (done ++ todo)) = Some t'.
Proof.
  induction todo as [|[f n] todo IH]; intros done t Hwf Htmp Hbase Hdone Ht.
  - exists t. rewrite app_nil_r. now split.
  - rewrite wf_cons in Hwf.
    apply andb_true_iff in Hwf. destruct Hwf as [Hwf Hwf'].
    apply andb_true_iff in Hwf. destruct Hwf as [Hwf _].
    apply andb_true_iff in Hwf. destruct Hwf as [Hv Hfresh].
    cbn [fresh] in Htmp, Hbase.
    apply andb_true_iff in Htmp. destruct Htmp as [Hft Htmp].
    apply andb_true_iff in Hbase. destruct Hbase as [Hfb Hbase].
    apply negb_true_iff, String.eqb_neq in Hft, Hfb.
    apply Forall_cons_iff in Hdone. destruct Hdone as [Hf Hrest].
    cbn [fst] in Hf.
    destruct (@unpack_step f n todo done t Hv) as [t1 [Hstep Ht1]];
      try assumption; try congruence.
    destruct (IH (done ++ [(f, n)])%list t1 Hwf' Htmp Hbase) as [t' [Hloop Ht']];
      [|assumption|].
    { apply Forall_forall. intros m Hin.
      rewrite fresh_app. rewrite Forall_forall in Hrest.
      rewrite (Hrest m Hin). cbn [fresh andb].
      pose proof (fresh_neq _ _ Hfresh Hin) as Hne.
      apply String.eqb_neq in Hne. now rewrite Hne. }
    exists t'. split; [|now rewrite <- app_assoc in Ht'].
    cbn [map for_each fst]. unfold bind at 1. unfold lift at 1.
    cbn [fs with_fs]. rewrite Hstep. exact Hloop.
Qed.

End Unpack.

Section Unpacked.
Import Str Path Tree Os.

Variable members : archive -> string -> option (list (string * node)).

Lemma split_join_head (path base : string) :
  valid_name base = true ->
  components (fst (split (join path base))) = components path.
Proof.
  intros Hv. pose proof Hv as Hv'. unfold valid_name in Hv'.
  apply andb_true_iff in Hv'. destruct Hv' as [He Hs].
  apply negb_true_iff in He, Hs.
  destruct (components_split (join path base)) as [Hc _].
  rewrite (split_join_tail path base Hs), components_join_name in Hc
    by assumption.
  unfold piece in Hc. rewrite He in Hc. now apply app_inv_tail in Hc.
Qed.

(** [_decompress] on an archive that is alone in its directory: when all
    is done the directory holds the members of the archive, in their
    order, and nothing else. *)
Lemma decompress_alone (path base body : string) (w : world) (t0 : node)
      (ms : list (string * node)) :
  valid_name base = true ->
  base <> "tmp" ->
  occurs "tar" (join path base) ->
  put false t0 (components path) (Dir [(base, File body)]) = Some (fs w) ->
  members Tar body = Some ms ->
  ms <> [] ->
  wf (Dir ms) = true ->
  fresh "tmp" ms = true ->
  fresh base ms = true ->
  exists t',
    put false t0 (components path) (Dir ms) = Some t'
    /\ _decompress members (join path base) w
       = ({| fs := t'; requests := requests w;
             opened := (Tar, join path base) :: opened w |}, Ok tt).
Proof.
  intros Hv Hbt Htar Hw Hm Hne Hwf Htmp Hbase.
  set (fullname := join path base) in *.
  set (fpath := fst (split fullname)).
  set (p := components path) in *.
  assert (Hfp : components fpath = p) by now apply split_join_head.
  assert (Hst : components (join fpath "tmp") = (p ++ ["tmp"])%list)
    by now rewrite components_staging, Hfp.
  assert (Hfull : components fullname = (p ++ [base])%list)
    by now apply components_join_name.
  assert (Hfe : is_empty fullname = false) by now apply valid_join_not_empty.
  assert (Ese : is_empty (join fpath "tmp") = false)
    by now apply valid_join_not_empty.
  assert (Etb : ("tmp" =? base) = false) by (apply String.eqb_neq; congruence).
  pose proof (get_put_same _ _ _ _ Hw) as Hget.
  destruct (decompress_stages members w (or_introl Htar)) as [t1 [Hclean ->]].
  fold fullname fpath.
  assert (Hk : reader_of fullname = Tar).
  { unfold reader_of. apply find_ge_0_iff in Htar. now rewrite Htar. }
  rewrite Hk.
  assert (t1 = fs w) as ->.
  { destruct Hclean as [[_ ->] | [Hd _]]; [reflexivity|].
    fold fullname fpath in Hd. unfold isdir, resolve in Hd.
    rewrite Ese, Hst, get_app, Hget in Hd. cbn [get entry_get] in Hd.
    rewrite Etb in Hd. discriminate. }
  clear Hclean.
  (* the unpacking *)
  destruct (@put_defined _ _ _ _ (Dir [(base, File body); ("tmp", Dir ms)]) _ Hw)
    as [t2 Ht2].
  assert (Hx : extractall members Tar fullname (join fpath "tmp")
                 (with_fs w (fs w))
               = ({| fs := t2; requests := requests w;
                     opened := (Tar, fullname) :: opened w |}, Ok tt)).
  { unfold extractall. cbn [fs with_fs requests opened].
    assert (read (fs w) fullname = Some body) as ->.
    { apply read_get. split; [assumption|].
      rewrite Hfull, get_app, Hget. cbn [get entry_get].
      now rewrite String.eqb_refl. }
    rewrite Hm. destruct ms as [|m ms']; [contradiction|].
    rewrite Hst.
    assert (Hnone : get (fs w) (p ++ ["tmp"]) = None).
    { rewrite get_app, Hget. cbn [get entry_get]. now rewrite Etb. }
    destruct (p ++ ["tmp"])%list as [|s l] eqn:E; [now destruct p|].
    rewrite Hnone, <- E.
    rewrite (@put_focus true (fs w) _
               (Dir [(base, File body); ("tmp", Dir (m :: ms'))])
               (Dir (m :: ms')) p ["tmp"] Hget)
      by (discriminate || (cbn [put entry_get]; rewrite Etb; cbn [entry_put];
                           now rewrite Etb)).
    rewrite (@put_put _ _ _ _ (Dir [(base, File body); ("tmp", Dir (m :: ms'))])
               _ Hw), Ht2.
    reflexivity. }
  rewrite Hx. clear Hx.
  (* the loop *)
  destruct (@unpack_loop t0 p fpath base body Hfp Hbt
              {| fs := t2; requests := requests w;
                 opened := (Tar, fullname) :: opened w |} ms [] t2 Hwf Htmp Hbase)
    as [t3 [Hloop Ht3]]; [|assumption|].
  { apply Forall_forall. intros m _. reflexivity. }
  cbn [app] in Ht3.
  unfold bind at 1. unfold bind at 1. unfold lift at 1, listdir.
  cbn [fs]. unfold resolve at 1. rewrite Ese, Hst.
  rewrite get_app, (get_put_same _ _ _ _ Ht2).
  replace (get (Dir [(base, File body); ("tmp", Dir ms)]) ["tmp"])
    with (Some (Dir ms))
    by (cbn [get entry_get]; rewrite Etb; reflexivity).
  unfold with_fs in Hloop |- *. cbn [fs requests opened] in Hloop |- *.
  rewrite Hloop.
  (* the end *)
  pose proof (get_put_same _ _ _ _ Ht3) as Hget3.
  destruct (@put_defined _ _ _ _ (Dir ((base, File body) :: ms)) _ Hw)
    as [t4 Ht4].
  assert (Hrm : rmtree (join fpath "tmp") t3 = (t4, Ok tt)).
  { unfold rmtree, resolve. rewrite Ese, Hst, get_app, Hget3.
    replace (get (Dir ((base, File body) :: ("tmp", Dir []) :: ms)) ["tmp"])
      with (Some (Dir (@nil (string * node))))
      by (cbn [get entry_get]; rewrite Etb; reflexivity).
    destruct (p ++ ["tmp"])%list eqn:E; [now destruct p|]. rewrite <- E.
    f_equal.
    pose proof (@del_focus t3 _ p ["tmp"] Hget3) as Hd.
    rewrite (@put_put _ _ _ _ (del (Dir ((base, File body) :: ("tmp", Dir []) :: ms))
                                  ["tmp"]) _ Ht3) in Hd.
    cbn [del entry_del] in Hd. rewrite Etb in Hd.
    cbn [String.eqb Ascii.eqb Bool.eqb] in Hd.
    apply fresh_iff in Htmp. rewrite (entry_del_absent _ _ Htmp) in Hd.
    rewrite Ht4 in Hd.
    assert (Hd' : Some t4 = Some (del t3 (p ++ ["tmp"])))
      by (apply Hd; discriminate).
    now injection Hd' as <-. }
  unfold bind at 1. unfold lift at 1. cbn [fs]. rewrite Hrm.
  unfold with_fs. cbn [fs requests opened].
  pose proof (get_put_same _ _ _ _ Ht4) as Hget4.
  destruct (@put_defined _ _ _ _ (Dir ms) _ Hw) as [t5 Ht5].
  exists t5. split; [assumption|].
  unfold lift, remove. cbn [fs]. unfold resolve. rewrite Hfe, Hfull, get_app, Hget4.
  replace (get (Dir ((base, File body) :: ms)) [base])
    with (Some (File body))
    by (cbn [get entry_get]; rewrite String.eqb_refl; reflexivity).
  destruct (p ++ [base])%list eqn:E; [now destruct p|]. rewrite <- E.
  pose proof (@del_focus t4 _ p [base] Hget4) as Hd.
  rewrite (@put_put _ _ _ _ (del (Dir ((base, File body) :: ms)) [base]) _ Ht4)
    in Hd.
  cbn [del entry_del] in Hd. rewrite String.eqb_refl in Hd.
  apply fresh_iff in Hbase. rewrite (entry_del_absent _ _ Hbase) in Hd.
  rewrite Ht5 in Hd.
  assert (Hd' : Some t5 = Some (del t4 (p ++ [base]))) by (apply Hd; discriminate).
  injection Hd' as <-. reflexivity.
Qed.

End Unpacked.

(** ** A download that ends well *)

Section DownloadSucceeds.
Import Str Path Tree Os.

Variable server : string -> nat -> response.

(** A put in a directory that is there. *)
Lemma put_child (mk : bool) (t new : node) (a : list string) (x : string)
      (es : list (string * node)) :
  get t a = Some (Dir es) ->
  put mk t (a ++ [x]) new = put false t a (Dir (entry_put x new es))
  /\ exists t', put mk t (a ++ [x]) new = Some t'.
Proof.
  intros Hg.
  assert (H : put mk t (a ++ [x]) new = put false t a (Dir (entry_put x new es))).
  { apply (@put_focus mk t _ _ new a [x] Hg); [discriminate|].
    cbn [put]. destruct (entry_get x es); reflexivity. }
  split; [exact H|]. rewrite H. eapply put_over. eassumption.
Qed.

(** A download into a directory that is there, where neither the file nor
    the temporary file is, answered with 200: the file is put in the
    directory, after one request. *)
Lemma download_fresh (url path : string) (w : world) :
  let fullname := join path (snd (split url)) in
  let req := server url (length (requests w)) in
  isdir (fs w) path = true ->
  exists_ (fs w) fullname = false ->
  exists_ (fs w) (fullname ++ "_tmp") = false ->
  status_code req = 200%Z ->
  exists t',
    put false (fs w) (components fullname) (File (written req)) = Some t'
    /\ _download server url path w
       = ({| fs := t'; requests := url :: requests w; opened := opened w |},
          Ok fullname).
Proof.
  cbv zeta. intros Hd Hf Htmp Hst.
  set (base := snd (split url)) in *.
  set (body := written (server url (length (requests w)))).
  assert (Hs : has_slash base = false) by apply components_split.
  pose proof (isdir_exists _ _ Hd) as Hp.
  pose proof (fname_not_empty _ _ _ Hs Hp Hf) as He.
  destruct (components_fullname path base Hs) as [EF ET].
  unfold piece in EF. rewrite He in EF.
  apply isdir_get in Hd. destruct Hd as [Hpe [es Hes]].
  destruct (@put_child false (fs w) (File body) _ (base ++ "_tmp") es Hes)
    as [_ [t2 Ht2]].
  destruct (@put_child false (fs w) (File body) _ base es Hes) as [_ [t3 Ht3]].
  exists t3. rewrite EF. split; [assumption|].
  rewrite download_unfold, Hp. cbn [negb]. fold base.
  rewrite download_loop_step, Hf. cbn [Z.ltb Z.compare DOWNLOAD_RETRY_LIMIT].
  cbv zeta. rewrite Hst. cbn [Z.eqb Pos.eqb negb]. fold body.
  assert (Hnt : get (fs w) (components (join path base ++ "_tmp")) = None).
  { unfold exists_, resolve in Htmp.
    destruct (is_empty (join path base ++ "_tmp")) eqn:E.
    - destruct (join path base); discriminate.
    - now destruct (get (fs w) (components (join path base ++ "_tmp"))). }
  assert (Hw : write_file (join path base ++ "_tmp") body (fs w) = (t2, Ok tt)).
  { unfold write_file. rewrite ET in Hnt |- *.
    destruct (components path ++ [(base ++ "_tmp")%string])%list eqn:E;
      [now destruct (components path)|].
    now rewrite Hnt, Ht2. }
  rewrite Hw.
  assert (Hm : move (join path base ++ "_tmp") (join path base) t2 = (t3, Ok tt)).
  { rewrite <- ET in Ht2. rewrite <- EF in Ht3.
    rewrite (@move_tmp t2 path base body Hs He).
    - rewrite (del_put _ _ Ht2) by (rewrite ET; now destruct (components path)).
      now rewrite (del_absent _ _ Hnt), Ht3.
    - apply read_get. split; [now destruct (join path base)|].
      eapply get_put_same. eassumption.
    - destruct (tmp_not_above path base Hs) as [HTF _].
      destruct (alike_resolve (fs w) t2 (join path base)
                  (alike_put_plain _ _ _ _ Ht2 HTF)) as [-> _].
      assumption. }
  rewrite Hm. cbn [fs with_fs requests opened].
  rewrite download_loop_present; [reflexivity|]. cbn [fs].
  unfold exists_, resolve. rewrite valid_join_not_empty.
  - cbn [fs with_fs]. rewrite EF. now rewrite (get_put_same _ _ _ _ Ht3).
  - unfold valid_name. now rewrite He, Hs.
Qed.

End DownloadSucceeds.

(** ** [get] into an empty directory *)

Section GetUnpacks.
Import Str Path Os.

Variable server : string -> nat -> response.
Variable members : archive -> string -> option (list (string * node)).

(** The file name of an archive is a name, and not the name of the staging
    directory. *)
Lemma archive_name (architecture : string) :
  valid_name (snd (split (_get_url architecture))) = true
  /\ snd (split (_get_url architecture)) <> "tmp".
Proof.
  pose proof (proj2 (components_split (_get_url architecture))) as Hs.
  rewrite (proj1 (get_url_tail architecture)) in *.
  split.
  - unfold valid_name. rewrite Hs.
    now destruct (snd (split architecture)).
  - intros H. apply (f_equal String.length) in H.
    rewrite length_append in H. cbn in H. lia.
Qed.

(** A [_download] that has to make its directory goes on as one that
    finds it. *)
Lemma download_after_makedirs (url path : string) (w : world) (t1 : node) :
  exists_ (fs w) path = false ->
  makedirs path (fs w) = (t1, Ok tt) ->
  _download server url path w = _download server url path (with_fs w t1).
Proof.
  intros Hn Hm. rewrite !download_unfold. rewrite Hn. cbn [negb].
  unfold lift at 1. rewrite Hm. cbn [fs with_fs].
  now rewrite (makedirs_exists _ _ Hm).
Qed.

(** The download of an archive into a directory that is empty, or is not
    there and can be made. *)
Lemma download_into (architecture path : string) (w : world) :
  let url := _get_url architecture in
  let base := snd (split url) in
  let body := written (server url (length (requests w))) in
  (resolve (fs w) path = Some (Dir [])
   \/ (exists_ (fs w) path = false /\ snd (makedirs path (fs w)) = Ok tt)) ->
  status_code (server url (length (requests w))) = 200%Z ->
  exists t1 t3,
    (forall y t', Tree.put false t1 (components path) y = Some t' ->
                  Tree.put true (fs w) (components path) y = Some t')
    /\ Tree.put false t1 (components path) (Dir [(base, File body)]) = Some t3
    /\ _download server url path w
       = ({| fs := t3; requests := url :: requests w; opened := opened w |},
          Ok (join path base)).
Proof.
  cbv zeta. intros Hpath Hst.
  set (url := _get_url architecture) in *.
  set (base := snd (split url)).
  destruct (archive_name architecture) as [Hv _]. fold url base in Hv.
  assert (Hfresh : forall (w1 : world),
    resolve (fs w1) path = Some (Dir []) ->
    requests w1 = requests w -> opened w1 = opened w ->
    exists t3,
      Tree.put false (fs w1) (components path)
        (Dir [(base, File (written (server url (length (requests w)))))])
      = Some t3
      /\ _download server url path w1
         = ({| fs := t3; requests := url :: requests w; opened := opened w |},
            Ok (join path base))).
  { intros w1 Hres Hr Ho.
    pose proof (resolve_components _ _ Hres) as Hg.
    assert (Hd : isdir (fs w1) path = true) by (unfold isdir; now rewrite Hres).
    assert (Habs : forall x, valid_name x = true ->
              exists_ (fs w1) (join path x) = false).
    { intros x Hx. unfold exists_, resolve.
      rewrite valid_join_not_empty by assumption.
      now rewrite components_join_name, get_app, Hg by assumption. }
    assert (Hv2 : valid_name (base ++ "_tmp") = true).
    { unfold valid_name in *. apply andb_true_iff in Hv. destruct Hv as [He Hs].
      apply negb_true_iff in He, Hs. rewrite has_slash_append, Hs.
      now destruct base. }
    destruct (@download_fresh server url path w1 Hd) as [t3 [Hput Hrun]].
    - now apply Habs.
    - fold base. rewrite join_tmp by apply components_split. now apply Habs.
    - now rewrite Hr.
    - exists t3. fold base in Hput, Hrun. rewrite Hr, Ho in Hrun.
      split; [|exact Hrun]. rewrite components_join_name in Hput by assumption.
      rewrite Hr in Hput.
      now rewrite (proj1 (@put_child false (fs w1) _ _ base [] Hg)) in Hput. }
  destruct Hpath as [Hres | [Hn Hm]].
  - destruct (Hfresh w Hres eq_refl eq_refl) as [t3 [Hput Hrun]].
    exists (fs w), t3. split; [|split; assumption].
    intros y t'. apply put_with_mk.
  - destruct (makedirs path (fs w)) as [t1 r1] eqn:Em. cbn [snd] in Hm. subst r1.
    rewrite (download_after_makedirs url _ _ Hn Em).
    assert (Hmk : components path <> []
                  /\ Tree.put true (fs w) (components path) (Dir []) = Some t1).
    { revert Em. unfold makedirs.
      destruct (components path) as [|x d]; [discriminate|].
      destruct (Tree.get (fs w) (x :: d)); [discriminate|].
      destruct (Tree.put true (fs w) (x :: d) (Dir [])); [|discriminate].
      intros [= ->]. split; [discriminate | reflexivity]. }
    destruct Hmk as [Hne Hmk].
    destruct (Hfresh (with_fs w t1)) as [t3 [Hput Hrun]]; try reflexivity.
    { cbn [fs with_fs]. rewrite resolve_get by assumption.
      eapply get_put_same. eassumption. }
    exists t1, t3. split; [|split; assumption].
    intros y t' Hy. apply put_with_mk in Hy.
    now rewrite (@put_put _ _ _ _ y _ Hmk) in Hy.
Qed.

(** X9.  [get] with [decompress=True] into a directory that is empty, or
    is not there and can be made, when the server answers 200 (with a
    numeral for [content-length], if any) and the archive has members with
    valid names, no two alike, none of them [tmp] or the name of the
    archive: the call ends well after one request, the archive was opened
    with [tarfile], and the directory holds the members of the archive, in
    some order, and nothing else: neither the archive nor the staging
    directory. *)
Theorem get_unpacks (architecture path : string) (w : world)
        (ms : list (string * node)) :
  let url := _get_url architecture in
  let base := snd (split url) in
  let req := server url (length (requests w)) in
  (resolve (fs w) path = Some (Dir [])
   \/ (exists_ (fs w) path = false /\ snd (makedirs path (fs w)) = Ok tt)) ->
  status_code req = 200%Z ->
  members Tar (written req) = Some ms ->
  ms <> [] ->
  Tree.wf (Dir ms) = true ->
  Tree.fresh "tmp" ms = true ->
  Tree.fresh base ms = true ->
  exists t' ms',
    Permutation ms ms'
    /\ Tree.put true (fs w) (components path) (Dir ms') = Some t'
    /\ get server members architecture path true w
       = ({| fs := t'; requests := url :: requests w;
             opened := (Tar, join path base) :: opened w |}, Ok tt).
Proof.
  cbv zeta. intros Hpath Hst Hm Hne Hwf Htmp Hbase.
  destruct (download_into architecture path w Hpath Hst)
    as [t1 [t3 [Hup [Hput Hrun]]]].
  destruct (archive_name architecture) as [Hv Hnt].
  destruct (@decompress_alone members path _ _
              {| fs := t3; requests := _get_url architecture :: requests w;
                 opened := opened w |} t1 ms Hv Hnt
              (fullname_has_tar architecture path) Hput Hm Hne Hwf Htmp Hbase)
    as [t' [Ht' Hdec]].
  exists t', ms. split; [apply Permutation_refl|]. split; [now apply Hup|].
  unfold get, bind. rewrite Hrun. exact Hdec.
Qed.

End GetUnpacks.

(** [get("ResNet50", "/tmp/models")] with [/tmp/models] empty ends well
    after one request, with the archive opened by [tarfile]. *)
Lemma get_unpacks_witness :
  let res := get (server_const 200 (Some 5%Z) ["he"; "llo"]) two_members
               "ResNet50" "/tmp/models" true (world_of fs_models) in
  snd res = Ok tt
  /\ requests (fst res) = [_get_url "ResNet50"]
  /\ opened (fst res) = [(Tar, "/tmp/models/ResNet50_pretrained.tar")].
Proof.
  cbv zeta.
  destruct (@get_unpacks (server_const 200 (Some 5%Z) ["he"; "llo"]) two_members
              "ResNet50" "/tmp/models" (world_of fs_models)
              [("weights.bin", File "W"); ("config.json", File "C")]
              (or_introl eq_refl) eq_refl eq_refl
              (fun H => nil_cons (eq_sym H)) eq_refl eq_refl eq_refl)
    as [t' [ms' [_ [_ Hrun]]]].
  rewrite Hrun. repeat split.
Defined.

(** ** The first two branches of [_move_and_merge_tree] *)

Section MergeMoves.
Import Str Path Tree Os.

(** Nothing can be put below a regular file. *)
Lemma put_under_file (mk : bool) (t new : node) (a : list string) (x : string)
      (dat : string) :
  get t a = Some (File dat) -> put mk t (a ++ [x]) new = None.
Proof.
  revert t; induction a as [|y a IH]; intros t.
  - cbn. now intros [= ->].
  - cbn [get]. destruct t as [d|es]; [discriminate|].
    destruct (entry_get y es) as [c|] eqn:Ey; [|discriminate].
    intros Hg. change ((y :: a) ++ [x])%list with (y :: (a ++ [x]))%list.
    rewrite (@put_present _ _ _ _ _ _ Ey). now rewrite (IH c Hg).
Qed.

(** A path is its directory and its last component. *)
Lemma last_component (d : list string) :
  d <> [] -> exists a x, d = (a ++ [x])%list.
Proof.
  intros H. destruct (exists_last H) as [a [x ->]]. now exists a, x.
Qed.

(** Where a regular file is unlinked, the directories stay. *)
Lemma del_file_keeps_dir (t : node) (s a : list string) (dat : string)
      (es : list (string * node)) :
  get t s = Some (File dat) ->
  get t a = Some (Dir es) ->
  exists es', get (del t s) a = Some (Dir es').
Proof.
  intros Hs Ha.
  assert (Hpre : is_prefix s a = false).
  { destruct (is_prefix s a) eqn:E; [|reflexivity].
    assert (a = s) by (eapply get_below_file; eauto; congruence).
    congruence. }
  eapply alike_dir; [apply alike_del; exact Hpre | exact Ha].
Qed.

(** A regular file moved to a place in a directory that is there. *)
Lemma rename_file (src dst : string) (t : node) (dat : string)
      (a : list string) (x : string) (es : list (string * node)) :
  get t (components src) = Some (File dat) ->
  components dst = (a ++ [x])%list ->
  get t a = Some (Dir es) ->
  components src <> components dst ->
  (get t (components dst) = None
   \/ exists b, get t (components dst) = Some (File b)) ->
  exists t',
    rename (File dat) src dst t = (t', Ok tt)
    /\ get t' (components dst) = Some (File dat)
    /\ get t' (components src) = None.
Proof.
  intros Hs Hd Ha Hne Hfree.
  destruct (@del_file_keeps_dir _ _ _ _ _ Hs Ha) as [es' Ha'].
  destruct (@put_child false (del t (components src)) (File dat) a x es' Ha')
    as [_ [t' Ht']].
  rewrite <- Hd in Ht'.
  exists t'. split; [|split].
  - unfold rename.
    destruct (components dst) as [|y r] eqn:Ed; [now destruct a|].
    assert (same (components src) (y :: r) = false) as ->.
    { destruct (same _ _) eqn:E; [|reflexivity]. apply same_iff in E.
      contradiction. }
    destruct Hfree as [-> | [b ->]]; now rewrite Ht'.
  - eapply get_put_same. eassumption.
  - assert (Hsd : is_prefix (components src) (components dst) = false).
    { destruct (is_prefix (components src) (components dst)) eqn:E;
        [|reflexivity].
      rewrite Hd in E. apply is_prefix_snoc in E. destruct E as [E | E].
      - rewrite Hd in Hne. contradiction.
      - assert (a = components src)
          by (eapply get_below_file; eauto; congruence).
        congruence. }
    assert (Hds : is_prefix (components dst) (components src) = false).
    { destruct (is_prefix (components dst) (components src)) eqn:E;
        [|reflexivity].
      destruct Hfree as [Hn | [b Hb]].
      - exfalso. apply (@get_prefix t _ _ E); [rewrite Hs; discriminate | exact Hn].
      - assert (components src = components dst)
          by (eapply get_below_file; eauto; congruence).
        contradiction. }
    rewrite (@get_put_apart _ _ _ _ _ _ Ht' Hds Hsd).
    apply get_del_gone; [|apply is_prefix_refl].
    intros E. rewrite E in Hs. cbn in Hs. injection Hs as ->.
    destruct a; discriminate.
Qed.

(** X10.  Merging onto a path where nothing is, when it ends well, has
    moved the whole source there as it was, a regular file or a directory
    with all it holds, and the source is gone. *)
Theorem merge_moves_whole (src dst : string) (t t' : node) :
  exists_ t dst = false ->
  _move_and_merge_tree src dst t = (t', Ok tt) ->
  get t (components src) <> None
  /\ get t' (components dst) = get t (components src)
  /\ exists_ t' src = false.
Proof.
  intros Hn Hrun. rewrite merge_fresh in Hrun by assumption.
  apply move_ok in Hrun.
  destruct Hrun as [[_ He] | [n [dd [Hg [Hdd [Hput [Hwhere [_ Hdir]]]]]]]];
    [congruence|].
  destruct Hwhere as [[_ ->] | [Hd _]];
    [|apply isdir_exists in Hd; congruence].
  assert (Hnone : get t (components dst) = None).
  { unfold exists_ in Hn. rewrite resolve_get in Hn by assumption.
    now destruct (get t (components dst)). }
  split; [congruence|]. split; [rewrite Hg; eapply get_put_same; eassumption|].
  unfold exists_, resolve. destruct (is_empty src); [reflexivity|].
  assert (Hds : is_prefix (components dst) (components src) = false).
  { destruct (is_prefix (components dst) (components src)) eqn:E;
      [|reflexivity].
    exfalso. apply (@get_prefix t _ _ E); [rewrite Hg; discriminate | exact Hnone]. }
  assert (Hs : components src <> []).
  { intros E. rewrite E in Hg, Hput. cbn in Hg. injection Hg as <-.
    destruct t as [dat|es].
    - cbn [del is_dir] in Hput.
      destruct (components dst); [contradiction | discriminate].
    - specialize (Hdir es eq_refl). rewrite E in Hdir. discriminate. }
  assert (Hsd : is_prefix (components src) (components dst) = false).
  { destruct n as [dat|es]; [|now apply (Hdir es)].
    destruct (is_prefix (components src) (components dst)) eqn:E;
      [|reflexivity].
    exfalso. destruct (last_component Hdd) as [a [x Ea]].
    rewrite Ea in E, Hput. apply is_prefix_snoc in E. destruct E as [E | E].
    - rewrite E, Ea, is_prefix_refl in Hds. discriminate.
    - cbn [is_dir] in Hput.
      rewrite put_needs_parent in Hput; [discriminate|].
      now apply get_del_gone. }
  rewrite (@get_put_apart _ _ _ _ _ _ Hput Hds Hsd).
  now rewrite get_del_gone by (assumption || apply is_prefix_refl).
Qed.

(** X11.  The precedence of the destination holds inside directories
    only: when source and destination are two regular files themselves,
    named by paths that do not end in a separator, the merge ends well and
    the destination has the bytes of the source, which is gone. *)
Theorem merge_file_onto_file (src dst src_data dst_data : string) (t : node) :
  ends_with_slash src = false ->
  ends_with_slash dst = false ->
  read t src = Some src_data ->
  read t dst = Some dst_data ->
  components src <> components dst ->
  exists t',
    _move_and_merge_tree src dst t = (t', Ok tt)
    /\ read t' dst = Some src_data
    /\ exists_ t' src = false.
Proof.
  intros _ _ Hs Hd Hne.
  pose proof (read_isfile _ _ Hs) as Hfs.
  pose proof (isfile_exists _ _ (read_isfile _ _ Hd)) as Hed.
  assert (Hdd : isdir t dst = false).
  { unfold isdir. unfold read in Hd.
    now destruct (resolve t dst) as [[?|?]|]. }
  apply read_get in Hs, Hd. destruct Hs as [Hse Hs]. destruct Hd as [Hde Hd].
  assert (Hdne : components dst <> []).
  { intros E. rewrite E in Hd. cbn in Hd. injection Hd as ->.
    destruct (components src); [congruence | discriminate]. }
  destruct (last_component Hdne) as [a [x Ea]].
  assert (Ha : exists es, get t a = Some (Dir es)).
  { rewrite Ea in Hd. eapply get_above; [exact Hd | discriminate]. }
  destruct Ha as [es Ha].
  destruct (@rename_file src dst t src_data a x es Hs Ea Ha Hne)
    as [t' [Hren [Hgd Hgs]]]; [right; eauto|].
  exists t'. split; [|split].
  - unfold _move_and_merge_tree. rewrite merge_step, Hed, Hfs. cbn [negb].
    unfold move. rewrite Hdd. unfold resolve. now rewrite Hse, Hs.
  - apply read_get. now split.
  - unfold exists_, resolve. now rewrite Hse, Hgs.
Qed.

(** X12.  A regular file, named by a path that does not end in a
    separator, merged into a directory goes into the directory under its
    own name: [shutil.Error] is raised and nothing changes when the name is
    taken there, and else the merge ends well with the bytes at that name
    and the source gone. *)
Theorem merge_file_into_dir (src dst data : string) (t : node) :
  ends_with_slash src = false ->
  read t src = Some data ->
  isdir t dst = true ->
  let target := join dst (basename src) in
  (exists_ t target = true ->
   _move_and_merge_tree src dst t = (t, Raise ShutilError))
  /\ (exists_ t target = false ->
      exists t',
        _move_and_merge_tree src dst t = (t', Ok tt)
        /\ read t' target = Some data
        /\ exists_ t' src = false).
Proof.
  intros _ Hs Hd. cbv zeta.
  pose proof (read_isfile _ _ Hs) as Hfs.
  pose proof (isdir_exists _ _ Hd) as Hed.
  apply read_get in Hs. destruct Hs as [Hse Hs].
  pose proof Hd as Hd'. apply isdir_get in Hd'. destruct Hd' as [Hde [es Hes]].
  assert (Hstep : _move_and_merge_tree src dst t
                  = if exists_ t (join dst (basename src))
                    then (t, Raise ShutilError)
                    else rename (File data) src (join dst (basename src)) t).
  { unfold _move_and_merge_tree. rewrite merge_step, Hed, Hfs. cbn [negb].
    unfold move. rewrite Hd.
    assert (samefile t src dst = false) as ->.
    { unfold samefile. destruct (same _ _) eqn:E; [|apply andb_false_r].
      apply same_iff in E. congruence. }
    unfold resolve at 1. now rewrite Hse, Hs. }
  rewrite Hstep. split; [now intros ->|]. intros Hn. rewrite Hn.
  assert (Hj : components (join dst (basename src))
               = (components dst ++ piece (basename src))%list).
  { rewrite components_join
      by (apply has_slash_startswith, basename_plain).
    now rewrite (@components_plain (basename src) (basename_plain src)). }
  assert (Hje : is_empty (join dst (basename src)) = false)
    by now apply join_not_empty.
  assert (Hnone : get t (components (join dst (basename src))) = None).
  { unfold exists_, resolve in Hn. rewrite Hje in Hn.
    now destruct (get t (components (join dst (basename src)))). }
  unfold piece in Hj. destruct (is_empty (basename src)).
  { rewrite Hj, app_nil_r in Hnone. congruence. }
  destruct (@rename_file src (join dst (basename src)) t data
              (components dst) (basename src) es Hs Hj Hes)
    as [t' [Hren [Hgd Hgs]]]; [congruence | now left|].
  exists t'. split; [assumption|]. split.
  - apply read_get. now split.
  - unfold exists_, resolve. now rewrite Hse, Hgs.
Qed.

(** X13.  A merge from a source that is not there raises [OSError],
    whatever the destination, and changes nothing. *)
Theorem merge_missing_source (src dst : string) (t : node) :
  exists_ t src = false ->
  _move_and_merge_tree src dst t = (t, Raise OSError).
Proof.
  intros Hn. unfold _move_and_merge_tree. rewrite merge_step.
  assert (Hr : resolve t src = None).
  { unfold exists_ in Hn. now destruct (resolve t src). }
  assert (isfile t src = false) as -> by (unfold isfile; now rewrite Hr).
  rewrite Hr.
  destruct (exists_ t dst) eqn:Hd; cbn [negb]; [reflexivity|].
  unfold move. rewrite Hr.
  assert (isdir t dst = false) as ->; [|reflexivity].
  unfold isdir. unfold exists_ in Hd. now destruct (resolve t dst).
Qed.

End MergeMoves.

(** [src] with [a.txt] moves to [dst], which is not there. *)
Lemma merge_moves_whole_witness :
  let t' := fst (_move_and_merge_tree "src" "dst" (fs_a "new")) in
  Tree.get t' ["dst"] = Some (Dir [("a.txt", File "new")])
  /\ Os.exists_ t' "src" = false.
Proof.
  cbv zeta.
  destruct (@merge_moves_whole "src" "dst" (fs_a "new")
              (fst (_move_and_merge_tree "src" "dst" (fs_a "new")))
              eq_refl eq_refl) as [_ [H1 H2]].
  split; [exact H1 | exact H2].
Defined.

(** [a.txt] merged onto [b.txt] replaces it. *)
Lemma merge_file_onto_file_witness :
  _move_and_merge_tree "a.txt" "b.txt" fs_two_files
  = (Dir [("b.txt", File "new")], Ok tt).
Proof.
  destruct (@merge_file_onto_file "a.txt" "b.txt" "new" "old" fs_two_files
              eq_refl eq_refl eq_refl eq_refl) as [t' [Hrun _]];
    [discriminate|].
  rewrite Hrun. f_equal.
  apply (f_equal fst) in Hrun. cbn [fst] in Hrun. rewrite <- Hrun. reflexivity.
Defined.

(** [a.txt] merged into the directory [d] becomes [d/a.txt], and is
    refused when [d/a.txt] is there. *)
Lemma merge_file_into_dir_witness :
  Os.read (fst (_move_and_merge_tree "a.txt" "d" fs_file_dir)) "d/a.txt"
  = Some "new"
  /\ _move_and_merge_tree "a.txt" "d" fs_file_dir_taken
     = (fs_file_dir_taken, Raise ShutilError).
Proof.
  split.
  - destruct (proj2 (@merge_file_into_dir "a.txt" "d" "new" fs_file_dir
                       eq_refl eq_refl eq_refl) eq_refl)
      as [t' [Hrun [Hread _]]].
    rewrite Hrun. exact Hread.
  - exact (proj1 (@merge_file_into_dir "a.txt" "d" "new" fs_file_dir_taken
                    eq_refl eq_refl eq_refl) eq_refl).
Defined.

(** No [src] beside [dst]. *)
Lemma merge_missing_source_witness :
  _move_and_merge_tree "src" "dst" (Dir [("dst", Dir [])])
  = (Dir [("dst", Dir [])], Raise OSError).
Proof.
  exact (@merge_missing_source "src" "dst" (Dir [("dst", Dir [])]) eq_refl).
Defined.

(** ** More ends of [_download] and [get] *)

Section DownloadEnds.
Import Str Path Os.

Variable server : string -> nat -> response.
Variable members : archive -> string -> option (list (string * node)).

(** X14.  A download into a directory that is there, where neither the
    file nor the temporary file is, ends well whenever the server answers
    200, with a numeral for [content-length] if it sends one: after the
    one request the tree is the old one with the body put at the final
    name, and that path is returned. *)
Theorem download_succeeds (url path : string) (w : world) :
  let fullname := join path (snd (split url)) in
  let req := server url (length (requests w)) in
  isdir (fs w) path = true ->
  exists_ (fs w) fullname = false ->
  exists_ (fs w) (fullname ++ "_tmp") = false ->
  status_code req = 200%Z ->
  exists t',
    Tree.put false (fs w) (components fullname) (File (written req)) = Some t'
    /\ _download server url path w
       = ({| fs := t'; requests := url :: requests w; opened := opened w |},
          Ok fullname).
Proof. exact (download_fresh server url path w). Qed.

(** X15.  A download to a path that is a regular file, and does not end
    in a separator, asks the server before it fails: with an answer of
    200, [OSError] is raised when the temporary file is opened, after one
    request, and nothing has changed. *)
Theorem download_into_file (url path : string) (w : world) :
  ends_with_slash path = false ->
  isfile (fs w) path = true ->
  is_empty (snd (split url)) = false ->
  status_code (server url (length (requests w))) = 200%Z ->
  _download server url path w
  = ({| fs := fs w; requests := url :: requests w; opened := opened w |},
     Raise OSError).
Proof.
  intros _ Hf He Hst.
  set (base := snd (split url)) in *.
  assert (Hs : has_slash base = false) by apply components_split.
  destruct (components_fullname path base Hs) as [EF ET].
  unfold piece in EF. rewrite He in EF.
  apply isfile_get in Hf. destruct Hf as [Hpe [dat Hg]].
  assert (Hbelow : forall x, Tree.get (fs w) (components path ++ [x]) = None).
  { intros x. now rewrite get_app, Hg. }
  rewrite download_unfold.
  assert (exists_ (fs w) path = true) as ->
    by (unfold exists_, resolve; now rewrite Hpe, Hg).
  cbn [negb]. fold base.
  rewrite download_loop_step.
  assert (exists_ (fs w) (join path base) = false) as ->.
  { unfold exists_, resolve. rewrite EF, Hbelow.
    now destruct (is_empty (join path base)). }
  cbn [Z.ltb Z.compare DOWNLOAD_RETRY_LIMIT]. cbv zeta.
  rewrite Hst. cbn [Z.eqb Pos.eqb negb].
  assert (Hw : forall body,
    write_file (join path base ++ "_tmp") body (fs w) = (fs w, Raise OSError)).
  { intros body. unfold write_file. rewrite ET.
    pose proof (Hbelow (base ++ "_tmp")) as Hn.
    pose proof (@put_under_file false (fs w) (File body) (components path)
                  (base ++ "_tmp") dat Hg) as Hp.
    destruct (components path ++ [(base ++ "_tmp")%string])%list eqn:E;
      [reflexivity|].
    now rewrite Hn, Hp. }
  rewrite Hw. reflexivity.
Qed.

(** A [_download] that finds its directory but not the file asks the
    server once, however it ends. *)
Lemma download_asks (url path : string) (w : world) :
  exists_ (fs w) path = true ->
  exists_ (fs w) (join path (snd (split url))) = false ->
  requests (fst (_download server url path w)) = url :: requests w.
Proof.
  intros Hp Hf. rewrite download_unfold, Hp. cbn [negb].
  destruct (download_loop server 4 url _ 0 w) as [w2 r2] eqn:E2.
  apply download_loop_round in E2; [|assumption|reflexivity].
  cbv zeta in E2. destruct E2 as [Hreq _].
  now destruct r2.
Qed.

(** X16.  Unpacking undoes the short cut of [_download]: after a [get]
    with [decompress=True] that ended well the archive is gone, so the
    next [get] for the same architecture and path asks the server again,
    whatever its flag. *)
Theorem get_again (architecture path : string) (w w' : world) (flag : bool) :
  get server members architecture path true w = (w', Ok tt) ->
  exists_ (fs w') (join path (snd (split (_get_url architecture)))) = false
  /\ requests (fst (get server members architecture path flag w'))
     = _get_url architecture :: requests w'.
Proof.
  set (url := _get_url architecture).
  set (fullname := join path (snd (split url))).
  destruct (archive_name architecture) as [Hv _]. fold url in Hv.
  unfold get at 1, bind. fold url.
  destruct (_download server url path w) as [w1 [f|e|]] eqn:Ed;
    try discriminate.
  assert (f = fullname /\ is_empty path = false) as [-> Hpe].
  { revert Ed. rewrite download_unfold.
    destruct (if negb (exists_ (fs w) path) then _ else _) as [w0 r0] eqn:E0.
    apply download_ensure in E0.
    destruct E0 as [_ [_ [[-> Hp] | [-> _]]]]; [|discriminate].
    destruct (download_loop server 4 url _ 0 w0) as [w2 [[]|e|]];
      try discriminate.
    intros [= _ <-]. split; [reflexivity|].
    unfold exists_, resolve in Hp. now destruct (is_empty path). }
  intros Hdec.
  assert (Hends : exists_ (fs w') fullname = false
                  /\ exists_ (fs w') path = true).
  { pose proof (fullname_has_tar architecture path) as Htar.
    destruct (decompress_stages members w1 (or_introl Htar)) as [t1 [_ E]].
    fold url fullname in E. rewrite E in Hdec. clear E.
    destruct (extractall members _ fullname _ (with_fs w1 t1))
      as [w2 [[]|e|]]; try discriminate.
    apply tail_ok in Hdec.
    destruct Hdec as [w3 [_ [_ [Hf [_ [Hfile ->]]]]]]. cbn [fs with_fs].
    assert (Hfull : components fullname = (components path ++ [snd (split url)])%list)
      by now apply components_join_name.
    split.
    - unfold exists_. rewrite resolve_get by assumption.
      now rewrite get_del_gone by (assumption || apply is_prefix_refl).
    - apply isfile_get in Hfile. destruct Hfile as [_ [dat Hg]].
      rewrite Hfull in Hg |- *.
      destruct (@get_above _ _ _ _ Hg) as [es Hes]; [discriminate|].
      unfold exists_, resolve. rewrite Hpe.
      assert (Hnp : is_prefix (components path ++ [snd (split url)])
                      (components path) = false).
      { rewrite <- (app_nil_r (components path)) at 2.
        now rewrite is_prefix_app_head. }
      destruct (@alike_dir _ _ _ (@alike_del _ _ _ Hnp) Hes) as [es' ->].
      reflexivity. }
  destruct Hends as [Hgone Hthere]. split; [assumption|].
  unfold get, bind. fold url.
  pose proof (download_asks url path w' Hthere Hgone) as Hasks.
  pose proof (download_outcome server url path w') as [_ [_ Hout]].
  destruct (_download server url path w') as [w4 [f|e|]]; cbn [fst snd] in *;
    try assumption.
  destruct flag; [|assumption].
  destruct Hout as [[= ->] | [[c [_ H]] | [H | H]]]; try discriminate.
  pose proof (fullname_has_tar architecture path) as Htar.
  destruct (decompress_io members w4 (or_introl Htar)) as [Hr _].
  fold url in Hr. congruence.
Qed.

End DownloadEnds.

(** The download of the ResNet50 archive into the empty [/tmp/models]. *)
Lemma download_succeeds_witness :
  _download (server_const 200 (Some 5%Z) ["he"; "llo"]) (_get_url "ResNet50")
    "/tmp/models" (world_of fs_models)
  = ({| fs := Dir [("tmp", Dir [("models",
                     Dir [("ResNet50_pretrained.tar", File "hello")])])];
        requests := [_get_url "ResNet50"]; opened := [] |},
     Ok "/tmp/models/ResNet50_pretrained.tar").
Proof.
  destruct (@download_succeeds (server_const 200 (Some 5%Z) ["he"; "llo"])
              (_get_url "ResNet50") "/tmp/models" (world_of fs_models)
              eq_refl eq_refl eq_refl eq_refl) as [t' [Hput Hrun]].
  injection Hput as <-. exact Hrun.
Defined.

(** The download of the ResNet50 archive to [/tmp/models], a regular
    file. *)
Lemma download_into_file_witness :
  _download (server_const 200 (Some 5%Z) ["he"; "llo"]) (_get_url "ResNet50")
    "/tmp/models" (world_of fs_models_file)
  = ({| fs := fs_models_file; requests := [_get_url "ResNet50"];
        opened := [] |}, Raise OSError).
Proof.
  exact (@download_into_file (server_const 200 (Some 5%Z) ["he"; "llo"])
           (_get_url "ResNet50") "/tmp/models" (world_of fs_models_file)
           eq_refl eq_refl eq_refl eq_refl).
Defined.

(** [get("ResNet50", "/tmp/models")] twice: two requests. *)
Lemma get_again_witness :
  let srv := server_const 200 (Some 5%Z) ["he"; "llo"] in
  let w' := fst (get srv two_members "ResNet50" "/tmp/models" true
                   (world_of fs_models)) in
  requests (fst (get srv two_members "ResNet50" "/tmp/models" true w'))
  = [_get_url "ResNet50"; _get_url "ResNet50"].
Proof.
  cbv zeta.
  exact (proj2 (@get_again (server_const 200 (Some 5%Z) ["he"; "llo"])
                  two_members "ResNet50" "/tmp/models" (world_of fs_models)
                  (fst (get (server_const 200 (Some 5%Z) ["he"; "llo"])
                          two_members "ResNet50" "/tmp/models" true
                          (world_of fs_models)))
                  true eq_refl)).
Defined.

(** ** The length of the progress bar *)

(** X17.  The length of the progress bar is the number of chunks of 1024
    bytes that hold [content-length] bytes: the least [k] with
    [total_size <= 1024 * k]. *)
Theorem progress_total_ceiling (total_size : Z) :
  (1024 * (progress_total total_size - 1) < total_size
   <= 1024 * progress_total total_size)%Z.
Proof.
  unfold progress_total.
  pose proof (Z.div_mod (total_size + 1023) 1024 ltac:(lia)).
  pose proof (Z.mod_pos_bound (total_size + 1023) 1024 ltac:(lia)).
  lia.
Qed.

(** ** An archive that is in place *)

Section Cached.
Import Str Path Os.

Variable server : string -> nat -> response.
Variable members : archive -> string -> option (list (string * node)).

(** Where something is at the final name, [_download] returns at once. *)
Lemma download_cached (url path : string) (w : world) :
  path <> "" ->
  exists_ (fs w) (join path (snd (split url))) = true ->
  _download server url path w = (w, Ok (join path (snd (split url)))).
Proof.
  intros Hne Hf.
  assert (Hp : exists_ (fs w) path = true).
  { eapply exists_join; [apply components_split | exact Hne | exact Hf]. }
  rewrite download_unfold, Hp. cbn [negb].
  now rewrite download_loop_present.
Qed.

(** X18.  Whatever is at the place of the archive counts as the download:
    [get] then asks the server nothing, and with [decompress=False] it
    changes nothing at all; neither the age nor the bytes of the file are
    looked at. *)
Theorem get_cached (architecture path : string) (flag : bool) (w : world) :
  path <> "" ->
  exists_ (fs w) (join path (snd (split (_get_url architecture)))) = true ->
  requests (fst (get server members architecture path flag w)) = requests w
  /\ (flag = false ->
      get server members architecture path flag w = (w, Ok tt)).
Proof.
  intros Hne Hf. unfold get, bind.
  rewrite (@download_cached _ _ _ Hne Hf).
  destruct flag.
  - split; [|discriminate].
    apply (decompress_io members w
             (or_introl (fullname_has_tar architecture path))).
  - split; [reflexivity | reflexivity].
Qed.

End Cached.

(** A leftover at the place of the archive is taken for the archive. *)
Lemma get_cached_witness :
  get (server_const 200 (Some 5%Z) ["he"; "llo"]) two_members
    "ResNet50" "/tmp/models" false
    (world_of (Dir [("tmp", Dir [("models",
                 Dir [("ResNet50_pretrained.tar", File "partial")])])]))
  = (world_of (Dir [("tmp", Dir [("models",
                 Dir [("ResNet50_pretrained.tar", File "partial")])])]),
     Ok tt).
Proof.
  refine (proj2 (@get_cached (server_const 200 (Some 5%Z) ["he"; "llo"])
                   two_members "ResNet50" "/tmp/models" false
                   (world_of (Dir [("tmp", Dir [("models",
                      Dir [("ResNet50_pretrained.tar", File "partial")])])]))
                   _ eq_refl) eq_refl).
  discriminate.
Defined.

(** ** [_decompress] stays in the directory of the archive *)

Section StaysInside.
Import Str Path Tree Os.

Variable members : archive -> string -> option (list (string * node)).

Lemma same_outside_refl (p : list string) (a : node) : same_outside p a a.
Proof. intros q _. apply alike_refl. Qed.

Lemma same_outside_trans (p : list string) (a b c : node) :
  same_outside p a b -> same_outside p b c -> same_outside p a c.
Proof.
  intros H1 H2 q Hq. eapply alike_trans; [apply H1 | apply H2]; assumption.
Qed.

(** What is not inside a directory is not at or below an entry of it. *)
Lemma outside_child (p r q : list string) (x : string) :
  inside p q = false -> is_prefix (p ++ x :: r) q = false.
Proof.
  intros Hq. destruct (is_prefix (p ++ x :: r) q) eqn:E; [|reflexivity].
  apply is_prefix_iff in E. destruct E as [r' ->].
  unfold inside in Hq. rewrite <- app_assoc, is_prefix_app in Hq.
  cbn [andb] in Hq. apply negb_false_iff, same_iff in Hq.
  rewrite <- (app_nil_r p) in Hq at 1. apply app_inv_head in Hq.
  discriminate.
Qed.

(** What is not inside a directory that is there, and is nothing, is not
    above an entry of it either. *)
Lemma outside_not_above (t : node) (p q : list string) (x : string) :
  inside p q = false -> get t p <> None -> get t q = None ->
  is_prefix q (p ++ [x]) = false.
Proof.
  intros Hq Hp Hn. destruct (is_prefix q (p ++ [x])) eqn:E; [|reflexivity].
  exfalso. apply is_prefix_snoc in E. destruct E as [-> | E].
  - pose proof (@outside_child p [] (p ++ [x]) x Hq) as H.
    rewrite is_prefix_refl in H. discriminate.
  - exact (@get_prefix t _ _ E Hp Hn).
Qed.

(** A merge changes nothing that is neither in the source nor in the
    destination. *)
Lemma merge_frame (fuel : nat) (src dst : string) (t t' : node)
      (r : outcome unit) :
  wf t = true ->
  move_and_merge_tree fuel src dst t = (t', r) ->
  wf t' = true
  /\ forall q, is_prefix (components src) q = false ->
               is_prefix (components dst) q = false ->
               get t q <> None -> alike (get t q) (get t' q).
Proof.
  intros Hwf Hrun.
  destruct (isfile t src && isfile t dst) eqn:Hff.
  2:{ destruct (@merge_keeps fuel src dst t t' r Hwf Hff Hrun) as [Hw Hk].
      split; [assumption|]. intros q Hs _ Hg. now apply Hk. }
  apply andb_true_iff in Hff. destruct Hff as [Hfs Hfd].
  destruct fuel as [|fuel].
  { injection Hrun as <- <-. split; [assumption | intros; apply alike_refl]. }
  rewrite merge_step, (isfile_exists _ _ Hfd), Hfs in Hrun. cbn [negb] in Hrun.
  split; [eapply move_wf; eassumption|].
  intros q Hs Hd Hg.
  destruct (move_outcome _ _ _ Hrun) as [-> | [-> _]]; [|apply alike_refl].
  apply move_ok in Hrun.
  destruct Hrun as [[-> _] | [n [dd [_ [_ [Hput [Hwhere _]]]]]]];
    [apply alike_refl|].
  destruct Hwhere as [[_ ->] | [Hdir _]].
  - eapply alike_trans; [apply alike_del; exact Hs|].
    eapply alike_put; [exact Hput | exact Hd|].
    eapply alike_some; [apply alike_del; exact Hs | exact Hg].
  - apply isdir_not_isfile in Hdir. congruence.
Qed.

(** The entries an archive brings are well formed with those that are
    there. *)
Lemma wf_unpacked (ms es : list (string * node)) :
  wf (Dir ms) = true -> wf (Dir es) = true ->
  wf (Dir (fold_left (fun acc m => entry_put (fst m) (snd m) acc) ms es)) = true.
Proof.
  revert es; induction ms as [|[x c] ms IH]; intros es Hms Hes; [assumption|].
  rewrite wf_cons in Hms.
  apply andb_true_iff in Hms. destruct Hms as [Hms Hms'].
  apply andb_true_iff in Hms. destruct Hms as [Hms Hc].
  apply andb_true_iff in Hms. destruct Hms as [Hx _].
  cbn [fold_left fst snd]. apply IH; [assumption|]. now apply wf_entry_put.
Qed.

Hypothesis members_wf :
  forall kind data ms, members kind data = Some ms -> wf (Dir ms) = true.

(** The unpacking writes in the staging directory only. *)
Lemma extractall_frame (kind : archive) (fname : string) (w w' : world)
      (r : outcome unit) :
  let p := components (fst (split fname)) in
  wf (fs w) = true ->
  extractall members kind fname (join (fst (split fname)) "tmp") w = (w', r) ->
  wf (fs w') = true /\ same_outside p (fs w) (fs w').
Proof.
  cbv zeta. intros Hwf. unfold extractall.
  destruct (read (fs w) fname) as [bytes|] eqn:Hr;
    [|intros [= <- <-]; split; [assumption | apply same_outside_refl]].
  destruct (members kind bytes) as [[|m ms]|] eqn:Hm;
    try (intros [= <- <-]; split; [assumption | apply same_outside_refl]).
  pose proof (@members_wf _ _ _ Hm) as Hms.
  rewrite components_staging.
  set (p := components (fst (split fname))).
  assert (Hp : get (fs w) p <> None).
  { apply read_get in Hr. destruct Hr as [_ Hr].
    rewrite (proj1 (components_split fname)) in Hr.
    apply (@get_prefix (fs w) p _ (is_prefix_app p (piece (snd (split fname))))).
    unfold p. rewrite Hr. discriminate. }
  destruct (p ++ ["tmp"])%list as [|x d] eqn:E; [now destruct p|].
  rewrite <- E.
  assert (Hvalid : Forall (fun x => valid_name x = true) (p ++ ["tmp"])).
  { unfold p. rewrite <- components_staging. apply components_valid. }
  destruct (get (fs w) (p ++ ["tmp"])) as [[dat|es]|] eqn:Hg.
  - intros [= <- <-]. split; [assumption | apply same_outside_refl].
  - destruct (put false (fs w) (p ++ ["tmp"]) _) as [t|] eqn:Hput;
      intros [= <- <-]; cbn [fs with_fs];
      [|split; [assumption | apply same_outside_refl]].
    split.
    + refine (@wf_put _ _ _ _ _ Hwf _ Hvalid Hput).
      apply wf_unpacked; [assumption|]. exact (@wf_get _ _ _ Hwf Hg).
    + intros q Hq. eapply alike_put_plain; [exact Hput|].
      now apply outside_child.
  - destruct (put true (fs w) (p ++ ["tmp"]) (Dir (m :: ms))) as [t|] eqn:Hput;
      intros [= <- <-]; cbn [fs with_fs];
      [|split; [assumption | apply same_outside_refl]].
    split; [exact (@wf_put _ _ _ _ _ Hwf Hms Hvalid Hput)|].
    intros q Hq. destruct (get (fs w) q) eqn:Hgq.
    + rewrite <- Hgq. eapply alike_put; [exact Hput | | congruence].
      now apply outside_child.
    + rewrite (@get_put_apart _ _ _ _ _ _ Hput), Hgq; [exact I | |].
      * now apply outside_child.
      * eapply outside_not_above; eassumption.
Qed.

(** The loop of merges writes in the directory only. *)
Lemma unpack_frame (fname : string) (names : list string) (t t' : node)
      (r : outcome unit) :
  let p := components (fst (split fname)) in
  let staging := join (fst (split fname)) "tmp" in
  wf t = true ->
  get t p <> None ->
  Forall (fun f => valid_name f = true) names ->
  for_each names
    (fun f => _move_and_merge_tree (join staging f) (join (fst (split fname)) f))
    t = (t', r) ->
  wf t' = true /\ same_outside p t t'.
Proof.
  cbv zeta. intros Hwf Hp Hnames.
  set (p := components (fst (split fname))) in *.
  apply (for_each_inv (fun ti => wf ti = true /\ same_outside p t ti));
    [|split; [assumption | apply same_outside_refl]].
  intros f t1 t2 r1 Hin [Hwf1 Hk1] Hrun.
  rewrite Forall_forall in Hnames. pose proof (Hnames f Hin) as Hf.
  unfold _move_and_merge_tree in Hrun.
  destruct (@merge_frame _ _ _ _ _ _ Hwf1 Hrun) as [Hwf2 Hfr].
  split; [assumption|].
  eapply same_outside_trans; [exact Hk1|].
  assert (Hp1 : get t1 p <> None).
  { eapply alike_some; [apply Hk1 | exact Hp].
    unfold inside. rewrite is_prefix_refl. cbn.
    apply negb_false_iff, same_iff. reflexivity. }
  assert (Hsrc : components (join (join (fst (split fname)) "tmp") f)
                 = (p ++ ["tmp"; f])%list).
  { rewrite components_join_name, components_staging by assumption.
    now rewrite <- app_assoc. }
  assert (Hdst : components (join (fst (split fname)) f) = (p ++ [f])%list)
    by now rewrite components_join_name.
  intros q Hq. destruct (get t1 q) eqn:Hgq.
  - rewrite <- Hgq. apply Hfr; [| |congruence].
    + rewrite Hsrc. now apply outside_child.
    + rewrite Hdst. now apply outside_child.
  - rewrite (@merge_adds _ _ _ _ _ _ q Hwf1 Hrun); [exact I | | |assumption].
    + rewrite Hdst. now apply outside_child.
    + rewrite Hdst. eapply outside_not_above; eassumption.
Qed.


Lemma for_each_lift (A : Type) (xs : list A) (body : A -> M node unit)
      (w : world) :
  for_each xs (fun x => lift (body x)) w
  = let '(t, r) := for_each xs body (fs w) in (with_fs w t, r).
Proof.
  revert w; induction xs as [|x xs IH]; intros w.
  - cbn. now destruct w.
  - cbn [for_each]. unfold bind. unfold lift at 1.
    destruct (body x (fs w)) as [t1 [[]|e|]]; try reflexivity.
    rewrite IH. cbn [fs with_fs].
    now destruct (for_each xs body t1).
Qed.

Lemma rmtree_cases (p : string) (t t' : node) (r : outcome unit) :
  rmtree p t = (t', r) ->
  (t' = t /\ r = Raise OSError)
  \/ (t' = del t (components p) /\ isdir t p = true /\ components p <> []).
Proof.
  unfold rmtree, isdir. destruct (components p) as [|x s];
    [destruct (resolve t p); intros [= <- <-]; now left|].
  destruct (resolve t p) as [[dat|es]|]; intros [= <- <-]; auto.
  right. repeat split. discriminate.
Qed.

Lemma remove_cases (p : string) (t t' : node) (r : outcome unit) :
  remove p t = (t', r) ->
  t' = t
  \/ (t' = del t (components p) /\ isfile t p = true /\ components p <> []).
Proof.
  unfold remove, isfile. destruct (components p) as [|x s];
    [destruct (resolve t p); intros [= <- <-]; now left|].
  destruct (resolve t p) as [[dat|es]|]; intros [= <- <-]; auto.
  right. repeat split. discriminate.
Qed.

(** The clean-up unlinks in the directory only. *)
Lemma cleanup_frame (fname : string) (t t' : node) (r : outcome unit) :
  let p := components (fst (split fname)) in
  wf t = true ->
  (rmtree (join (fst (split fname)) "tmp") ;;; remove fname) t = (t', r) ->
  wf t' = true /\ same_outside p t t'.
Proof.
  cbv zeta. intros Hwf. unfold bind.
  destruct (rmtree _ t) as [t4 r4] eqn:E4.
  assert (H4 : wf t4 = true
               /\ same_outside (components (fst (split fname))) t t4
               /\ (r4 = Ok tt ->
                   exists es, get t4 (components (fst (split fname)))
                              = Some (Dir es))).
  { apply rmtree_cases in E4.
    destruct E4 as [[-> ->] | [-> [Hd _]]].
    - split; [assumption|]. split; [apply same_outside_refl | discriminate].
    - split; [now apply wf_del|]. rewrite components_staging.
      split.
      + intros q Hq. apply alike_del. now apply outside_child.
      + intros _. apply isdir_get in Hd. destruct Hd as [_ [es Hes]].
        rewrite components_staging in Hes.
        destruct (@get_above _ _ _ _ Hes) as [es1 Hes1]; [discriminate|].
        eapply alike_dir; [|exact Hes1]. apply alike_del.
        rewrite <- (app_nil_r (components (fst (split fname)))) at 2.
        now rewrite is_prefix_app_head. }
  destruct H4 as [Hwf4 [Hk4 Hdir4]].
  destruct r4 as [[]|e|];
    try (intros [= <- <-]; split; assumption).
  intros E5. apply remove_cases in E5.
  destruct E5 as [-> | [-> [Hf _]]]; [split; assumption|].
  split; [now apply wf_del|].
  eapply same_outside_trans; [exact Hk4|].
  intros q Hq. apply alike_del.
  rewrite (proj1 (components_split fname)). unfold piece.
  destruct (is_empty (snd (split fname))) eqn:Eb.
  - exfalso. destruct (Hdir4 eq_refl) as [es Hes].
    apply isfile_get in Hf. destruct Hf as [_ [dat Hdat]].
    rewrite (proj1 (components_split fname)) in Hdat. unfold piece in Hdat.
    rewrite Eb, app_nil_r in Hdat. congruence.
  - now apply outside_child.
Qed.

(** What follows the unpacking writes in the directory only. *)
Lemma rest_frame (fname : string) (w2 w' : world) (r : outcome unit) :
  let p := components (fst (split fname)) in
  let staging := join (fst (split fname)) "tmp" in
  wf (fs w2) = true ->
  ((names <- lift (listdir staging) ;;
    for_each names (fun f =>
      lift (_move_and_merge_tree (join staging f)
              (join (fst (split fname)) f)))) ;;;
   lift (rmtree staging) ;;;
   lift (remove fname)) w2 = (w', r) ->
  wf (fs w') = true /\ same_outside p (fs w2) (fs w').
Proof.
  cbv zeta. intros Hwf2.
  set (p := components (fst (split fname))).
  unfold bind at 1. unfold bind at 1. unfold lift at 1, listdir.
  destruct (resolve (fs w2) (join (fst (split fname)) "tmp"))
    as [[dat|es]|] eqn:Hls;
    try (intros [= <- <-]; cbn [fs with_fs];
         split; [assumption | apply same_outside_refl]).
  rewrite for_each_lift. cbn [fs with_fs].
  destruct (for_each (map fst es) _ (fs w2)) as [t3 r3] eqn:E3.
  assert (Hp2 : get (fs w2) p <> None).
  { apply resolve_components in Hls. rewrite components_staging in Hls.
    apply (@get_prefix (fs w2) p _ (is_prefix_app p ["tmp"])).
    unfold p. rewrite Hls. discriminate. }
  assert (Hnames : Forall (fun f => valid_name f = true) (map fst es)).
  { apply Forall_forall. intros f Hin.
    exact (@listing_valid (fs w2) _ es f Hwf2 Hls Hin). }
  destruct (@unpack_frame fname (map fst es) (fs w2) t3 r3 Hwf2 Hp2 Hnames E3)
    as [Hwf3 Hk3].
  destruct r3 as [[]|e|];
    try (intros [= <- <-]; cbn [fs with_fs]; split; assumption).
  unfold bind, lift. cbn [fs with_fs].
  pose proof (@cleanup_frame fname t3) as Hc. cbv zeta in Hc.
  unfold bind in Hc.
  destruct (rmtree (join (fst (split fname)) "tmp") t3) as [t4 r4].
  assert (Hall : forall t5, wf t5 = true /\ same_outside p t3 t5 ->
            wf t5 = true /\ same_outside p (fs w2) t5).
  { intros t5 [Hw5 Hk5]. split; [assumption|].
    eapply same_outside_trans; eassumption. }
  destruct r4 as [[]|e|].
  - cbn [fs with_fs]. destruct (remove fname t4) as [t5 r5] eqn:E5.
    cbv beta iota zeta. intros [= <- <-]. cbn [fs with_fs].
    apply Hall. eapply Hc; [assumption | reflexivity].
  - cbv beta iota zeta. intros [= <- <-]. cbn [fs with_fs].
    apply Hall. eapply Hc; [assumption | reflexivity].
  - cbv beta iota zeta. intros [= <- <-]. cbn [fs with_fs].
    apply Hall. eapply Hc; [assumption | reflexivity].
Qed.

(** X19.  [_decompress] works in the directory of the archive: whatever
    the name of the archive and however the call ends, outside that
    directory every path names what it named before, nothing, a regular
    file with the same bytes, or a directory.  The tree and the members of
    the archives have valid names, no two alike in a directory, and so
    has the tree afterwards; names are opaque here, so no member leaves
    the staging directory by its name. *)
Theorem decompress_stays_inside (fname : string) (w : world) :
  wf (fs w) = true ->
  let res := _decompress members fname w in
  wf (fs (fst res)) = true
  /\ forall q, inside (components (fst (split fname))) q = false ->
               alike (get (fs w) q) (get (fs (fst res)) q).
Proof.
  intros Hwf. cbv zeta. rewrite decompress_unfold. cbv zeta.
  set (p := components (fst (split fname))).
  match goal with
  | |- wf (fs (fst ?x)) = true /\ _ =>
      change (wf (fs (fst x)) = true /\ same_outside p (fs w) (fs (fst x)))
  end.
  destruct (clean_staging (join (fst (split fname)) "tmp") w
              (staging_not_root fname)) as [t1 [-> Hclean]].
  assert (H1 : wf t1 = true /\ same_outside p (fs w) t1).
  { destruct Hclean as [[_ ->] | [_ Hput]];
      [split; [assumption | apply same_outside_refl]|].
    split.
    - exact (@wf_put false _ t1 (Dir []) _ (@wf_del (fs w) _ Hwf) eq_refl
               (components_valid _) Hput).
    - intros q Hq. apply (clean_frame _ _ Hput).
      rewrite components_staging. now apply outside_child. }
  destruct H1 as [Hwf1 Hk1].
  match goal with
  | |- context [match ?m (with_fs w t1) with _ => _ end] =>
      destruct (m (with_fs w t1)) as [w2 r2] eqn:E2
  end.
  assert (H2 : wf (fs w2) = true /\ same_outside p t1 (fs w2)).
  { destruct (find fname "tar" >=? 0)%Z;
      [exact (@extractall_frame Tar fname (with_fs w t1) _ _ Hwf1 E2)|].
    destruct (find fname "zip" >=? 0)%Z;
      [exact (@extractall_frame Zip fname (with_fs w t1) _ _ Hwf1 E2)|].
    injection E2 as <- <-. split; [assumption | apply same_outside_refl]. }
  destruct H2 as [Hwf2 Hk2].
  destruct r2 as [[]|e|]; cbn [fst fs];
    try (split; [assumption | eapply same_outside_trans; eassumption]).
  clear E2.
  match goal with
  | |- context [fst (?m w2)] => destruct (m w2) as [w' r'] eqn:Er
  end.
  destruct (@rest_frame fname w2 w' r' Hwf2 Er) as [Hwf' Hk']. cbn [fst].
  split; [assumption|].
  eapply same_outside_trans; [eassumption|].
  eapply same_outside_trans; eassumption.
Qed.

End StaysInside.

(** [/d/model.tar] is unpacked in [/d]; [/other/keep.txt] keeps its
    bytes. *)
Lemma decompress_stays_inside_witness :
  Tree.alike (Some (File "k"))
    (Tree.get (fs (fst (_decompress two_members "/d/model.tar"
                          (world_of fs_beside))))
       ["other"; "keep.txt"]).
Proof.
  refine (proj2 (@decompress_stays_inside two_members _ "/d/model.tar"
                   (world_of fs_beside) eq_refl)
            ["other"; "keep.txt"] eq_refl).
  intros kind data ms [= <-]. reflexivity.
Defined.
